(** * Spectacle QuickEditor: selection / annotation interaction engine

    A shallow embedding of [src/QuickEditor/QuickEditor.cpp].

    Modelling conventions.
    - [qreal] (IEEE double) is modelled by exact rationals [Q]; equality of
      coordinates is [Qeq] ([==]).  The concrete runs below use device
      pixel ratios 1 or 2 and integer pointer positions, where double
      arithmetic is exact as well; the one run at ratio 3/2 shows an
      overshoot of half a device pixel, far beyond the rounding error of
      doubles.  Rationals and doubles are the same numbers when the ratio
      is a power of two: [1.0 / ratio] and every coordinate the handlers
      compute are then binary fractions of screen size.  At another
      integral ratio (3, say) the doubles drift from the rationals by
      about 1e-12, which no [qRound] of a device coordinate sees, but
      which a test against zero does ([isEmpty] on a width that is 0 here
      and 2.7e-15 there); at a fractional ratio a [qRound] can meet a tie
      (381.5 here, 381.4999999999999 there).  Statements that depend on
      such an outcome are restricted to the ratios where it cannot occur.
    - [int] is modelled by [Z] (no overflow: coordinates are screen sized).
    - The widget is a record of its member variables; every event handler
      is a function from widget state to widget state.  Signals are
      appended to the [emitted] log, the persisted crop region of
      [SpectacleConfig] is the [cropRegion] field, and pending
      [QTimer::singleShot] callbacks are the [timers] queue.
    - Repaint requests ([update()]), cursor shapes and [event->accept()]
      have no influence on the state modelled here and are left out. *)

From Stdlib Require Import ZArith QArith Qround Qminmax Lqa Lia List Bool String.
Import ListNotations.

Local Open Scope Q_scope.

(** ** Numeric helpers of Qt and C++ *)

(** [static_cast<int>(double)]: truncation toward zero. *)
Definition to_int (d : Q) : Z := Z.quot (Qnum d) (Zpos (Qden d)).

(** Qt 5 [qRound(double)]:
    [d >= 0.0 ? int(d + 0.5) : int(d - double(int(d-1)) + 0.5) + int(d-1)]. *)
Definition qRound (d : Q) : Z :=
  if Qlt_le_dec d 0
  then (to_int (d - inject_Z (to_int (d - 1)) + (1#2)) + to_int (d - 1))%Z
  else to_int (d + (1#2)).

(** [qAbs(t)]: [t >= 0 ? t : -t]. *)
Definition qAbs (t : Q) : Q := if Qlt_le_dec t 0 then - t else t.

(** [qMin(a, b)]: [(a < b) ? a : b]. *)
Definition qMin (a b : Q) : Q := if Qlt_le_dec a b then a else b.

(** [qMax(a, b)]: [(a < b) ? b : a]. *)
Definition qMax (a b : Q) : Q := if Qlt_le_dec a b then b else a.

(** Comparison operators of C++ producing a [bool]. *)
Definition qge (a b : Q) : bool := if Qlt_le_dec a b then false else true.
Definition qle (a b : Q) : bool := if Qlt_le_dec b a then false else true.
Definition qlt (a b : Q) : bool := if Qlt_le_dec a b then true else false.
Definition qgt (a b : Q) : bool := if Qlt_le_dec b a then true else false.
Definition qeqb (a b : Q) : bool := Qeq_bool a b.

(** ** Qt geometry value classes *)

Module QPoint.
Record t := mk { x : Z; y : Z }.
End QPoint.

Module QPointF.
Record t := mk { x : Q; y : Q }.

(** Implicit conversion [QPointF(const QPoint &)]. *)
Definition of_point (p : QPoint.t) : t :=
  mk (inject_Z (QPoint.x p)) (inject_Z (QPoint.y p)).

(** [QPointF::toPoint]: rounds each coordinate with [qRound]. *)
Definition toPoint (p : t) : QPoint.t := QPoint.mk (qRound (x p)) (qRound (y p)).

Definition sub (a b : t) : t := mk (x a - x b) (y a - y b).
Definition add (a b : t) : t := mk (x a + x b) (y a + y b).
Definition scale (a : t) (c : Q) : t := mk (x a * c) (y a * c).

Definition eq (a b : t) : Prop := x a == x b /\ y a == y b.
End QPointF.

Module QRect.
(** [QRect(x, y, width, height)]. *)
Record t := mk { x : Z; y : Z; width : Z; height : Z }.
Definition isEmpty (r : t) : bool := (width r <=? 0)%Z || (height r <=? 0)%Z.
End QRect.

Module QRectF.
(** The four private members of [QRectF]: [xp], [yp], [w], [h]. *)
Record t := mk { x : Q; y : Q; width : Q; height : Q }.

Definition null : t := mk 0 0 0 0.

Definition left (r : t) : Q := x r.
Definition top (r : t) : Q := y r.
Definition right (r : t) : Q := x r + width r.
Definition bottom (r : t) : Q := y r + height r.

Definition topLeft (r : t) : QPointF.t := QPointF.mk (x r) (y r).
Definition bottomRight (r : t) : QPointF.t := QPointF.mk (x r + width r) (y r + height r).
Definition topRight (r : t) : QPointF.t := QPointF.mk (x r + width r) (y r).
Definition bottomLeft (r : t) : QPointF.t := QPointF.mk (x r) (y r + height r).

(** [isEmpty]: [w <= 0. || h <= 0.]. *)
Definition isEmpty (r : t) : bool := qle (width r) 0 || qle (height r) 0.

(** [contains(const QPointF &)]: the rectangle is normalised on the fly,
    a rectangle of zero extent contains nothing, edges are inclusive. *)
Definition contains (r : t) (p : QPointF.t) : bool :=
  let l := if Qlt_le_dec (width r) 0 then x r + width r else x r in
  let rr := if Qlt_le_dec (width r) 0 then x r else x r + width r in
  if qeqb l rr then false
  else if qlt (QPointF.x p) l || qgt (QPointF.x p) rr then false
  else
    let tt := if Qlt_le_dec (height r) 0 then y r + height r else y r in
    let b := if Qlt_le_dec (height r) 0 then y r else y r + height r in
    if qeqb tt b then false
    else if qlt (QPointF.y p) tt || qgt (QPointF.y p) b then false
    else true.

(** [normalized]: flips a negative width or height. *)
Definition normalized (r : t) : t :=
  let (x1, w1) := if Qlt_le_dec (width r) 0 then (x r + width r, - width r)
                  else (x r, width r) in
  let (y1, h1) := if Qlt_le_dec (height r) 0 then (y r + height r, - height r)
                  else (y r, height r) in
  mk x1 y1 w1 h1.

Definition setRect (_ : t) (ax ay aw ah : Q) : t := mk ax ay aw ah.
Definition setLeft (r : t) (pos : Q) : t :=
  mk pos (y r) (width r - (pos - x r)) (height r).
Definition setTop (r : t) (pos : Q) : t :=
  mk (x r) pos (width r) (height r - (pos - y r)).
Definition setRight (r : t) (pos : Q) : t := mk (x r) (y r) (pos - x r) (height r).
Definition setBottom (r : t) (pos : Q) : t := mk (x r) (y r) (width r) (pos - y r).
Definition setWidth (r : t) (aw : Q) : t := mk (x r) (y r) aw (height r).
Definition setHeight (r : t) (ah : Q) : t := mk (x r) (y r) (width r) ah.
Definition moveLeft (r : t) (pos : Q) : t := mk pos (y r) (width r) (height r).
Definition moveTop (r : t) (pos : Q) : t := mk (x r) pos (width r) (height r).
Definition moveTo (r : t) (p : QPointF.t) : t :=
  mk (QPointF.x p) (QPointF.y p) (width r) (height r).

(** Coordinate-wise equality of rectangles. *)
Definition eq (a b : t) : Prop :=
  x a == x b /\ y a == y b /\ width a == width b /\ height a == height b.

(** Conversion [QRectF(const QRect &)]. *)
Definition of_rect (r : QRect.t) : t :=
  mk (inject_Z (QRect.x r)) (inject_Z (QRect.y r))
     (inject_Z (QRect.width r)) (inject_Z (QRect.height r)).

(** [intersected] ([operator&]): both rectangles are normalised on the
    fly; a rectangle of zero extent, or rectangles that do not overlap,
    give the null rectangle. *)
Definition intersected (a b : t) : t :=
  let l1 := if Qlt_le_dec (width a) 0 then x a + width a else x a in
  let r1 := if Qlt_le_dec (width a) 0 then x a else x a + width a in
  if qeqb l1 r1 then null
  else
    let l2 := if Qlt_le_dec (width b) 0 then x b + width b else x b in
    let r2 := if Qlt_le_dec (width b) 0 then x b else x b + width b in
    if qeqb l2 r2 then null
    else if qge l1 r2 || qge l2 r1 then null
    else
      let t1 := if Qlt_le_dec (height a) 0 then y a + height a else y a in
      let b1 := if Qlt_le_dec (height a) 0 then y a else y a + height a in
      if qeqb t1 b1 then null
      else
        let t2 := if Qlt_le_dec (height b) 0 then y b + height b else y b in
        let b2 := if Qlt_le_dec (height b) 0 then y b else y b + height b in
        if qeqb t2 b2 then null
        else if qge t1 b2 || qge t2 b1 then null
        else
          let xr := qMax l1 l2 in
          let yr := qMax t1 t2 in
          mk xr yr (qMin r1 r2 - xr) (qMin b1 b2 - yr).

End QRectF.

Module QLineF.
Record t := mk { p1 : QPointF.t; p2 : QPointF.t }.
Definition setP1 (l : t) (p : QPointF.t) : t := mk p (p2 l).
Definition setP2 (l : t) (p : QPointF.t) : t := mk (p1 l) p.
End QLineF.

(** ** Enumerations of the widget *)

(** [QuickEditor::MouseState]: where the pointer is relative to the
    selection; also the tag of the interaction mode of a drag.  The
    enumerators are those [QuickEditor.cpp] uses ([None] is [MS_None]
    here); the combined masks serve the cursor shape only. *)
Inductive MouseState :=
| MS_None | Inside | Outside
| TopLeft | Top | TopRight | Right | BottomRight | Bottom | BottomLeft | Left.

(** [QuickEditor::EditToolState]. *)
Inductive EditToolState := NoEdit | DrawLine | DrawArrow | DrawRect | DrawCircle | DrawText.

Definition EditToolState_eqb (a b : EditToolState) : bool :=
  match a, b with
  | NoEdit, NoEdit | DrawLine, DrawLine | DrawArrow, DrawArrow
  | DrawRect, DrawRect | DrawCircle, DrawCircle | DrawText, DrawText => true
  | _, _ => false
  end.

Inductive MouseButton := LeftButton | RightButton | MiddleButton | NoButton.

Inductive Key :=
| Key_Escape | Key_Return | Key_Enter | Key_Up | Key_Right | Key_Down | Key_Left | Key_Other.

(** [QKeyEvent]: the key and the two modifiers the editor looks at. *)
Record QKeyEvent := { key : Key; shiftModifier : bool; altModifier : bool }.

(** [QMouseEvent]: integer widget position, the button that caused the
    event and whether the left button is among [buttons()]. *)
Record QMouseEvent := { pos : QPoint.t; button : MouseButton; leftHeld : bool }.

(** A raster: dimensions and pixel bytes. *)
Record QPixmap := { pix_width : Z; pix_height : Z; pix_bits : list Byte.byte }.

Definition QColor := Z.

(** Signals of the widget.  [GrabDone p r] stands for
    [grabDone(p.copy(r))]: the working raster cropped to [r]. *)
Inductive Signal :=
| GrabDone (p : QPixmap) (r : QRect.t)
| GrabCancelled.

(** ** Widget state *)

Record QuickEditor := {
  devicePixelRatioF : Q;
  dprI : Q;
  width : Z;
  height : Z;
  mSelection : QRectF.t;
  mStartPos : QPointF.t;
  mInitialTopLeft : QPointF.t;
  mMousePos : QPointF.t;
  mMouseDragState : MouseState;
  mEditToolState : EditToolState;
  mPixmap : QPixmap;
  history : list QPixmap;
  mLine : QLineF.t;
  mRect : QRectF.t;
  mLineWidth : Z;
  mPenColor : QColor;
  mEditBoxText : string;
  mMagnifierAllowed : bool;
  mShowMagnifier : bool;
  mToggleMagnifier : bool;
  mReleaseToCapture : bool;
  mDisableArrowKeys : bool;
  cropRegion : QRect.t;
  emitted : list Signal;
  timers : list (Z * EditToolState)
}.

(** [history] is the [QStack<QPixmap>]: the head of the list is the top of
    the stack (the most recent snapshot), its last element the bottom.
    [timers] holds the pending single-shot callbacks, oldest first, each
    with its delay in milliseconds and the tool state its closure captured. *)

Definition set_mSelection (v : QRectF.t) (s : QuickEditor) : QuickEditor :=
  {| devicePixelRatioF := devicePixelRatioF s; dprI := dprI s; width := width s; height
     := height s; mSelection := v; mStartPos := mStartPos s; mInitialTopLeft :=
     mInitialTopLeft s; mMousePos := mMousePos s; mMouseDragState := mMouseDragState s;
     mEditToolState := mEditToolState s; mPixmap := mPixmap s; history := history s;
     mLine := mLine s; mRect := mRect s; mLineWidth := mLineWidth s; mPenColor :=
     mPenColor s; mEditBoxText := mEditBoxText s; mMagnifierAllowed := mMagnifierAllowed
     s; mShowMagnifier := mShowMagnifier s; mToggleMagnifier := mToggleMagnifier s;
     mReleaseToCapture := mReleaseToCapture s; mDisableArrowKeys := mDisableArrowKeys s;
     cropRegion := cropRegion s; emitted := emitted s; timers := timers s |}.

Definition set_mStartPos (v : QPointF.t) (s : QuickEditor) : QuickEditor :=
  {| devicePixelRatioF := devicePixelRatioF s; dprI := dprI s; width := width s; height
     := height s; mSelection := mSelection s; mStartPos := v; mInitialTopLeft :=
     mInitialTopLeft s; mMousePos := mMousePos s; mMouseDragState := mMouseDragState s;
     mEditToolState := mEditToolState s; mPixmap := mPixmap s; history := history s;
     mLine := mLine s; mRect := mRect s; mLineWidth := mLineWidth s; mPenColor :=
     mPenColor s; mEditBoxText := mEditBoxText s; mMagnifierAllowed := mMagnifierAllowed
     s; mShowMagnifier := mShowMagnifier s; mToggleMagnifier := mToggleMagnifier s;
     mReleaseToCapture := mReleaseToCapture s; mDisableArrowKeys := mDisableArrowKeys s;
     cropRegion := cropRegion s; emitted := emitted s; timers := timers s |}.

Definition set_mInitialTopLeft (v : QPointF.t) (s : QuickEditor) : QuickEditor :=
  {| devicePixelRatioF := devicePixelRatioF s; dprI := dprI s; width := width s; height
     := height s; mSelection := mSelection s; mStartPos := mStartPos s; mInitialTopLeft
     := v; mMousePos := mMousePos s; mMouseDragState := mMouseDragState s;
     mEditToolState := mEditToolState s; mPixmap := mPixmap s; history := history s;
     mLine := mLine s; mRect := mRect s; mLineWidth := mLineWidth s; mPenColor :=
     mPenColor s; mEditBoxText := mEditBoxText s; mMagnifierAllowed := mMagnifierAllowed
     s; mShowMagnifier := mShowMagnifier s; mToggleMagnifier := mToggleMagnifier s;
     mReleaseToCapture := mReleaseToCapture s; mDisableArrowKeys := mDisableArrowKeys s;
     cropRegion := cropRegion s; emitted := emitted s; timers := timers s |}.

Definition set_mMousePos (v : QPointF.t) (s : QuickEditor) : QuickEditor :=
  {| devicePixelRatioF := devicePixelRatioF s; dprI := dprI s; width := width s; height
     := height s; mSelection := mSelection s; mStartPos := mStartPos s; mInitialTopLeft
     := mInitialTopLeft s; mMousePos := v; mMouseDragState := mMouseDragState s;
     mEditToolState := mEditToolState s; mPixmap := mPixmap s; history := history s;
     mLine := mLine s; mRect := mRect s; mLineWidth := mLineWidth s; mPenColor :=
     mPenColor s; mEditBoxText := mEditBoxText s; mMagnifierAllowed := mMagnifierAllowed
     s; mShowMagnifier := mShowMagnifier s; mToggleMagnifier := mToggleMagnifier s;
     mReleaseToCapture := mReleaseToCapture s; mDisableArrowKeys := mDisableArrowKeys s;
     cropRegion := cropRegion s; emitted := emitted s; timers := timers s |}.

Definition set_mMouseDragState (v : MouseState) (s : QuickEditor) : QuickEditor :=
  {| devicePixelRatioF := devicePixelRatioF s; dprI := dprI s; width := width s; height
     := height s; mSelection := mSelection s; mStartPos := mStartPos s; mInitialTopLeft
     := mInitialTopLeft s; mMousePos := mMousePos s; mMouseDragState := v;
     mEditToolState := mEditToolState s; mPixmap := mPixmap s; history := history s;
     mLine := mLine s; mRect := mRect s; mLineWidth := mLineWidth s; mPenColor :=
     mPenColor s; mEditBoxText := mEditBoxText s; mMagnifierAllowed := mMagnifierAllowed
     s; mShowMagnifier := mShowMagnifier s; mToggleMagnifier := mToggleMagnifier s;
     mReleaseToCapture := mReleaseToCapture s; mDisableArrowKeys := mDisableArrowKeys s;
     cropRegion := cropRegion s; emitted := emitted s; timers := timers s |}.

Definition set_mEditToolState (v : EditToolState) (s : QuickEditor) : QuickEditor :=
  {| devicePixelRatioF := devicePixelRatioF s; dprI := dprI s; width := width s; height
     := height s; mSelection := mSelection s; mStartPos := mStartPos s; mInitialTopLeft
     := mInitialTopLeft s; mMousePos := mMousePos s; mMouseDragState := mMouseDragState
     s; mEditToolState := v; mPixmap := mPixmap s; history := history s; mLine := mLine
     s; mRect := mRect s; mLineWidth := mLineWidth s; mPenColor := mPenColor s;
     mEditBoxText := mEditBoxText s; mMagnifierAllowed := mMagnifierAllowed s;
     mShowMagnifier := mShowMagnifier s; mToggleMagnifier := mToggleMagnifier s;
     mReleaseToCapture := mReleaseToCapture s; mDisableArrowKeys := mDisableArrowKeys s;
     cropRegion := cropRegion s; emitted := emitted s; timers := timers s |}.

Definition set_mPixmap (v : QPixmap) (s : QuickEditor) : QuickEditor :=
  {| devicePixelRatioF := devicePixelRatioF s; dprI := dprI s; width := width s; height
     := height s; mSelection := mSelection s; mStartPos := mStartPos s; mInitialTopLeft
     := mInitialTopLeft s; mMousePos := mMousePos s; mMouseDragState := mMouseDragState
     s; mEditToolState := mEditToolState s; mPixmap := v; history := history s; mLine :=
     mLine s; mRect := mRect s; mLineWidth := mLineWidth s; mPenColor := mPenColor s;
     mEditBoxText := mEditBoxText s; mMagnifierAllowed := mMagnifierAllowed s;
     mShowMagnifier := mShowMagnifier s; mToggleMagnifier := mToggleMagnifier s;
     mReleaseToCapture := mReleaseToCapture s; mDisableArrowKeys := mDisableArrowKeys s;
     cropRegion := cropRegion s; emitted := emitted s; timers := timers s |}.

Definition set_history (v : list QPixmap) (s : QuickEditor) : QuickEditor :=
  {| devicePixelRatioF := devicePixelRatioF s; dprI := dprI s; width := width s; height
     := height s; mSelection := mSelection s; mStartPos := mStartPos s; mInitialTopLeft
     := mInitialTopLeft s; mMousePos := mMousePos s; mMouseDragState := mMouseDragState
     s; mEditToolState := mEditToolState s; mPixmap := mPixmap s; history := v; mLine :=
     mLine s; mRect := mRect s; mLineWidth := mLineWidth s; mPenColor := mPenColor s;
     mEditBoxText := mEditBoxText s; mMagnifierAllowed := mMagnifierAllowed s;
     mShowMagnifier := mShowMagnifier s; mToggleMagnifier := mToggleMagnifier s;
     mReleaseToCapture := mReleaseToCapture s; mDisableArrowKeys := mDisableArrowKeys s;
     cropRegion := cropRegion s; emitted := emitted s; timers := timers s |}.

Definition set_mLine (v : QLineF.t) (s : QuickEditor) : QuickEditor :=
  {| devicePixelRatioF := devicePixelRatioF s; dprI := dprI s; width := width s; height
     := height s; mSelection := mSelection s; mStartPos := mStartPos s; mInitialTopLeft
     := mInitialTopLeft s; mMousePos := mMousePos s; mMouseDragState := mMouseDragState
     s; mEditToolState := mEditToolState s; mPixmap := mPixmap s; history := history s;
     mLine := v; mRect := mRect s; mLineWidth := mLineWidth s; mPenColor := mPenColor s;
     mEditBoxText := mEditBoxText s; mMagnifierAllowed := mMagnifierAllowed s;
     mShowMagnifier := mShowMagnifier s; mToggleMagnifier := mToggleMagnifier s;
     mReleaseToCapture := mReleaseToCapture s; mDisableArrowKeys := mDisableArrowKeys s;
     cropRegion := cropRegion s; emitted := emitted s; timers := timers s |}.

Definition set_mRect (v : QRectF.t) (s : QuickEditor) : QuickEditor :=
  {| devicePixelRatioF := devicePixelRatioF s; dprI := dprI s; width := width s; height
     := height s; mSelection := mSelection s; mStartPos := mStartPos s; mInitialTopLeft
     := mInitialTopLeft s; mMousePos := mMousePos s; mMouseDragState := mMouseDragState
     s; mEditToolState := mEditToolState s; mPixmap := mPixmap s; history := history s;
     mLine := mLine s; mRect := v; mLineWidth := mLineWidth s; mPenColor := mPenColor s;
     mEditBoxText := mEditBoxText s; mMagnifierAllowed := mMagnifierAllowed s;
     mShowMagnifier := mShowMagnifier s; mToggleMagnifier := mToggleMagnifier s;
     mReleaseToCapture := mReleaseToCapture s; mDisableArrowKeys := mDisableArrowKeys s;
     cropRegion := cropRegion s; emitted := emitted s; timers := timers s |}.

Definition set_mLineWidth (v : Z) (s : QuickEditor) : QuickEditor :=
  {| devicePixelRatioF := devicePixelRatioF s; dprI := dprI s; width := width s; height
     := height s; mSelection := mSelection s; mStartPos := mStartPos s; mInitialTopLeft
     := mInitialTopLeft s; mMousePos := mMousePos s; mMouseDragState := mMouseDragState
     s; mEditToolState := mEditToolState s; mPixmap := mPixmap s; history := history s;
     mLine := mLine s; mRect := mRect s; mLineWidth := v; mPenColor := mPenColor s;
     mEditBoxText := mEditBoxText s; mMagnifierAllowed := mMagnifierAllowed s;
     mShowMagnifier := mShowMagnifier s; mToggleMagnifier := mToggleMagnifier s;
     mReleaseToCapture := mReleaseToCapture s; mDisableArrowKeys := mDisableArrowKeys s;
     cropRegion := cropRegion s; emitted := emitted s; timers := timers s |}.

Definition set_mPenColor (v : QColor) (s : QuickEditor) : QuickEditor :=
  {| devicePixelRatioF := devicePixelRatioF s; dprI := dprI s; width := width s; height
     := height s; mSelection := mSelection s; mStartPos := mStartPos s; mInitialTopLeft
     := mInitialTopLeft s; mMousePos := mMousePos s; mMouseDragState := mMouseDragState
     s; mEditToolState := mEditToolState s; mPixmap := mPixmap s; history := history s;
     mLine := mLine s; mRect := mRect s; mLineWidth := mLineWidth s; mPenColor := v;
     mEditBoxText := mEditBoxText s; mMagnifierAllowed := mMagnifierAllowed s;
     mShowMagnifier := mShowMagnifier s; mToggleMagnifier := mToggleMagnifier s;
     mReleaseToCapture := mReleaseToCapture s; mDisableArrowKeys := mDisableArrowKeys s;
     cropRegion := cropRegion s; emitted := emitted s; timers := timers s |}.

Definition set_mMagnifierAllowed (v : bool) (s : QuickEditor) : QuickEditor :=
  {| devicePixelRatioF := devicePixelRatioF s; dprI := dprI s; width := width s; height
     := height s; mSelection := mSelection s; mStartPos := mStartPos s; mInitialTopLeft
     := mInitialTopLeft s; mMousePos := mMousePos s; mMouseDragState := mMouseDragState
     s; mEditToolState := mEditToolState s; mPixmap := mPixmap s; history := history s;
     mLine := mLine s; mRect := mRect s; mLineWidth := mLineWidth s; mPenColor :=
     mPenColor s; mEditBoxText := mEditBoxText s; mMagnifierAllowed := v; mShowMagnifier
     := mShowMagnifier s; mToggleMagnifier := mToggleMagnifier s; mReleaseToCapture :=
     mReleaseToCapture s; mDisableArrowKeys := mDisableArrowKeys s; cropRegion :=
     cropRegion s; emitted := emitted s; timers := timers s |}.

Definition set_mToggleMagnifier (v : bool) (s : QuickEditor) : QuickEditor :=
  {| devicePixelRatioF := devicePixelRatioF s; dprI := dprI s; width := width s; height
     := height s; mSelection := mSelection s; mStartPos := mStartPos s; mInitialTopLeft
     := mInitialTopLeft s; mMousePos := mMousePos s; mMouseDragState := mMouseDragState
     s; mEditToolState := mEditToolState s; mPixmap := mPixmap s; history := history s;
     mLine := mLine s; mRect := mRect s; mLineWidth := mLineWidth s; mPenColor :=
     mPenColor s; mEditBoxText := mEditBoxText s; mMagnifierAllowed := mMagnifierAllowed
     s; mShowMagnifier := mShowMagnifier s; mToggleMagnifier := v; mReleaseToCapture :=
     mReleaseToCapture s; mDisableArrowKeys := mDisableArrowKeys s; cropRegion :=
     cropRegion s; emitted := emitted s; timers := timers s |}.

Definition set_mDisableArrowKeys (v : bool) (s : QuickEditor) : QuickEditor :=
  {| devicePixelRatioF := devicePixelRatioF s; dprI := dprI s; width := width s; height
     := height s; mSelection := mSelection s; mStartPos := mStartPos s; mInitialTopLeft
     := mInitialTopLeft s; mMousePos := mMousePos s; mMouseDragState := mMouseDragState
     s; mEditToolState := mEditToolState s; mPixmap := mPixmap s; history := history s;
     mLine := mLine s; mRect := mRect s; mLineWidth := mLineWidth s; mPenColor :=
     mPenColor s; mEditBoxText := mEditBoxText s; mMagnifierAllowed := mMagnifierAllowed
     s; mShowMagnifier := mShowMagnifier s; mToggleMagnifier := mToggleMagnifier s;
     mReleaseToCapture := mReleaseToCapture s; mDisableArrowKeys := v; cropRegion :=
     cropRegion s; emitted := emitted s; timers := timers s |}.

Definition set_cropRegion (v : QRect.t) (s : QuickEditor) : QuickEditor :=
  {| devicePixelRatioF := devicePixelRatioF s; dprI := dprI s; width := width s; height
     := height s; mSelection := mSelection s; mStartPos := mStartPos s; mInitialTopLeft
     := mInitialTopLeft s; mMousePos := mMousePos s; mMouseDragState := mMouseDragState
     s; mEditToolState := mEditToolState s; mPixmap := mPixmap s; history := history s;
     mLine := mLine s; mRect := mRect s; mLineWidth := mLineWidth s; mPenColor :=
     mPenColor s; mEditBoxText := mEditBoxText s; mMagnifierAllowed := mMagnifierAllowed
     s; mShowMagnifier := mShowMagnifier s; mToggleMagnifier := mToggleMagnifier s;
     mReleaseToCapture := mReleaseToCapture s; mDisableArrowKeys := mDisableArrowKeys s;
     cropRegion := v; emitted := emitted s; timers := timers s |}.

Definition set_emitted (v : list Signal) (s : QuickEditor) : QuickEditor :=
  {| devicePixelRatioF := devicePixelRatioF s; dprI := dprI s; width := width s; height
     := height s; mSelection := mSelection s; mStartPos := mStartPos s; mInitialTopLeft
     := mInitialTopLeft s; mMousePos := mMousePos s; mMouseDragState := mMouseDragState
     s; mEditToolState := mEditToolState s; mPixmap := mPixmap s; history := history s;
     mLine := mLine s; mRect := mRect s; mLineWidth := mLineWidth s; mPenColor :=
     mPenColor s; mEditBoxText := mEditBoxText s; mMagnifierAllowed := mMagnifierAllowed
     s; mShowMagnifier := mShowMagnifier s; mToggleMagnifier := mToggleMagnifier s;
     mReleaseToCapture := mReleaseToCapture s; mDisableArrowKeys := mDisableArrowKeys s;
     cropRegion := cropRegion s; emitted := v; timers := timers s |}.

Definition set_timers (v : list (Z * EditToolState)) (s : QuickEditor) : QuickEditor :=
  {| devicePixelRatioF := devicePixelRatioF s; dprI := dprI s; width := width s; height
     := height s; mSelection := mSelection s; mStartPos := mStartPos s; mInitialTopLeft
     := mInitialTopLeft s; mMousePos := mMousePos s; mMouseDragState := mMouseDragState
     s; mEditToolState := mEditToolState s; mPixmap := mPixmap s; history := history s;
     mLine := mLine s; mRect := mRect s; mLineWidth := mLineWidth s; mPenColor :=
     mPenColor s; mEditBoxText := mEditBoxText s; mMagnifierAllowed := mMagnifierAllowed
     s; mShowMagnifier := mShowMagnifier s; mToggleMagnifier := mToggleMagnifier s;
     mReleaseToCapture := mReleaseToCapture s; mDisableArrowKeys := mDisableArrowKeys s;
     cropRegion := cropRegion s; emitted := emitted s; timers := v |}.

(** ** Constants *)

Definition mouseAreaSize : Q := 20.
Definition magnifierLargeStep : Z := 15.
Definition magZoom : Z := 5.
Definition magPixels : Z := 16.
Definition magOffset : Z := 32.

(** Delay of the single-shot timer started by [undo], in milliseconds. *)
Definition undoRearmDelay : Z := 200.

(** ** Geometry / bounds utility *)

(** The four [bounds*] methods return the clamped coordinate; with
    [mouse = true] they also shift [mStartPos] by the overflow.  The upper
    bounds [realMaxX] and [realMaxY] are a [qRound] of a product with the
    device pixel ratio: a whole number at an integral ratio when the
    selection sits on device pixels, possibly a tie at a fractional ratio,
    where the rational computed here and the double of the code can round
    to neighbouring pixels. *)

Definition boundsLeft (newTopLeftX : Z) (mouse : bool) (s : QuickEditor) : Z * QuickEditor :=
  if (newTopLeftX <? 0)%Z then
    (0%Z,
     if mouse
     then set_mStartPos
            (QPointF.mk (QPointF.x (mStartPos s) + inject_Z newTopLeftX * dprI s)
                        (QPointF.y (mStartPos s))) s
     else s)
  else (newTopLeftX, s).

Definition boundsRight (newTopLeftX : Z) (mouse : bool) (s : QuickEditor) : Z * QuickEditor :=
  let realMaxX :=
    qRound ((inject_Z (width s) - QRectF.width (mSelection s)) * devicePixelRatioF s) in
  let xOffset := (newTopLeftX - realMaxX)%Z in
  if (xOffset >? 0)%Z then
    (realMaxX,
     if mouse
     then set_mStartPos
            (QPointF.mk (QPointF.x (mStartPos s) + inject_Z xOffset * dprI s)
                        (QPointF.y (mStartPos s))) s
     else s)
  else (newTopLeftX, s).

Definition boundsUp (newTopLeftY : Z) (mouse : bool) (s : QuickEditor) : Z * QuickEditor :=
  if (newTopLeftY <? 0)%Z then
    (0%Z,
     if mouse
     then set_mStartPos
            (QPointF.mk (QPointF.x (mStartPos s))
                        (QPointF.y (mStartPos s) + inject_Z newTopLeftY * dprI s)) s
     else s)
  else (newTopLeftY, s).

Definition boundsDown (newTopLeftY : Z) (mouse : bool) (s : QuickEditor) : Z * QuickEditor :=
  let realMaxY :=
    qRound ((inject_Z (height s) - QRectF.height (mSelection s)) * devicePixelRatioF s) in
  let yOffset := (newTopLeftY - realMaxY)%Z in
  if (yOffset >? 0)%Z then
    (realMaxY,
     if mouse
     then set_mStartPos
            (QPointF.mk (QPointF.x (mStartPos s))
                        (QPointF.y (mStartPos s) + inject_Z yOffset * dprI s)) s
     else s)
  else (newTopLeftY, s).

(** ** Hit-test classifier *)

(** The lambda [withinThreshold] of [mouseLocation]. *)
Definition withinThreshold (offset size : Q) : bool := qle offset size && qge offset 0.

Definition verSize (sel : QRectF.t) : Q := qMin mouseAreaSize (QRectF.height sel / 2).
Definition horSize (sel : QRectF.t) : Q := qMin mouseAreaSize (QRectF.width sel / 2).

Definition mouseLocation (sel : QRectF.t) (p : QPointF.t) : MouseState :=
  if QRectF.contains sel p then
    let withinTopEdge := withinThreshold (QPointF.y p - QRectF.top sel) (verSize sel) in
    let withinRightEdge := withinThreshold (QRectF.right sel - QPointF.x p) (horSize sel) in
    let withinBottomEdge :=
      negb withinTopEdge && withinThreshold (QRectF.bottom sel - QPointF.y p) (verSize sel) in
    let withinLeftEdge :=
      negb withinRightEdge && withinThreshold (QPointF.x p - QRectF.left sel) (horSize sel) in
    if withinTopEdge then
      if withinRightEdge then TopRight
      else if withinLeftEdge then TopLeft
      else Top
    else if withinBottomEdge then
      if withinRightEdge then BottomRight
      else if withinLeftEdge then BottomLeft
      else Bottom
    else if withinRightEdge then Right
    else if withinLeftEdge then Left
    else Inside
  else Outside.

(** ** Completion *)

Definition emit (sig : Signal) (s : QuickEditor) : QuickEditor :=
  set_emitted (emitted s ++ [sig]) s.

Definition acceptSelection (s : QuickEditor) : QuickEditor :=
  if negb (QRectF.isEmpty (mSelection s)) then
    let dpr := devicePixelRatioF s in
    let scaledCropRegion :=
      QRect.mk (qRound (QRectF.x (mSelection s) * dpr))
               (qRound (QRectF.y (mSelection s) * dpr))
               (qRound (QRectF.width (mSelection s) * dpr))
               (qRound (QRectF.height (mSelection s) * dpr)) in
    emit (GrabDone (mPixmap s) scaledCropRegion) (set_cropRegion scaledCropRegion s)
  else s.

(** ** Keyboard *)

(** [keyPressEvent] scales an edge to device pixels, steps, clamps, and
    scales back with [dprI].  In rationals [dprI * dpr] is 1; in doubles
    it is 1 exactly when the ratio is a power of two, and the edge that
    comes back is otherwise off by a rounding error (about 1e-15 per step
    at ratio 3), too small for [qRound] but not for a comparison of a
    width with zero. *)

Definition keyStep (shiftPressed : bool) : Q :=
  if shiftPressed then 1 else inject_Z magnifierLargeStep.

Definition keyPressEvent (event : QKeyEvent) (s0 : QuickEditor) : QuickEditor :=
  let shiftPressed := shiftModifier event in
  let s := if shiftPressed then set_mToggleMagnifier true s0 else s0 in
  let sel := mSelection s in
  let dpr := devicePixelRatioF s in
  match key event with
  | Key_Escape => emit GrabCancelled s
  | Key_Return | Key_Enter => acceptSelection s
  | Key_Up =>
      if mDisableArrowKeys s then s
      else
        let step := keyStep shiftPressed in
        let (newPos, s1) := boundsUp (qRound (QRectF.top sel * dpr - step)) false s in
        if altModifier event then
          set_mSelection
            (QRectF.normalized
               (QRectF.setBottom sel (dprI s * inject_Z newPos + QRectF.height sel))) s1
        else set_mSelection (QRectF.moveTop sel (dprI s * inject_Z newPos)) s1
  | Key_Right =>
      if mDisableArrowKeys s then s
      else
        let step := keyStep shiftPressed in
        let (newPos, s1) := boundsRight (qRound (QRectF.left sel * dpr + step)) false s in
        if altModifier event then
          set_mSelection (QRectF.setRight sel (dprI s * inject_Z newPos + QRectF.width sel)) s1
        else set_mSelection (QRectF.moveLeft sel (dprI s * inject_Z newPos)) s1
  | Key_Down =>
      if mDisableArrowKeys s then s
      else
        let step := keyStep shiftPressed in
        let (newPos, s1) := boundsDown (qRound (QRectF.top sel * dpr + step)) false s in
        if altModifier event then
          set_mSelection (QRectF.setBottom sel (dprI s * inject_Z newPos + QRectF.height sel)) s1
        else set_mSelection (QRectF.moveTop sel (dprI s * inject_Z newPos)) s1
  | Key_Left =>
      if mDisableArrowKeys s then s
      else
        let step := keyStep shiftPressed in
        let (newPos, s1) := boundsLeft (qRound (QRectF.left sel * dpr - step)) false s in
        if altModifier event then
          set_mSelection
            (QRectF.normalized
               (QRectF.setRight sel (dprI s * inject_Z newPos + QRectF.width sel))) s1
        else set_mSelection (QRectF.moveLeft sel (dprI s * inject_Z newPos)) s1
  | Key_Other => s
  end.

Definition keyReleaseEvent (event : QKeyEvent) (s : QuickEditor) : QuickEditor :=
  if mToggleMagnifier s && negb (shiftModifier event)
  then set_mToggleMagnifier false s
  else s.

(** ** Pointer events, annotation engine, undo *)

Section Handlers.

(** [drawElements(painter, effect)] with a painter opened on a raster:
    the rasterisation of the pending shape by [QPainter], a function of
    the tool, the pending line and rectangle, the pen and the text. *)
Variable drawElements :
  bool -> EditToolState -> QLineF.t -> QRectF.t -> Z -> QColor -> string ->
  QPixmap -> QPixmap.

Definition mousePressEvent (event : QMouseEvent) (s : QuickEditor) : QuickEditor :=
  if negb (EditToolState_eqb (mEditToolState s) NoEdit) then
    let p := QPointF.of_point (pos event) in
    let s1 :=
      match mEditToolState s with
      | DrawLine | DrawArrow =>
          set_mLine (QLineF.setP2 (QLineF.setP1 (mLine s) p) p) s
      | _ =>
          set_mRect (QRectF.setTop (QRectF.setLeft (mRect s) (QPointF.x p)) (QPointF.y p)) s
      end in
    set_mMouseDragState MS_None s1
  else
    match button event with
    | LeftButton =>
        let p := QPointF.of_point (pos event) in
        let s1 := set_mMousePos p s in
        let s2 := set_mMagnifierAllowed true s1 in
        let loc := mouseLocation (mSelection s2) p in
        let s3 := set_mMouseDragState loc s2 in
        let s4 := set_mDisableArrowKeys true s3 in
        match loc with
        | Outside => set_mStartPos p s4
        | Inside =>
            set_mInitialTopLeft (QRectF.topLeft (mSelection s4))
              (set_mMagnifierAllowed false (set_mStartPos p s4))
        | Top | Left | TopLeft => set_mStartPos (QRectF.bottomRight (mSelection s4)) s4
        | Bottom | Right | BottomRight => set_mStartPos (QRectF.topLeft (mSelection s4)) s4
        | TopRight => set_mStartPos (QRectF.bottomLeft (mSelection s4)) s4
        | BottomLeft => set_mStartPos (QRectF.topRight (mSelection s4)) s4
        | MS_None => s4
        end
    | _ => s
    end.

(** The first half of [mouseMoveEvent]: extension of the pending shape. *)
Definition moveShape (event : QMouseEvent) (s : QuickEditor) : QuickEditor :=
  let p := QPointF.of_point (pos event) in
  if leftHeld event then
    if negb (EditToolState_eqb (mEditToolState s) NoEdit) then
      match mEditToolState s with
      | DrawLine | DrawArrow => set_mLine (QLineF.setP2 (mLine s) p) s
      | DrawRect | DrawCircle =>
          set_mRect
            (QRectF.setBottom (QRectF.setRight (mRect s) (QPointF.x p)) (QPointF.y p)) s
      | _ => s
      end
    else s
  else
    if EditToolState_eqb (mEditToolState s) DrawText then
      set_mRect (QRectF.setTop (QRectF.setLeft (mRect s) (QPointF.x p)) (QPointF.y p)) s
    else s.

(** Modelled from the spec: the default value of the parameter [mouse] of
    the four bounds methods, declared in [QuickEditor.h], which is not
    among the sources.  The drag calls them with one argument and the spec
    has the anchor correction reported when the violation was caused by a
    drag, hence [true]. *)
Definition boundsMouseDefault : bool := true.

(** The [MouseState::Inside] case of the [switch] in [mouseMoveEvent]:
    translate the selection and clamp the new top-left corner, in device
    pixels, on each axis. *)
Definition dragSelection (p : QPointF.t) (s : QuickEditor) : QuickEditor :=
  let s1 := set_mMagnifierAllowed false s in
  let dpr := devicePixelRatioF s1 in
  let newTopLeft :=
    QPointF.toPoint
      (QPointF.scale
         (QPointF.add (QPointF.sub p (mStartPos s1)) (mInitialTopLeft s1)) dpr) in
  let (x1, s2) := boundsLeft (QPoint.x newTopLeft) boundsMouseDefault s1 in
  let (newTopLeftX, s3) :=
    if negb (x1 =? 0)%Z then boundsRight x1 boundsMouseDefault s2 else (x1, s2) in
  let (y1, s4) := boundsUp (QPoint.y newTopLeft) boundsMouseDefault s3 in
  let (newTopLeftY, s5) :=
    if negb (y1 =? 0)%Z then boundsDown y1 boundsMouseDefault s4 else (y1, s4) in
  let newTopLeftF :=
    QPointF.mk (inject_Z newTopLeftX * dprI s5) (inject_Z newTopLeftY * dprI s5) in
  set_mSelection (QRectF.moveTo (mSelection s5) newTopLeftF) s5.

(** The second half of [mouseMoveEvent]: the [switch] on the drag state. *)
Definition moveSelection (event : QMouseEvent) (s0 : QuickEditor) : QuickEditor :=
  let p := QPointF.of_point (pos event) in
  let s := set_mMagnifierAllowed true (set_mMousePos p s0) in
  let px := QPointF.x p in
  let py := QPointF.y p in
  let sx := QPointF.x (mStartPos s) in
  let sy := QPointF.y (mStartPos s) in
  let sel := mSelection s in
  match mMouseDragState s with
  | MS_None => set_mMagnifierAllowed false s
  | TopLeft | TopRight | BottomRight | BottomLeft =>
      let afterX := qge px sx in
      let afterY := qge py sy in
      set_mSelection
        (QRectF.setRect sel
           (if afterX then sx else px)
           (if afterY then sy else py)
           (qAbs (px - sx) + (if afterX then dprI s else 0))
           (qAbs (py - sy) + (if afterY then dprI s else 0))) s
  | Outside =>
      set_mSelection
        (QRectF.setRect sel
           (qMin px sx) (qMin py sy)
           (qAbs (px - sx) + dprI s) (qAbs (py - sy) + dprI s)) s
  | Top | Bottom =>
      let afterY := qge py sy in
      set_mSelection
        (QRectF.setRect sel
           (QRectF.x sel)
           (if afterY then sy else py)
           (QRectF.width sel)
           (qAbs (py - sy) + (if afterY then dprI s else 0))) s
  | Right | Left =>
      let afterX := qge px sx in
      set_mSelection
        (QRectF.setRect sel
           (if afterX then sx else px)
           (QRectF.y sel)
           (qAbs (px - sx) + (if afterX then dprI s else 0))
           (QRectF.height sel)) s
  | Inside => dragSelection p s
  end.

Definition mouseMoveEvent (event : QMouseEvent) (s : QuickEditor) : QuickEditor :=
  moveSelection event (moveShape event s).

(** The loop [while (!history->isEmpty()) mPixmap = history->pop();]. *)
Fixpoint popAll (pix : QPixmap) (h : list QPixmap) : QPixmap :=
  match h with
  | [] => pix
  | top :: rest => popAll top rest
  end.

Definition mouseReleaseEvent (event : QMouseEvent) (s : QuickEditor) : QuickEditor :=
  let s' :=
    match button event with
    | LeftButton =>
        if negb (EditToolState_eqb (mEditToolState s) NoEdit) then
          let p := QPointF.of_point (pos event) in
          let s1 :=
            match mEditToolState s with
            | DrawLine => set_mLine (QLineF.setP2 (mLine s) p) s
            | DrawRect =>
                set_mRect
                  (QRectF.setBottom (QRectF.setRight (mRect s) (QPointF.x p))
                     (QPointF.y p)) s
            | _ => s
            end in
          let s2 := set_history (mPixmap s1 :: history s1) s1 in
          set_mPixmap
            (drawElements true (mEditToolState s2) (mLine s2) (mRect s2)
               (mLineWidth s2) (mPenColor s2) (mEditBoxText s2) (mPixmap s2)) s2
        else
          let s1 := set_mDisableArrowKeys false s in
          match mMouseDragState s1 with
          | Inside => s1
          | Outside => if mReleaseToCapture s1 then acceptSelection s1 else s1
          | _ => s1
          end
    | RightButton =>
        let s1 :=
          set_mSelection (QRectF.setHeight (QRectF.setWidth (mSelection s) 0) 0) s in
        let s2 := set_history [] (set_mPixmap (popAll (mPixmap s1) (history s1)) s1) in
        set_mEditToolState NoEdit s2
    | _ => s
    end in
  set_mMouseDragState MS_None s'.

Definition mouseDoubleClickEvent (event : QMouseEvent) (s : QuickEditor) : QuickEditor :=
  match button event with
  | LeftButton =>
      if QRectF.contains (mSelection s) (QPointF.of_point (pos event))
      then acceptSelection s else s
  | _ => s
  end.

Definition toggleDrawState (status : EditToolState) (s : QuickEditor) : QuickEditor :=
  if EditToolState_eqb (mEditToolState s) status
  then set_mEditToolState NoEdit s
  else set_mEditToolState status s.

(** [undo]: disarm the tool, restore the top snapshot if there is one and
    schedule the re-arming closure. *)
Definition undo (s : QuickEditor) : QuickEditor :=
  let state := mEditToolState s in
  let s1 := set_mEditToolState NoEdit s in
  let s2 :=
    match history s1 with
    | top :: rest => set_history rest (set_mPixmap top s1)
    | [] => s1
    end in
  set_timers (timers s2 ++ [(undoRearmDelay, state)]) s2.

(** The event loop runs the oldest pending single-shot closure:
    [this->mEditToolState = state]. *)
Definition timerExpired (s : QuickEditor) : QuickEditor :=
  match timers s with
  | (_, state) :: rest => set_timers rest (set_mEditToolState state s)
  | [] => s
  end.

(** Inputs of the editor and their dispatch: the overridden event
    handlers, the tool-box buttons wired in [initGui] and the expiry of
    the re-arming timer. *)
Inductive Event :=
| KeyPress (e : QKeyEvent)
| KeyRelease (e : QKeyEvent)
| MousePress (e : QMouseEvent)
| MouseMove (e : QMouseEvent)
| MouseRelease (e : QMouseEvent)
| MouseDoubleClick (e : QMouseEvent)
| ToolClicked (status : EditToolState)
| UndoClicked
| CancelClicked
| OkClicked
| TimerExpired.

Definition handle (ev : Event) (s : QuickEditor) : QuickEditor :=
  match ev with
  | KeyPress e => keyPressEvent e s
  | KeyRelease e => keyReleaseEvent e s
  | MousePress e => mousePressEvent e s
  | MouseMove e => mouseMoveEvent e s
  | MouseRelease e => mouseReleaseEvent e s
  | MouseDoubleClick e => mouseDoubleClickEvent e s
  | ToolClicked status => toggleDrawState status s
  | UndoClicked => undo s
  | CancelClicked => emit GrabCancelled s
  | OkClicked => acceptSelection s
  | TimerExpired => timerExpired s
  end.

Definition run (evs : list Event) (s : QuickEditor) : QuickEditor :=
  fold_left (fun st ev => handle ev st) evs s.

End Handlers.

(** ** Magnifier renderer *)

(** The geometry computed by [drawMagnifier] before it paints. *)
Record Magnifier := {
  magniRect : QRectF.t;
  offsetX : Z;
  offsetY : Z;
  drawPos : QPointF.t;
  crossHairTop : QRectF.t;
  crossHairRight : QRectF.t;
  crossHairBottom : QRectF.t;
  crossHairLeft : QRectF.t;
  crossHairBorder : QRectF.t
}.

(** One axis of the sample region: the clamped start and the clamp offset. *)
Definition clampSample (mouse : Q) (dpr : Q) (extent : Z) : Z * Z :=
  let pixels := (2 * magPixels + 1)%Z in
  let mag := to_int (mouse * dpr - inject_Z magPixels) in
  if (mag <? 0)%Z then (0%Z, mag)
  else
    let maxv := (extent - pixels)%Z in
    if (mag >? maxv)%Z then (maxv, (mag - maxv)%Z) else (mag, 0%Z).

(** One axis of the placement of the zoomed block. *)
Definition placeMagnifier (mouse : Q) (extent : Z) : Q :=
  let pixels := (2 * magPixels + 1)%Z in
  let half := Z.quot (pixels * magZoom) 2 in
  let p := mouse + inject_Z magOffset + inject_Z half in
  if Qlt_le_dec (inject_Z (extent - half)) p
  then mouse - inject_Z magOffset - inject_Z half
  else p.

Definition drawMagnifier (s : QuickEditor) : Magnifier :=
  let pixels := (2 * magPixels + 1)%Z in
  let dpr := devicePixelRatioF s in
  let (magX, offX) := clampSample (QPointF.x (mMousePos s)) dpr (pix_width (mPixmap s)) in
  let (magY, offY) := clampSample (QPointF.y (mMousePos s)) dpr (pix_height (mPixmap s)) in
  let dx := placeMagnifier (QPointF.x (mMousePos s)) (width s) in
  let dy := placeMagnifier (QPointF.y (mMousePos s)) (height s) in
  let zoom := inject_Z magZoom in
  let mp := inject_Z magPixels in
  let ox := inject_Z offX in
  let oy := inject_Z offY in
  {| magniRect := QRectF.mk (inject_Z magX) (inject_Z magY) (inject_Z pixels) (inject_Z pixels);
     offsetX := offX;
     offsetY := offY;
     drawPos := QPointF.mk dx dy;
     crossHairTop :=
       QRectF.mk (dx + zoom * (ox - (1#2))) (dy - zoom * (mp + (1#2))) zoom (zoom * (mp + oy));
     crossHairRight :=
       QRectF.mk (dx + zoom * ((1#2) + ox)) (dy + zoom * (oy - (1#2))) (zoom * (mp - ox)) zoom;
     crossHairBottom :=
       QRectF.mk (dx + zoom * (ox - (1#2))) (dy + zoom * ((1#2) + oy)) zoom (zoom * (mp - oy));
     crossHairLeft :=
       QRectF.mk (dx - zoom * (mp + (1#2))) (dy + zoom * (oy - (1#2))) (zoom * (mp + ox)) zoom;
     crossHairBorder :=
       QRectF.mk (dx - zoom * (mp + (1#2)) - 1) (dy - zoom * (mp + (1#2)) - 1)
                 (inject_Z (pixels * magZoom + 2)) (inject_Z (pixels * magZoom + 2)) |}.

(** ** Construction and sample configurations *)

(** State left by the constructor when no remembered region is restored:
    the member initialisers, [dprI = 1.0 / devicePixelRatioF()] and
    [setGeometry(0, 0, int(pixmap.width() * dprI), int(pixmap.height() * dprI))]. *)
Definition construct (pixmap : QPixmap) (dpr : Q)
    (showMagnifierChecked useReleaseToCapture : bool) (savedRegion : QRect.t) : QuickEditor :=
  let inv := 1 / dpr in
  {| devicePixelRatioF := dpr;
     dprI := inv;
     width := to_int (inject_Z (pix_width pixmap) * inv);
     height := to_int (inject_Z (pix_height pixmap) * inv);
     mSelection := QRectF.null;
     mStartPos := QPointF.mk 0 0;
     mInitialTopLeft := QPointF.mk 0 0;
     mMousePos := QPointF.mk 0 0;
     mMouseDragState := MS_None;
     mEditToolState := NoEdit;
     mPixmap := pixmap;
     history := [];
     mLine := QLineF.mk (QPointF.mk 0 0) (QPointF.mk 0 0);
     mRect := QRectF.null;
     mLineWidth := 2%Z;
     mPenColor := 16711935%Z;
     mEditBoxText := EmptyString;
     mMagnifierAllowed := false;
     mShowMagnifier := showMagnifierChecked;
     mToggleMagnifier := false;
     mReleaseToCapture := useReleaseToCapture;
     mDisableArrowKeys := false;
     cropRegion := savedRegion;
     emitted := [];
     timers := [] |}.

(** A blank raster of the given size; the pixel bytes are kept short, the
    geometry only looks at the dimensions. *)
Definition blankPixmap (w h : Z) : QPixmap :=
  {| pix_width := w; pix_height := h; pix_bits := [Byte.x00; Byte.x00; Byte.x00; Byte.x00] |}.

(** A stand-in painter for concrete runs: whenever a tool is armed it
    inks the first pixel byte that is still blank. *)
Fixpoint inkFirstBlank (bits : list Byte.byte) : list Byte.byte :=
  match bits with
  | [] => []
  | b :: rest => if Byte.eqb b Byte.x00 then Byte.xff :: rest else b :: inkFirstBlank rest
  end.

Definition inkPainter (effect : bool) (tool : EditToolState) (l : QLineF.t) (r : QRectF.t)
    (lineWidth : Z) (color : QColor) (text : string) (p : QPixmap) : QPixmap :=
  match tool with
  | NoEdit => p
  | _ => {| pix_width := pix_width p; pix_height := pix_height p;
            pix_bits := inkFirstBlank (pix_bits p) |}
  end.

(** The editor over a 1000x800 canvas at device pixel ratio 1. *)
Definition editor1 : QuickEditor :=
  construct (blankPixmap 1000 800) 1 false false (QRect.mk 0 0 0 0).

(** The editor over a 2000x1600 canvas at device pixel ratio 2
    (a 1000x800 widget). *)
Definition editor2 : QuickEditor :=
  construct (blankPixmap 2000 1600) 2 false false (QRect.mk 0 0 0 0).

Definition leftPress (x y : Z) : QMouseEvent :=
  {| pos := QPoint.mk x y; button := LeftButton; leftHeld := true |}.
Definition leftDrag (x y : Z) : QMouseEvent :=
  {| pos := QPoint.mk x y; button := NoButton; leftHeld := true |}.
Definition leftRelease (x y : Z) : QMouseEvent :=
  {| pos := QPoint.mk x y; button := LeftButton; leftHeld := false |}.
Definition rightRelease (x y : Z) : QMouseEvent :=
  {| pos := QPoint.mk x y; button := RightButton; leftHeld := false |}.
Definition arrowKey (k : Key) (shift alt : bool) : QKeyEvent :=
  {| key := k; shiftModifier := shift; altModifier := alt |}.

(** * Specification vocabulary and sample runs *)

(** ** Hit-test classifier *)

(** The classifier as a function of the four edge tests. *)
Definition classify (withinTop withinRight withinBottom withinLeft : bool) : MouseState :=
  if withinTop then
    if withinRight then TopRight else if withinLeft then TopLeft else Top
  else if withinBottom then
    if withinRight then BottomRight else if withinLeft then BottomLeft else Bottom
  else if withinRight then Right
  else if withinLeft then Left
  else Inside.

(** Which classifications each of the four tolerance bands produces. *)
Definition topBand : list MouseState := [Top; TopLeft; TopRight].
Definition rightBand : list MouseState := [TopRight; Right; BottomRight].
Definition bottomBand : list MouseState := [Bottom; BottomLeft; BottomRight].
Definition leftBand : list MouseState := [TopLeft; Left; BottomLeft].

(** ** Undo stack *)

(** The raster the editor was opened on: the bottom of the undo stack, or
    the working raster itself while nothing has been committed. *)
Definition originalRaster (s : QuickEditor) : QPixmap := last (history s) (mPixmap s).

(** Two committed lines on the 1000x800 canvas. *)
Definition twoCommits : QuickEditor :=
  run inkPainter
    [ MousePress (leftPress 100 100); MouseMove (leftDrag 399 299);
      MouseRelease (leftRelease 399 299);
      ToolClicked DrawLine;
      MousePress (leftPress 120 120); MouseMove (leftDrag 200 150);
      MouseRelease (leftRelease 200 150);
      MousePress (leftPress 150 200); MouseMove (leftDrag 300 250);
      MouseRelease (leftRelease 300 250) ]
    editor1.

(** A selection on the 1000x800 canvas with the line tool armed and a line
    pending from (120,120) to (200,150). *)
Definition lineArmed : QuickEditor :=
  run inkPainter
    [ MousePress (leftPress 100 100); MouseMove (leftDrag 399 299);
      MouseRelease (leftRelease 399 299);
      ToolClicked DrawLine;
      MousePress (leftPress 120 120); MouseMove (leftDrag 200 150) ]
    editor1.

(** ** Bounds utility *)

(** [realMaxX] of [boundsRight]: the max X coordinate of the top left
    point, in device pixels. *)
Definition realMaxX (s : QuickEditor) : Z :=
  qRound ((inject_Z (width s) - QRectF.width (mSelection s)) * devicePixelRatioF s).

(** [realMaxY] of [boundsDown]. *)
Definition realMaxY (s : QuickEditor) : Z :=
  qRound ((inject_Z (height s) - QRectF.height (mSelection s)) * devicePixelRatioF s).

(** The clamp applied to one axis of a drag: the lower bound first, the
    upper bound only when the result is not zero. *)
Definition clampAxis (v realMax : Z) : Z :=
  let v1 := Z.max 0 v in
  if negb (v1 =? 0)%Z then Z.min v1 realMax else v1.

(** The device-pixel top-left corner requested by a drag to [p]. *)
Definition dragTarget (p : QPointF.t) (s : QuickEditor) : QPoint.t :=
  QPointF.toPoint
    (QPointF.scale (QPointF.add (QPointF.sub p (mStartPos s)) (mInitialTopLeft s))
       (devicePixelRatioF s)).

(** ** Frames of the handlers *)

(** The outputs and the raster state: emitted signals, persisted crop
    region, undo stack, working raster and pending timers. *)
Definition sameOutputs (s s' : QuickEditor) : Prop :=
  emitted s' = emitted s /\ cropRegion s' = cropRegion s /\
  history s' = history s /\ mPixmap s' = mPixmap s /\ timers s' = timers s.

(** The four arrow keys. *)
Definition isArrow (k : Key) : bool :=
  match k with
  | Key_Up | Key_Right | Key_Down | Key_Left => true
  | _ => false
  end.

(** Nothing was emitted and nothing persisted. *)
Definition quiet (s s' : QuickEditor) : Prop :=
  emitted s' = emitted s /\ cropRegion s' = cropRegion s.

(** The inputs that cancel the session: Escape and the Cancel button. *)
Definition isCancellation (ev : Event) : bool :=
  match ev with
  | KeyPress e => match key e with Key_Escape => true | _ => false end
  | CancelClicked => true
  | _ => false
  end.

(** Undo stack and working raster are untouched. *)
Definition sameRaster (s s' : QuickEditor) : Prop :=
  history s' = history s /\ mPixmap s' = mPixmap s.

(** ** Magnifier *)

(** The pointer has been dragged into the top-left corner of the
    1000x800 canvas. *)
Definition atCorner : QuickEditor :=
  run inkPainter [MousePress (leftPress 5 5); MouseMove (leftDrag 0 0)] editor1.

(** ** Keyboard nudging *)

(** The step of an arrow key in device pixels. *)
Definition stepZ (shiftPressed : bool) : Z := if shiftPressed then 1%Z else magnifierLargeStep.

(** The selection nudged by [d] logical pixels: moved, or with Alt resized
    on its bottom or right edge (and normalised where the edge can cross). *)
Definition nudged (k : Key) (alt : bool) (d : Q) (sel : QRectF.t) : QRectF.t :=
  match k with
  | Key_Up =>
      if alt then QRectF.normalized (QRectF.setBottom sel (QRectF.bottom sel - d))
      else QRectF.moveTop sel (QRectF.top sel - d)
  | Key_Down =>
      if alt then QRectF.setBottom sel (QRectF.bottom sel + d)
      else QRectF.moveTop sel (QRectF.top sel + d)
  | Key_Left =>
      if alt then QRectF.normalized (QRectF.setRight sel (QRectF.right sel - d))
      else QRectF.moveLeft sel (QRectF.left sel - d)
  | Key_Right =>
      if alt then QRectF.setRight sel (QRectF.right sel + d)
      else QRectF.moveLeft sel (QRectF.left sel + d)
  | _ => sel
  end.

(** The selection sits on a device pixel on the axis of the key and the
    step does not cross the bound the code clamps against. *)
Definition roomFor (k : Key) (step : Z) (s : QuickEditor) : Prop :=
  let sel := mSelection s in
  let dpr := devicePixelRatioF s in
  match k with
  | Key_Up => exists t : Z, QRectF.top sel * dpr == inject_Z t /\ (step <= t)%Z
  | Key_Down => exists t : Z, QRectF.top sel * dpr == inject_Z t /\ (t + step <= realMaxY s)%Z
  | Key_Left => exists l : Z, QRectF.left sel * dpr == inject_Z l /\ (step <= l)%Z
  | Key_Right => exists l : Z, QRectF.left sel * dpr == inject_Z l /\ (l + step <= realMaxX s)%Z
  | _ => True
  end.

(** Keys acting on the vertical and on the horizontal axis. *)
Definition isVertical (k : Key) : bool :=
  match k with Key_Up | Key_Down => true | _ => false end.

Definition isHorizontal (k : Key) : bool :=
  match k with Key_Left | Key_Right => true | _ => false end.

(** The selection (100,100)-(399.5,299.5) drawn on the 2000x1600 canvas at
    device pixel ratio 2; the pointer has been released. *)
Definition selected2 : QuickEditor :=
  run inkPainter
    [ MousePress (leftPress 100 100); MouseMove (leftDrag 399 299);
      MouseRelease (leftRelease 399 299) ]
    editor2.

(** ** Corner resizing *)

(** The four corner handles and the diagonally opposite corner. *)
Definition isCorner (h : MouseState) : bool :=
  match h with
  | TopLeft | TopRight | BottomRight | BottomLeft => true
  | _ => false
  end.

Definition oppositeCorner (h : MouseState) : MouseState :=
  match h with
  | TopLeft => BottomRight
  | BottomRight => TopLeft
  | TopRight => BottomLeft
  | BottomLeft => TopRight
  | other => other
  end.

(** The editor in the middle of a resize from handle [h] whose anchor is
    the endpoint [anchor]. *)
Definition resizingFrom (h : MouseState) (anchor : QPoint.t) (s : QuickEditor) : QuickEditor :=
  set_mStartPos (QPointF.of_point anchor) (set_mMouseDragState h s).

(** The rectangle a corner resize produces from anchor [a] when the
    pointer moves to [b]. *)
Definition cornerResize (h : MouseState) (a b : QPoint.t) (s : QuickEditor) : QRectF.t :=
  mSelection
    (mouseMoveEvent {| pos := b; button := NoButton; leftHeld := true |} (resizingFrom h a s)).

(** A selection (100,100)-(400,300) drawn on the 1000x800 canvas at device
    pixel ratio 1; the pointer has been released. *)
Definition selected1 : QuickEditor :=
  run inkPainter
    [ MousePress (leftPress 100 100); MouseMove (leftDrag 399 299);
      MouseRelease (leftRelease 399 299) ]
    editor1.

(** ** Containment in the canvas *)

(** A logical coordinate that falls on a device pixel. *)
Definition aligned (dpr v : Q) : Prop := exists k : Z, v * dpr == inject_Z k.

(** The device pixel ratio is the integer [n >= 1] and [dprI] is its
    inverse. *)
Definition integralRatio (n : Z) (dpr dI : Q) : Prop :=
  (1 <= n)%Z /\ dpr == inject_Z n /\ dI * dpr == 1.

(** One axis of a rectangle: position and extent are device aligned and
    the interval lies in [0, W]. *)
Definition axisOK (dpr : Q) (W : Z) (position extent : Q) : Prop :=
  aligned dpr position /\ aligned dpr extent /\
  0 <= position /\ 0 <= extent /\ position + extent <= inject_Z W.

Definition rectOK (dpr : Q) (W H : Z) (r : QRectF.t) : Prop :=
  axisOK dpr W (QRectF.x r) (QRectF.width r) /\
  axisOK dpr H (QRectF.y r) (QRectF.height r).

(** The anchor of the gesture in progress: a pointer position for a new
    selection, a corner of the selection for a resize. *)
Definition anchorOK (s : QuickEditor) : Prop :=
  let dpr := devicePixelRatioF s in
  let sx := QPointF.x (mStartPos s) in
  let sy := QPointF.y (mStartPos s) in
  match mMouseDragState s with
  | MS_None | Inside => True
  | Outside =>
      aligned dpr sx /\ aligned dpr sy /\
      0 <= sx <= inject_Z (width s) - 1 /\ 0 <= sy <= inject_Z (height s) - 1
  | _ =>
      aligned dpr sx /\ aligned dpr sy /\
      0 <= sx <= inject_Z (width s) /\ 0 <= sy <= inject_Z (height s)
  end.

(** The invariant of the selection state machine. *)
Definition selectionInv (s : QuickEditor) : Prop :=
  rectOK (devicePixelRatioF s) (width s) (height s) (mSelection s) /\ anchorOK s.

(** The pointer is over the widget. *)
Definition pointerInside (s : QuickEditor) (e : QMouseEvent) : Prop :=
  (0 <= QPoint.x (pos e) <= width s - 1)%Z /\ (0 <= QPoint.y (pos e) <= height s - 1)%Z.

(** The inputs of a pointer-drag sequence: pointer events over the widget,
    and anything else but key presses. *)
Definition dragInput (s : QuickEditor) (ev : Event) : Prop :=
  match ev with
  | MousePress e | MouseMove e | MouseRelease e | MouseDoubleClick e => pointerInside s e
  | KeyPress _ => False
  | _ => True
  end.

(** The device-space projection of the selection lies within the canvas
    bounds [0,0]-[canvasWidth,canvasHeight]. *)
Definition projectionInCanvas (canvasWidth canvasHeight : Z) (s : QuickEditor) : Prop :=
  let dpr := devicePixelRatioF s in
  let r := mSelection s in
  0 <= QRectF.x r * dpr /\ 0 <= QRectF.y r * dpr /\
  0 <= QRectF.width r * dpr /\ 0 <= QRectF.height r * dpr /\
  (QRectF.x r + QRectF.width r) * dpr <= inject_Z canvasWidth /\
  (QRectF.y r + QRectF.height r) * dpr <= inject_Z canvasHeight.

(** The widget, scaled to device pixels, does not exceed the canvas (the
    constructor sizes it to [int(pixmap.width() * dprI)] by
    [int(pixmap.height() * dprI)]). *)
Definition widgetWithinCanvas (canvasWidth canvasHeight : Z) (s : QuickEditor) : Prop :=
  inject_Z (width s) * devicePixelRatioF s <= inject_Z canvasWidth /\
  inject_Z (height s) * devicePixelRatioF s <= inject_Z canvasHeight.

(** Ratio and widget geometry are untouched. *)
Definition sameGeometry (s s' : QuickEditor) : Prop :=
  devicePixelRatioF s' = devicePixelRatioF s /\ dprI s' = dprI s /\
  width s' = width s /\ height s' = height s.

(** Selection, drag mode and anchor are untouched. *)
Definition sameSelection (s s' : QuickEditor) : Prop :=
  mSelection s' = mSelection s /\ mMouseDragState s' = mMouseDragState s /\
  mStartPos s' = mStartPos s.

(** A selection is created, then dragged towards the bottom-right corner
    of the 1000x800 canvas, all with the pointer over the widget. *)
Definition createThenDrag : list Event :=
  [ MousePress (leftPress 100 100); MouseMove (leftDrag 399 299);
    MouseRelease (leftRelease 399 299);
    MousePress (leftPress 250 200); MouseMove (leftDrag 990 790);
    MouseRelease (leftRelease 990 790) ].

(** * Further parts of the widget *)

(** ** Restoring the remembered region *)

(** The block of the constructor guarded by
    [config->rememberLastRectangularRegion()]: a non-empty saved crop
    region (device pixels) is scaled by [dprI] and intersected with the
    widget geometry [(0, 0, width, height)]. *)
Definition restoreRegion (s : QuickEditor) : QuickEditor :=
  let saved := cropRegion s in
  if negb (QRect.isEmpty saved) then
    set_mSelection
      (QRectF.intersected
         (QRectF.mk (inject_Z (QRect.x saved) * dprI s) (inject_Z (QRect.y saved) * dprI s)
                    (inject_Z (QRect.width saved) * dprI s)
                    (inject_Z (QRect.height saved) * dprI s))
         (QRectF.of_rect (QRect.mk 0 0 (width s) (height s)))) s
  else s.

(** State left by the constructor when the last rectangular region is
    remembered. *)
Definition constructRemembered (pixmap : QPixmap) (dpr : Q)
    (showMagnifierChecked useReleaseToCapture : bool) (savedRegion : QRect.t) : QuickEditor :=
  restoreRegion (construct pixmap dpr showMagnifierChecked useReleaseToCapture savedRegion).

(** ** What a repaint shows *)

(** The decisions of [paintEvent] and of [showEditTools]: which overlays
    are painted, and where the tool box is moved to and shown ([None]: it
    is hidden).  The painting itself is done by [QPainter]. *)
Record Painted := {
  paintsSelection : bool;
  paintsDragHandles : bool;
  paintsMagnifier : bool;
  paintsMidHelpText : bool;
  editTools : option QPoint.t
}.

Definition MouseState_isNone (m : MouseState) : bool :=
  match m with MS_None => true | _ => false end.

(** [showEditTools(show)]. *)
Definition showEditTools (show : bool) (s : QuickEditor) : option QPoint.t :=
  if show then
    let left := QRectF.x (mSelection s) in
    let top := QRectF.y (mSelection s) + QRectF.height (mSelection s) in
    Some (QPoint.mk (to_int left) (to_int top))
  else None.

Definition paintEvent (s : QuickEditor) : Painted :=
  let sel := mSelection s in
  if negb (QRectF.isEmpty sel) || negb (MouseState_isNone (mMouseDragState s)) then
    if MouseState_isNone (mMouseDragState s) then
      (* mouse is up *)
      if qgt (QRectF.width sel) 20 && qgt (QRectF.height sel) 20 then
        {| paintsSelection := true; paintsDragHandles := true; paintsMagnifier := false;
           paintsMidHelpText := false; editTools := showEditTools true s |}
      else
        {| paintsSelection := true; paintsDragHandles := false; paintsMagnifier := false;
           paintsMidHelpText := false; editTools := showEditTools false s |}
    else
      {| paintsSelection := true; paintsDragHandles := false;
         paintsMagnifier := mMagnifierAllowed s && xorb (mShowMagnifier s) (mToggleMagnifier s);
         paintsMidHelpText := false; editTools := showEditTools false s |}
  else
    {| paintsSelection := false; paintsDragHandles := false; paintsMagnifier := false;
       paintsMidHelpText := true; editTools := showEditTools false s |}.

(** ** Selection size tooltip *)

Definition selectionSizeThreshold : Z := 100.
Definition selectionBoxPaddingX : Z := 5.
Definition selectionBoxPaddingY : Z := 4.
Definition selectionBoxMarginY : Z := 2.

(** [qBound(min, val, max)] on [int]: [qMax(min, qMin(max, val))]. *)
Definition qBoundZ (lo v hi : Z) : Z :=
  let m := if (hi <? v)%Z then hi else v in
  if (lo <? m)%Z then m else lo.

(** The box computed by [drawSelectionSizeTooltip]; [textWidth] and
    [textHeight] are the size of the bounding rectangle of the size text
    as the painter's font metrics give it. *)
Definition drawSelectionSizeTooltip (textWidth textHeight : Z) (s : QuickEditor) : QRect.t :=
  let sel := mSelection s in
  let selectionBoxWidth := (textWidth + selectionBoxPaddingX * 2)%Z in
  let selectionBoxHeight := (textHeight + selectionBoxPaddingY * 2)%Z in
  let selectionBoxX :=
    qBoundZ 0
      (to_int (QRectF.x sel) + Z.quot (to_int (QRectF.width sel) - textWidth) 2
       - selectionBoxPaddingX)%Z
      (width s - selectionBoxWidth)%Z in
  let selectionBoxY :=
    if qge (QRectF.width sel) (inject_Z selectionSizeThreshold)
       && qge (QRectF.height sel) (inject_Z selectionSizeThreshold)
    then to_int (QRectF.y sel + (QRectF.height sel - inject_Z textHeight) / 2)
    else
      let above :=
        to_int (QRectF.y sel - inject_Z selectionBoxHeight - inject_Z selectionBoxMarginY) in
      if (above <? 0)%Z
      then to_int (QRectF.y sel + QRectF.height sel + inject_Z selectionBoxMarginY)
      else above in
  QRect.mk selectionBoxX selectionBoxY selectionBoxWidth selectionBoxHeight.

(** ** Vocabulary of the further properties *)

(** Any input whose pointer events are over the widget; key presses
    included. *)
Definition pointerOverWidget (s : QuickEditor) (ev : Event) : Prop :=
  match ev with
  | MousePress e | MouseMove e | MouseRelease e | MouseDoubleClick e => pointerInside s e
  | _ => True
  end.

(** The arrow key of the opposite direction. *)
Definition oppositeKey (k : Key) : Key :=
  match k with
  | Key_Up => Key_Down
  | Key_Down => Key_Up
  | Key_Left => Key_Right
  | Key_Right => Key_Left
  | _ => k
  end.

(** The pointer events of a drawing session: presses, moves and releases
    of the left button. *)
Definition strokeInput (ev : Event) : Prop :=
  match ev with
  | MousePress _ | MouseMove _ => True
  | MouseRelease e => button e = LeftButton
  | _ => False
  end.

(** The number of strokes of a drawing session: one per release. *)
Fixpoint strokes (evs : list Event) : nat :=
  match evs with
  | [] => O
  | MouseRelease _ :: rest => S (strokes rest)
  | _ :: rest => strokes rest
  end.

(** The crop rectangle [acceptSelection] computes: the selection in
    device pixels, every member rounded. *)
Definition scaledCropRegion (s : QuickEditor) : QRect.t :=
  let dpr := devicePixelRatioF s in
  QRect.mk (qRound (QRectF.x (mSelection s) * dpr))
           (qRound (QRectF.y (mSelection s) * dpr))
           (qRound (QRectF.width (mSelection s) * dpr))
           (qRound (QRectF.height (mSelection s) * dpr)).

(** A rectangle of device pixels that is not empty and lies within the
    raster. *)
Definition cropInCanvas (canvasWidth canvasHeight : Z) (r : QRect.t) : Prop :=
  (0 <= QRect.x r)%Z /\ (0 <= QRect.y r)%Z /\
  (0 < QRect.width r)%Z /\ (0 < QRect.height r)%Z /\
  (QRect.x r + QRect.width r <= canvasWidth)%Z /\
  (QRect.y r + QRect.height r <= canvasHeight)%Z.

(** A completion signal crops within the raster; a cancellation carries
    no rectangle. *)
Definition signalInCanvas (canvasWidth canvasHeight : Z) (sig : Signal) : Prop :=
  match sig with
  | GrabDone _ r => cropInCanvas canvasWidth canvasHeight r
  | GrabCancelled => True
  end.

(** While the selection is being moved, the magnifier is not allowed. *)
Definition movingHidesMagnifier (s : QuickEditor) : Prop :=
  mMouseDragState s = Inside -> mMagnifierAllowed s = false.

(** A run of pointer moves. *)
Definition moves (events : list QMouseEvent) (s : QuickEditor) : QuickEditor :=
  fold_left (fun st e => mouseMoveEvent e st) events s.

(** ** The arrow-key switch, the re-arming timer, exact ratios *)

Definition isLeftButton (b : MouseButton) : bool :=
  match b with LeftButton => true | _ => false end.

(** The value of [mDisableArrowKeys] after an input: a left-button press
    with no tool armed turns the switch on, a left-button release with no
    tool armed turns it off, nothing else touches it. *)
Definition arrowKeyFlagAfter (ev : Event) (s : QuickEditor) : bool :=
  match ev with
  | MousePress e =>
      if isLeftButton (button e) && EditToolState_eqb (mEditToolState s) NoEdit
      then true else mDisableArrowKeys s
  | MouseRelease e =>
      if isLeftButton (button e) && EditToolState_eqb (mEditToolState s) NoEdit
      then false else mDisableArrowKeys s
  | _ => mDisableArrowKeys s
  end.

(** The inputs that cannot arm a tool: anything but the expiry of a
    re-arming timer and a click on a tool button. *)
Definition keepsDisarmed (ev : Event) : Prop :=
  match ev with
  | TimerExpired | ToolClicked _ => False
  | _ => True
  end.

(** A device pixel ratio that is a power of two: its inverse, and with it
    every coordinate the handlers compute, is a binary fraction, so the
    doubles of the code carry no rounding error. *)
Definition dyadicRatio (n : Z) : Prop := exists k : nat, n = (2 ^ Z.of_nat k)%Z.

(** * Properties *)

(** ** Facts about the numeric helpers *)

Lemma qle_true a b : qle a b = true <-> a <= b.
Proof. unfold qle; destruct (Qlt_le_dec b a); split; intros; try discriminate; try lra; auto. Qed.

Lemma qge_true a b : qge a b = true <-> b <= a.
Proof. unfold qge; destruct (Qlt_le_dec a b); split; intros; try discriminate; try lra; auto. Qed.

Lemma qlt_true a b : qlt a b = true <-> a < b.
Proof. unfold qlt; destruct (Qlt_le_dec a b); split; intros; try discriminate; try lra; auto. Qed.

Lemma qgt_true a b : qgt a b = true <-> b < a.
Proof. unfold qgt; destruct (Qlt_le_dec b a); split; intros; try discriminate; try lra; auto. Qed.

Lemma qMin_Qmin a b : qMin a b == Qmin a b.
Proof.
  unfold qMin.
  destruct (Qlt_le_dec a b) as [Hlt | Hle].
  - rewrite (Q.min_l a b); lra.
  - rewrite (Q.min_r a b); lra.
Qed.

Lemma qMin_le_r a b : qMin a b <= b.
Proof. unfold qMin; destruct (Qlt_le_dec a b); lra. Qed.

Lemma qMin_le_l a b : qMin a b <= a.
Proof. unfold qMin; destruct (Qlt_le_dec a b); lra. Qed.

Lemma Qfloor_unique (x : Q) (k : Z) :
  inject_Z k <= x -> x < inject_Z k + 1 -> Qfloor x = k.
Proof.
  intros Hlo Hhi.
  pose proof (Qfloor_le x) as Hf1.
  pose proof (Qlt_floor x) as Hf2.
  rewrite inject_Z_plus in Hf2. change (inject_Z 1) with 1 in Hf2.
  assert (H1 : inject_Z k < inject_Z (Qfloor x + 1)).
  { rewrite inject_Z_plus. change (inject_Z 1) with 1. lra. }
  assert (H2 : inject_Z (Qfloor x) < inject_Z (k + 1)).
  { rewrite inject_Z_plus. change (inject_Z 1) with 1. lra. }
  rewrite <- Zlt_Qlt in H1, H2. lia.
Qed.

Lemma to_int_nonneg d : 0 <= d -> to_int d = Qfloor d.
Proof.
  destruct d as [n p]; unfold to_int, Qfloor, Qle; simpl; intros H.
  apply Z.quot_div_nonneg; lia.
Qed.

Lemma to_int_neg d : d <= 0 -> to_int d = Qceiling d.
Proof.
  destruct d as [n p]; unfold to_int, Qceiling, Qfloor, Qle; simpl; intros H.
  replace n with (- (- n))%Z at 1 by lia.
  rewrite Z.quot_opp_l by lia.
  f_equal. apply Z.quot_div_nonneg; lia.
Qed.

(** Qt 5's [qRound] is rounding half up. *)
Lemma qRound_floor d : qRound d = Qfloor (d + (1#2)).
Proof.
  unfold qRound. destruct (Qlt_le_dec d 0) as [Hneg | Hpos].
  - rewrite (to_int_neg (d - 1)) by lra.
    set (m := Qceiling (d - 1)).
    pose proof (Qle_ceiling (d - 1)) as Hc1.
    pose proof (Qceiling_lt (d - 1)) as Hc2.
    fold m in Hc1, Hc2.
    unfold Zminus in Hc2. rewrite inject_Z_plus in Hc2.
    change (inject_Z m - 1 < d - 1) in Hc2.
    rewrite to_int_nonneg by lra.
    symmetry. apply Qfloor_unique.
    + rewrite inject_Z_plus.
      pose proof (Qfloor_le (d - inject_Z m + (1#2))). lra.
    + rewrite inject_Z_plus.
      pose proof (Qlt_floor (d - inject_Z m + (1#2))) as Hf.
      rewrite inject_Z_plus in Hf. change (inject_Z 1) with 1 in Hf. lra.
  - apply to_int_nonneg. lra.
Qed.

Lemma qRound_lower d : inject_Z (qRound d) <= d + (1#2).
Proof. rewrite qRound_floor. apply Qfloor_le. Qed.

Lemma qRound_upper d : d - (1#2) < inject_Z (qRound d).
Proof.
  rewrite qRound_floor.
  pose proof (Qlt_floor (d + (1#2))) as H.
  rewrite inject_Z_plus in H. change (inject_Z 1) with 1 in H. lra.
Qed.

Lemma qRound_comp d d' : d == d' -> qRound d = qRound d'.
Proof. intros H. rewrite !qRound_floor. apply Qfloor_comp. rewrite H. reflexivity. Qed.

Lemma qRound_inject_Z n : qRound (inject_Z n) = n.
Proof.
  rewrite qRound_floor. apply Qfloor_unique; lra.
Qed.

Lemma qRound_integral d n : d == inject_Z n -> qRound d = n.
Proof. intros H. rewrite (qRound_comp _ _ H). apply qRound_inject_Z. Qed.

(** ** Hit-test classifier *)

Lemma withinThreshold_true offset size :
  withinThreshold offset size = true <-> 0 <= offset <= size.
Proof.
  unfold withinThreshold. rewrite andb_true_iff, qle_true, qge_true. tauto.
Qed.

Lemma withinThreshold_false offset size :
  withinThreshold offset size = false <-> ~ (0 <= offset <= size).
Proof.
  rewrite <- withinThreshold_true. destruct (withinThreshold offset size); split; intros; try discriminate; auto.
  exfalso; auto.
Qed.

Lemma mouseLocation_classify sel p :
  QRectF.contains sel p = true ->
  mouseLocation sel p =
    let withinTop := withinThreshold (QPointF.y p - QRectF.top sel) (verSize sel) in
    let withinRight := withinThreshold (QRectF.right sel - QPointF.x p) (horSize sel) in
    classify withinTop withinRight
      (negb withinTop && withinThreshold (QRectF.bottom sel - QPointF.y p) (verSize sel))
      (negb withinRight && withinThreshold (QPointF.x p - QRectF.left sel) (horSize sel)).
Proof. intros H. unfold mouseLocation. rewrite H. reflexivity. Qed.

Lemma mouseLocation_not_contained sel p :
  QRectF.contains sel p = false -> mouseLocation sel p = Outside.
Proof. intros H. unfold mouseLocation. rewrite H. reflexivity. Qed.

(** For a normalised selection, [contains] is the closed rectangle, and a
    selection without area contains no point. *)
Lemma contains_normalised sel p :
  0 <= QRectF.width sel -> 0 <= QRectF.height sel ->
  (QRectF.contains sel p = true <->
   0 < QRectF.width sel /\ 0 < QRectF.height sel /\
   QRectF.left sel <= QPointF.x p <= QRectF.right sel /\
   QRectF.top sel <= QPointF.y p <= QRectF.bottom sel).
Proof.
  intros Hw Hh. unfold QRectF.contains, QRectF.left, QRectF.right, QRectF.top, QRectF.bottom, qeqb.
  destruct (Qlt_le_dec (QRectF.width sel) 0) as [Hc | _]; [lra |].
  destruct (Qlt_le_dec (QRectF.height sel) 0) as [Hc | _]; [lra |].
  destruct (Qeq_bool (QRectF.x sel) (QRectF.x sel + QRectF.width sel)) eqn:E1.
  { apply Qeq_bool_eq in E1. split; [discriminate | lra]. }
  apply Qeq_bool_neq in E1.
  destruct (qlt (QPointF.x p) (QRectF.x sel)) eqn:E2.
  { apply qlt_true in E2. simpl. split; [discriminate | lra]. }
  destruct (qgt (QPointF.x p) (QRectF.x sel + QRectF.width sel)) eqn:E3.
  { apply qgt_true in E3. simpl. split; [discriminate | lra]. }
  simpl.
  destruct (Qeq_bool (QRectF.y sel) (QRectF.y sel + QRectF.height sel)) eqn:E4.
  { apply Qeq_bool_eq in E4. split; [discriminate | lra]. }
  apply Qeq_bool_neq in E4.
  destruct (qlt (QPointF.y p) (QRectF.y sel)) eqn:E5.
  { apply qlt_true in E5. simpl. split; [discriminate | lra]. }
  destruct (qgt (QPointF.y p) (QRectF.y sel + QRectF.height sel)) eqn:E6.
  { apply qgt_true in E6. simpl. split; [discriminate | lra]. }
  simpl.
  assert (~ QPointF.x p < QRectF.x sel) by (rewrite <- qlt_true; congruence).
  assert (~ QRectF.x sel + QRectF.width sel < QPointF.x p) by (rewrite <- qgt_true; congruence).
  assert (~ QPointF.y p < QRectF.y sel) by (rewrite <- qlt_true; congruence).
  assert (~ QRectF.y sel + QRectF.height sel < QPointF.y p) by (rewrite <- qgt_true; congruence).
  split; [intros _ | reflexivity].
  repeat split; lra.
Qed.

(** A point strictly beyond an edge of a normalised selection is not
    contained, however close to the edge it is. *)
Lemma beyond_edge_not_contained sel p :
  0 <= QRectF.width sel -> 0 <= QRectF.height sel ->
  QPointF.x p < QRectF.left sel \/ QRectF.right sel < QPointF.x p \/
  QPointF.y p < QRectF.top sel \/ QRectF.bottom sel < QPointF.y p ->
  QRectF.contains sel p = false.
Proof.
  intros Hw Hh Hout.
  destruct (QRectF.contains sel p) eqn:E; [| reflexivity].
  apply (contains_normalised sel p Hw Hh) in E. lra.
Qed.

(** C10. A pointer position that the selection rectangle does not contain
    is classified [Outside]; in particular (for a normalised selection) any
    position strictly beyond an edge is [Outside] however close to the edge
    or corner it lies, and every handle classification implies that the
    position is contained: the tolerance bands extend inward only. *)
Theorem outside_positions_never_grab_handles (sel : QRectF.t) (p : QPointF.t) :
  QRectF.contains sel p = false ->
  mouseLocation sel p = Outside /\
  (forall q : QPointF.t, mouseLocation sel q <> Outside -> QRectF.contains sel q = true) /\
  (forall q : QPointF.t,
     0 <= QRectF.width sel -> 0 <= QRectF.height sel ->
     QPointF.x q < QRectF.left sel \/ QRectF.right sel < QPointF.x q \/
     QPointF.y q < QRectF.top sel \/ QRectF.bottom sel < QPointF.y q ->
     mouseLocation sel q = Outside).
Proof.
  intros Hnot. split; [| split].
  - apply mouseLocation_not_contained; assumption.
  - intros q Hq. destruct (QRectF.contains sel q) eqn:E; [reflexivity |].
    exfalso. apply Hq. apply mouseLocation_not_contained; assumption.
  - intros q Hw Hh Hout. apply mouseLocation_not_contained.
    apply beyond_edge_not_contained; assumption.
Qed.

(** Witness for C10: five pixels left of the left edge of the selection
    (100,100,300,200), well within 20 pixels of the edge. *)
Lemma outside_positions_never_grab_handles_witness :
  QRectF.contains (QRectF.mk 100 100 300 200) (QPointF.mk 95 150) = false /\
  mouseLocation (QRectF.mk 100 100 300 200) (QPointF.mk 95 150) = Outside.
Proof.
  split; [reflexivity |].
  exact (proj1 (outside_positions_never_grab_handles
                  (QRectF.mk 100 100 300 200) (QPointF.mk 95 150) eq_refl)).
Defined.

Lemma verSize_min sel : verSize sel == Qmin mouseAreaSize (QRectF.height sel / 2).
Proof. apply qMin_Qmin. Qed.

Lemma horSize_min sel : horSize sel == Qmin mouseAreaSize (QRectF.width sel / 2).
Proof. apply qMin_Qmin. Qed.

Lemma bands_of_classifier sel p :
  QRectF.contains sel p = true ->
  let tolV := verSize sel in
  let tolH := horSize sel in
  (In (mouseLocation sel p) topBand <->
     0 <= QPointF.y p - QRectF.top sel <= tolV) /\
  (In (mouseLocation sel p) rightBand <->
     0 <= QRectF.right sel - QPointF.x p <= tolH) /\
  (In (mouseLocation sel p) bottomBand <->
     ~ (0 <= QPointF.y p - QRectF.top sel <= tolV) /\
     0 <= QRectF.bottom sel - QPointF.y p <= tolV) /\
  (In (mouseLocation sel p) leftBand <->
     ~ (0 <= QRectF.right sel - QPointF.x p <= tolH) /\
     0 <= QPointF.x p - QRectF.left sel <= tolH).
Proof.
  intros Hc tolV tolH. subst tolV tolH.
  rewrite (mouseLocation_classify sel p Hc). cbv zeta.
  destruct (withinThreshold (QPointF.y p - QRectF.top sel) (verSize sel)) eqn:ET;
  destruct (withinThreshold (QRectF.right sel - QPointF.x p) (horSize sel)) eqn:ER;
  destruct (withinThreshold (QRectF.bottom sel - QPointF.y p) (verSize sel)) eqn:EB;
  destruct (withinThreshold (QPointF.x p - QRectF.left sel) (horSize sel)) eqn:EL;
  repeat match goal with
         | H : withinThreshold _ _ = true |- _ => apply withinThreshold_true in H
         | H : withinThreshold _ _ = false |- _ => apply withinThreshold_false in H
         end;
  cbn [classify negb andb In topBand rightBand bottomBand leftBand];
  repeat split; intros;
  repeat match goal with
         | H : _ \/ _ |- _ => destruct H
         | H : _ /\ _ |- _ => destruct H
         | H : False |- _ => destruct H
         | H : @eq MouseState _ _ |- _ => discriminate H
         end;
  try tauto; try lra.
Qed.

(** C5. The edge tolerance of the hit-test classifier is, on each axis,
    the minimum of 20 logical pixels and half the extent of the selection
    on that axis, so it never exceeds half the extent; and the classifier
    reports an edge or corner of a band exactly for the contained positions
    whose distance from that edge lies within this tolerance (the top edge
    taking precedence over the bottom one and the right edge over the left
    one). *)
Theorem tolerance_is_min_of_20_and_half_extent (sel : QRectF.t) (p : QPointF.t) :
  let tolV := Qmin 20 (QRectF.height sel / 2) in
  let tolH := Qmin 20 (QRectF.width sel / 2) in
  verSize sel == tolV /\ horSize sel == tolH /\
  tolV <= QRectF.height sel / 2 /\ tolH <= QRectF.width sel / 2 /\
  (In (mouseLocation sel p) topBand <->
     QRectF.contains sel p = true /\
     0 <= QPointF.y p - QRectF.top sel <= tolV) /\
  (In (mouseLocation sel p) rightBand <->
     QRectF.contains sel p = true /\
     0 <= QRectF.right sel - QPointF.x p <= tolH) /\
  (In (mouseLocation sel p) bottomBand <->
     QRectF.contains sel p = true /\
     ~ (0 <= QPointF.y p - QRectF.top sel <= tolV) /\
     0 <= QRectF.bottom sel - QPointF.y p <= tolV) /\
  (In (mouseLocation sel p) leftBand <->
     QRectF.contains sel p = true /\
     ~ (0 <= QRectF.right sel - QPointF.x p <= tolH) /\
     0 <= QPointF.x p - QRectF.left sel <= tolH).
Proof.
  intros tolV tolH.
  assert (HV : verSize sel == tolV) by apply verSize_min.
  assert (HH : horSize sel == tolH) by apply horSize_min.
  split; [exact HV |]. split; [exact HH |].
  split; [apply Q.le_min_r |]. split; [apply Q.le_min_r |].
  destruct (QRectF.contains sel p) eqn:Hc.
  - destruct (bands_of_classifier sel p Hc) as (HT & HR & HB & HL).
    cbv zeta in HT, HR, HB, HL.
    rewrite HV in HT, HB. rewrite HH in HR, HL.
    rewrite HT, HR, HB, HL. tauto.
  - rewrite (mouseLocation_not_contained sel p Hc).
    cbn [In topBand rightBand bottomBand leftBand].
    repeat split; intros;
      repeat match goal with
             | H : _ \/ _ |- _ => destruct H
             | H : _ /\ _ |- _ => destruct H
             | H : False |- _ => destruct H
             | H : @eq MouseState _ _ |- _ => discriminate H
             | H : @eq bool _ _ |- _ => discriminate H
             end.
Qed.

(** ** Undo stack and reset *)

Lemma last_cons_default {A} (a d : A) (l : list A) : last (a :: l) d = last l a.
Proof.
  revert a d. induction l as [| b l IH]; intros a d; [reflexivity |].
  change (last (a :: b :: l) d) with (last (b :: l) d).
  rewrite (IH b d), (IH b a). reflexivity.
Qed.

Lemma popAll_last pix h : popAll pix h = last h pix.
Proof.
  revert pix. induction h as [| top rest IH]; intros pix; [reflexivity |].
  simpl popAll. rewrite IH. symmetry. apply last_cons_default.
Qed.

(** C9. A right-button release empties the selection rectangle, empties
    the undo stack, resets the annotation tool to [NoEdit], and replaces the
    working raster by the bottom-most (oldest) snapshot of the undo stack
    whenever the stack is non-empty (the raster is kept when the stack is
    empty); the drag mode is cleared and nothing is painted. *)
Theorem right_click_restores_oldest_snapshot
    (drawElements : bool -> EditToolState -> QLineF.t -> QRectF.t -> Z -> QColor ->
                    string -> QPixmap -> QPixmap)
    (event : QMouseEvent) (s : QuickEditor) :
  button event = RightButton ->
  let s' := mouseReleaseEvent drawElements event s in
  QRectF.width (mSelection s') = 0 /\
  QRectF.height (mSelection s') = 0 /\
  QRectF.isEmpty (mSelection s') = true /\
  history s' = [] /\
  mEditToolState s' = NoEdit /\
  mMouseDragState s' = MS_None /\
  mPixmap s' = last (history s) (mPixmap s) /\
  (forall oldest newer, history s = newer ++ [oldest] -> mPixmap s' = oldest) /\
  (history s = [] -> mPixmap s' = mPixmap s).
Proof.
  intros Hb s'. subst s'. unfold mouseReleaseEvent. rewrite Hb. cbn.
  repeat split.
  - apply popAll_last.
  - intros oldest newer Hh. rewrite popAll_last, Hh. apply last_last.
  - intros Hh. rewrite Hh. reflexivity.
Qed.

(** Witness for C9: after two commits the right-button release brings back
    the blank raster the editor was opened on. *)
Lemma right_click_restores_oldest_snapshot_witness :
  button (rightRelease 5 5) = RightButton /\
  List.length (history twoCommits) = 2%nat /\
  mPixmap twoCommits <> blankPixmap 1000 800 /\
  mPixmap (mouseReleaseEvent inkPainter (rightRelease 5 5) twoCommits) = blankPixmap 1000 800 /\
  history (mouseReleaseEvent inkPainter (rightRelease 5 5) twoCommits) = [] /\
  mEditToolState (mouseReleaseEvent inkPainter (rightRelease 5 5) twoCommits) = NoEdit.
Proof.
  pose proof (right_click_restores_oldest_snapshot inkPainter (rightRelease 5 5) twoCommits
                eq_refl) as H.
  cbv zeta in H. destruct H as (_ & _ & _ & Hh & Ht & _ & Hp & _ & _).
  split; [reflexivity |]. split; [reflexivity |].
  split; [vm_compute; discriminate |].
  split; [rewrite Hp; reflexivity |].
  split; assumption.
Defined.

(** ** Commit and undo *)

Lemma tool_armed_negb tool :
  tool <> NoEdit -> negb (EditToolState_eqb tool NoEdit) = true.
Proof. destruct tool; intros H; try reflexivity. exfalso; apply H; reflexivity. Qed.

(** What a left-button release does while a tool is armed: the working
    raster is pushed on the undo stack and the shape is painted on it. *)
Lemma commit_pushes_snapshot drawElements event s :
  button event = LeftButton -> mEditToolState s <> NoEdit ->
  let s' := mouseReleaseEvent drawElements event s in
  history s' = mPixmap s :: history s /\
  mEditToolState s' = mEditToolState s /\
  exists line rect,
    mPixmap s' =
      drawElements true (mEditToolState s) line rect (mLineWidth s) (mPenColor s)
        (mEditBoxText s) (mPixmap s).
Proof.
  intros Hb Ht s'. subst s'. unfold mouseReleaseEvent.
  rewrite Hb, (tool_armed_negb _ Ht).
  destruct (mEditToolState s) eqn:E; cbn; rewrite ?E;
    (split; [reflexivity | split; [reflexivity | eexists; eexists; reflexivity]]).
Qed.

(** C2. Committing a shape on pointer release (snapshot of the pre-edit
    raster pushed on the undo stack, then the shape painted) followed by one
    undo restores the working raster to exactly the raster before the
    commit, and the undo stack to what it was. *)
Theorem commit_then_undo_restores_raster
    (drawElements : bool -> EditToolState -> QLineF.t -> QRectF.t -> Z -> QColor ->
                    string -> QPixmap -> QPixmap)
    (event : QMouseEvent) (s : QuickEditor) :
  button event = LeftButton ->
  mEditToolState s <> NoEdit ->
  let committed := mouseReleaseEvent drawElements event s in
  let undone := undo committed in
  history committed = mPixmap s :: history s /\
  mPixmap undone = mPixmap s /\
  pix_bits (mPixmap undone) = pix_bits (mPixmap s) /\
  history undone = history s.
Proof.
  intros Hb Ht committed undone.
  destruct (commit_pushes_snapshot drawElements event s Hb Ht) as (Hh & _ & _).
  fold committed in Hh.
  assert (Hp : mPixmap undone = mPixmap s /\ history undone = history s).
  { subst undone. clearbody committed. unfold undo. cbn. rewrite Hh. cbn.
    split; reflexivity. }
  destruct Hp as [Hp1 Hp2].
  repeat split; try assumption. rewrite Hp1. reflexivity.
Qed.

(** Witness for C2: the commit inks the raster, the undo brings the blank
    raster back. *)
Lemma commit_then_undo_restores_raster_witness :
  button (leftRelease 200 150) = LeftButton /\
  mEditToolState lineArmed <> NoEdit /\
  mPixmap (mouseReleaseEvent inkPainter (leftRelease 200 150) lineArmed) <> mPixmap lineArmed /\
  mPixmap (undo (mouseReleaseEvent inkPainter (leftRelease 200 150) lineArmed))
    = mPixmap lineArmed.
Proof.
  assert (Ht : mEditToolState lineArmed <> NoEdit) by (vm_compute; discriminate).
  split; [reflexivity |]. split; [exact Ht |].
  split; [vm_compute; discriminate |].
  exact (proj1 (proj2 (commit_then_undo_restores_raster inkPainter (leftRelease 200 150)
                         lineArmed eq_refl Ht))).
Defined.

(** ** The bounds utility with and without anchor correction *)

Lemma boundsLeft_nomouse v s : boundsLeft v false s = (Z.max 0 v, s).
Proof.
  unfold boundsLeft. destruct (v <? 0)%Z eqn:E.
  - apply Z.ltb_lt in E. rewrite Z.max_l by lia. reflexivity.
  - apply Z.ltb_ge in E. rewrite Z.max_r by lia. reflexivity.
Qed.

Lemma boundsUp_nomouse v s : boundsUp v false s = (Z.max 0 v, s).
Proof.
  unfold boundsUp. destruct (v <? 0)%Z eqn:E.
  - apply Z.ltb_lt in E. rewrite Z.max_l by lia. reflexivity.
  - apply Z.ltb_ge in E. rewrite Z.max_r by lia. reflexivity.
Qed.

Lemma boundsRight_nomouse v s : boundsRight v false s = (Z.min v (realMaxX s), s).
Proof.
  unfold boundsRight. fold (realMaxX s). cbv zeta.
  destruct (v - realMaxX s >? 0)%Z eqn:E.
  - apply Z.gtb_lt in E. rewrite Z.min_r by lia. reflexivity.
  - rewrite Z.gtb_ltb in E. apply Z.ltb_ge in E. rewrite Z.min_l by lia. reflexivity.
Qed.

Lemma boundsDown_nomouse v s : boundsDown v false s = (Z.min v (realMaxY s), s).
Proof.
  unfold boundsDown. fold (realMaxY s). cbv zeta.
  destruct (v - realMaxY s >? 0)%Z eqn:E.
  - apply Z.gtb_lt in E. rewrite Z.min_r by lia. reflexivity.
  - rewrite Z.gtb_ltb in E. apply Z.ltb_ge in E. rewrite Z.min_l by lia. reflexivity.
Qed.

(** With [mouse = true] the state changes in [mStartPos] only. *)
Lemma set_mStartPos_same s : set_mStartPos (mStartPos s) s = s.
Proof. destruct s; reflexivity. Qed.

Lemma boundsLeft_mouse v s :
  exists p, boundsLeft v true s = (Z.max 0 v, set_mStartPos p s).
Proof.
  unfold boundsLeft. destruct (v <? 0)%Z eqn:E.
  - apply Z.ltb_lt in E. rewrite Z.max_l by lia. eexists; reflexivity.
  - apply Z.ltb_ge in E. rewrite Z.max_r by lia.
    exists (mStartPos s). rewrite set_mStartPos_same. reflexivity.
Qed.

Lemma boundsUp_mouse v s :
  exists p, boundsUp v true s = (Z.max 0 v, set_mStartPos p s).
Proof.
  unfold boundsUp. destruct (v <? 0)%Z eqn:E.
  - apply Z.ltb_lt in E. rewrite Z.max_l by lia. eexists; reflexivity.
  - apply Z.ltb_ge in E. rewrite Z.max_r by lia.
    exists (mStartPos s). rewrite set_mStartPos_same. reflexivity.
Qed.

Lemma boundsRight_mouse v s :
  exists p, boundsRight v true s = (Z.min v (realMaxX s), set_mStartPos p s).
Proof.
  unfold boundsRight. fold (realMaxX s). cbv zeta.
  destruct (v - realMaxX s >? 0)%Z eqn:E.
  - apply Z.gtb_lt in E. rewrite Z.min_r by lia. eexists; reflexivity.
  - rewrite Z.gtb_ltb in E. apply Z.ltb_ge in E. rewrite Z.min_l by lia.
    exists (mStartPos s). rewrite set_mStartPos_same. reflexivity.
Qed.

Lemma boundsDown_mouse v s :
  exists p, boundsDown v true s = (Z.min v (realMaxY s), set_mStartPos p s).
Proof.
  unfold boundsDown. fold (realMaxY s). cbv zeta.
  destruct (v - realMaxY s >? 0)%Z eqn:E.
  - apply Z.gtb_lt in E. rewrite Z.min_r by lia. eexists; reflexivity.
  - rewrite Z.gtb_ltb in E. apply Z.ltb_ge in E. rewrite Z.min_l by lia.
    exists (mStartPos s). rewrite set_mStartPos_same. reflexivity.
Qed.

Lemma dragSelection_eq p s :
  exists anchor,
    dragSelection p s =
      set_mSelection
        (QRectF.moveTo (mSelection s)
           (QPointF.mk
              (inject_Z (clampAxis (QPoint.x (dragTarget p s)) (realMaxX s)) * dprI s)
              (inject_Z (clampAxis (QPoint.y (dragTarget p s)) (realMaxY s)) * dprI s)))
        (set_mStartPos anchor (set_mMagnifierAllowed false s)).
Proof.
  unfold dragSelection, boundsMouseDefault. cbv zeta.
  change (mStartPos (set_mMagnifierAllowed false s)) with (mStartPos s).
  change (mInitialTopLeft (set_mMagnifierAllowed false s)) with (mInitialTopLeft s).
  change (devicePixelRatioF (set_mMagnifierAllowed false s)) with (devicePixelRatioF s).
  fold (dragTarget p s).
  set (s1 := set_mMagnifierAllowed false s).
  destruct (boundsLeft_mouse (QPoint.x (dragTarget p s)) s1) as [a1 E1]. rewrite E1.
  set (x1 := Z.max 0 (QPoint.x (dragTarget p s))).
  assert (E2 : exists a2,
             (if negb (x1 =? 0)%Z then boundsRight x1 true (set_mStartPos a1 s1)
              else (x1, set_mStartPos a1 s1))
             = (clampAxis (QPoint.x (dragTarget p s)) (realMaxX s), set_mStartPos a2 s1)).
  { unfold clampAxis. fold x1. cbv zeta. destruct (negb (x1 =? 0)%Z).
    - destruct (boundsRight_mouse x1 (set_mStartPos a1 s1)) as [a2 E]. rewrite E.
      exists a2. reflexivity.
    - exists a1. reflexivity. }
  destruct E2 as [a2 E2]. rewrite E2.
  destruct (boundsUp_mouse (QPoint.y (dragTarget p s)) (set_mStartPos a2 s1)) as [a3 E3].
  rewrite E3.
  set (y1 := Z.max 0 (QPoint.y (dragTarget p s))).
  assert (E4 : exists a4,
             (if negb (y1 =? 0)%Z then boundsDown y1 true (set_mStartPos a3 (set_mStartPos a2 s1))
              else (y1, set_mStartPos a3 (set_mStartPos a2 s1)))
             = (clampAxis (QPoint.y (dragTarget p s)) (realMaxY s), set_mStartPos a4 s1)).
  { unfold clampAxis. fold y1. cbv zeta. destruct (negb (y1 =? 0)%Z).
    - destruct (boundsDown_mouse y1 (set_mStartPos a3 (set_mStartPos a2 s1))) as [a4 E].
      rewrite E. exists a4. reflexivity.
    - exists a3. reflexivity. }
  destruct E4 as [a4 E4]. rewrite E4.
  exists a4. reflexivity.
Qed.

(** ** What the handlers leave alone *)

Lemma sameOutputs_refl s : sameOutputs s s.
Proof. repeat split. Qed.

Lemma sameOutputs_trans s1 s2 s3 : sameOutputs s1 s2 -> sameOutputs s2 s3 -> sameOutputs s1 s3.
Proof.
  unfold sameOutputs. intros (A1 & A2 & A3 & A4 & A5) (B1 & B2 & B3 & B4 & B5).
  repeat split; congruence.
Qed.

Lemma acceptSelection_empty s :
  QRectF.isEmpty (mSelection s) = true -> acceptSelection s = s.
Proof. intros H. unfold acceptSelection. rewrite H. reflexivity. Qed.

Lemma moveShape_outputs event s : sameOutputs s (moveShape event s).
Proof.
  unfold moveShape, sameOutputs.
  destruct (leftHeld event), (mEditToolState s); cbn; repeat split.
Qed.

Lemma moveShape_selection event s :
  mSelection (moveShape event s) = mSelection s /\
  mMouseDragState (moveShape event s) = mMouseDragState s /\
  mStartPos (moveShape event s) = mStartPos s /\
  mInitialTopLeft (moveShape event s) = mInitialTopLeft s /\
  devicePixelRatioF (moveShape event s) = devicePixelRatioF s /\
  dprI (moveShape event s) = dprI s /\
  width (moveShape event s) = width s /\
  height (moveShape event s) = height s.
Proof.
  unfold moveShape.
  destruct (leftHeld event), (mEditToolState s); cbn; repeat split.
Qed.

Lemma moveSelection_outputs event s : sameOutputs s (moveSelection event s).
Proof.
  unfold moveSelection, sameOutputs. cbv zeta.
  cbn [mMouseDragState set_mMagnifierAllowed set_mMousePos].
  destruct (mMouseDragState s); try (repeat split; fail).
  match goal with
  | |- context [dragSelection ?p ?st] => destruct (dragSelection_eq p st) as [a E]; rewrite E
  end.
  repeat split.
Qed.

Lemma mouseMoveEvent_outputs event s : sameOutputs s (mouseMoveEvent event s).
Proof.
  unfold mouseMoveEvent.
  eapply sameOutputs_trans; [apply moveShape_outputs | apply moveSelection_outputs].
Qed.

Lemma mousePressEvent_outputs event s : sameOutputs s (mousePressEvent event s).
Proof.
  unfold mousePressEvent, sameOutputs.
  destruct (mEditToolState s); cbn; try (repeat split; fail);
    destruct (button event); cbn; try (repeat split; fail);
    destruct (mouseLocation (mSelection s) (QPointF.of_point (pos event)));
    repeat split.
Qed.

Lemma keyReleaseEvent_outputs event s : sameOutputs s (keyReleaseEvent event s).
Proof.
  unfold keyReleaseEvent, sameOutputs.
  destruct (mToggleMagnifier s && negb (shiftModifier event)); repeat split.
Qed.

Lemma keyPressEvent_arrow_outputs event s :
  isArrow (key event) = true -> sameOutputs s (keyPressEvent event s).
Proof.
  intros Hk. unfold keyPressEvent, sameOutputs. cbv zeta.
  rewrite boundsUp_nomouse, boundsDown_nomouse, boundsLeft_nomouse, boundsRight_nomouse.
  destruct (key event); try discriminate Hk;
    destruct (shiftModifier event), (altModifier event); cbn;
    destruct (mDisableArrowKeys s); repeat split.
Qed.

(** ** Completion with an empty selection *)

Lemma sameOutputs_quiet s s' : sameOutputs s s' -> quiet s s'.
Proof. intros (A & B & _). split; assumption. Qed.

Lemma keyPressEvent_empty event s :
  QRectF.isEmpty (mSelection s) = true ->
  key event <> Key_Escape ->
  quiet s (keyPressEvent event s).
Proof.
  intros He Hk.
  destruct (isArrow (key event)) eqn:Ha.
  { apply sameOutputs_quiet, keyPressEvent_arrow_outputs, Ha. }
  unfold keyPressEvent. cbv zeta.
  set (s1 := if shiftModifier event then set_mToggleMagnifier true s else s).
  assert (Hs1 : QRectF.isEmpty (mSelection s1) = true /\ quiet s s1).
  { subst s1. destruct (shiftModifier event); (split; [exact He | split; reflexivity]). }
  destruct Hs1 as [He1 Hq1].
  destruct (key event); try discriminate Ha; try (exfalso; apply Hk; reflexivity);
    try rewrite (acceptSelection_empty s1 He1); exact Hq1.
Qed.

Lemma mouseReleaseEvent_empty drawElements event s :
  QRectF.isEmpty (mSelection s) = true ->
  quiet s (mouseReleaseEvent drawElements event s).
Proof.
  intros He. unfold mouseReleaseEvent, quiet.
  destruct (button event); cbn; try (split; reflexivity).
  destruct (negb (EditToolState_eqb (mEditToolState s) NoEdit)).
  - destruct (mEditToolState s); cbn; split; reflexivity.
  - assert (He1 : QRectF.isEmpty (mSelection (set_mDisableArrowKeys false s)) = true)
      by exact He.
    cbn [mMouseDragState set_mDisableArrowKeys mReleaseToCapture].
    destruct (mMouseDragState s); try (split; reflexivity).
    destruct (mReleaseToCapture s); [| split; reflexivity].
    rewrite (acceptSelection_empty _ He1). split; reflexivity.
Qed.

Lemma mouseDoubleClickEvent_empty event s :
  QRectF.isEmpty (mSelection s) = true ->
  quiet s (mouseDoubleClickEvent event s).
Proof.
  intros He. unfold mouseDoubleClickEvent.
  destruct (button event); try (split; reflexivity).
  destruct (QRectF.contains (mSelection s) (QPointF.of_point (pos event)));
    [rewrite (acceptSelection_empty s He) |]; split; reflexivity.
Qed.

Lemma handle_empty_quiet drawElements ev s :
  QRectF.isEmpty (mSelection s) = true ->
  isCancellation ev = false ->
  quiet s (handle drawElements ev s).
Proof.
  intros He Hc.
  destruct ev as [e | e | e | e | e | e | st | | | |]; cbn [handle].
  - apply keyPressEvent_empty; [exact He |].
    intros Hk. cbn in Hc. rewrite Hk in Hc. discriminate.
  - apply sameOutputs_quiet, keyReleaseEvent_outputs.
  - apply sameOutputs_quiet, mousePressEvent_outputs.
  - apply sameOutputs_quiet, mouseMoveEvent_outputs.
  - apply mouseReleaseEvent_empty, He.
  - apply mouseDoubleClickEvent_empty, He.
  - unfold toggleDrawState.
    destruct (EditToolState_eqb (mEditToolState s) st); split; reflexivity.
  - unfold undo. cbn. destruct (history s); split; reflexivity.
  - discriminate Hc.
  - rewrite (acceptSelection_empty s He). split; reflexivity.
  - unfold timerExpired. destruct (timers s) as [| [d st] rest]; split; reflexivity.
Qed.

Lemma handle_cancellation drawElements ev s :
  isCancellation ev = true ->
  emitted (handle drawElements ev s) = emitted s ++ [GrabCancelled] /\
  cropRegion (handle drawElements ev s) = cropRegion s.
Proof.
  intros Hc.
  destruct ev as [e | e | e | e | e | e | st | | | |]; try discriminate Hc; cbn [handle].
  - unfold keyPressEvent. cbv zeta. cbn in Hc.
    destruct (key e); try discriminate Hc.
    destruct (shiftModifier e); split; reflexivity.
  - split; reflexivity.
Qed.

(** C3. With an empty selection (width or height not positive, zero in
    particular) the completion operation does nothing: whatever input
    arrives (Enter, Return, double click, release-to-capture, the OK
    button, ...), no crop region is persisted and no completion result is
    emitted; the only signal that can be emitted from such a state is the
    cancellation, and pressing Escape emits it. *)
Theorem empty_selection_never_completes
    (drawElements : bool -> EditToolState -> QLineF.t -> QRectF.t -> Z -> QColor ->
                    string -> QPixmap -> QPixmap)
    (ev : Event) (s : QuickEditor) :
  QRectF.isEmpty (mSelection s) = true ->
  let s' := handle drawElements ev s in
  acceptSelection s = s /\
  cropRegion s' = cropRegion s /\
  (emitted s' = emitted s \/ emitted s' = emitted s ++ [GrabCancelled]) /\
  (emitted s' <> emitted s -> isCancellation ev = true) /\
  (forall shift alt,
     emitted (keyPressEvent {| key := Key_Escape; shiftModifier := shift; altModifier := alt |} s)
     = emitted s ++ [GrabCancelled]).
Proof.
  intros He s'. subst s'.
  split; [apply acceptSelection_empty, He |].
  destruct (isCancellation ev) eqn:Hc.
  - destruct (handle_cancellation drawElements ev s Hc) as [Hem Hcr].
    split; [exact Hcr |]. split; [right; exact Hem |]. split; [reflexivity |].
    intros shift alt. unfold keyPressEvent. cbn. destruct shift; reflexivity.
  - destruct (handle_empty_quiet drawElements ev s He Hc) as [Hem Hcr].
    split; [exact Hcr |]. split; [left; exact Hem |].
    split; [intros Hne; exfalso; apply Hne; exact Hem |].
    intros shift alt. unfold keyPressEvent. cbn. destruct shift; reflexivity.
Qed.

(** Witness for C3: Enter on the freshly constructed editor, whose
    selection is the null rectangle. *)
Lemma empty_selection_never_completes_witness :
  QRectF.isEmpty (mSelection editor1) = true /\
  emitted (handle inkPainter (KeyPress (arrowKey Key_Enter false false)) editor1) = [] /\
  cropRegion (handle inkPainter (KeyPress (arrowKey Key_Enter false false)) editor1)
    = QRect.mk 0 0 0 0.
Proof.
  pose proof (empty_selection_never_completes inkPainter
                (KeyPress (arrowKey Key_Enter false false)) editor1 eq_refl) as H.
  cbv zeta in H. destruct H as (_ & Hcr & _ & _ & _).
  split; [reflexivity |]. split; [reflexivity | exact Hcr].
Defined.

(** ** The original raster is never lost *)

Lemma sameOutputs_raster s s' : sameOutputs s s' -> sameRaster s s'.
Proof. intros (_ & _ & A & B & _). split; assumption. Qed.

Lemma sameRaster_original s s' : sameRaster s s' -> originalRaster s' = originalRaster s.
Proof. intros [A B]. unfold originalRaster. rewrite A, B. reflexivity. Qed.

Lemma acceptSelection_raster s : sameRaster s (acceptSelection s).
Proof.
  unfold acceptSelection, emit.
  destruct (negb (QRectF.isEmpty (mSelection s))); split; reflexivity.
Qed.

Lemma keyPressEvent_raster event s : sameRaster s (keyPressEvent event s).
Proof.
  destruct (isArrow (key event)) eqn:Ha.
  { apply sameOutputs_raster, keyPressEvent_arrow_outputs, Ha. }
  unfold keyPressEvent. cbv zeta.
  set (s1 := if shiftModifier event then set_mToggleMagnifier true s else s).
  assert (Hs1 : sameRaster s s1).
  { subst s1. destruct (shiftModifier event); split; reflexivity. }
  destruct Hs1 as [A B].
  destruct (key event); try discriminate Ha;
    try (destruct (acceptSelection_raster s1) as [C D]; split; congruence);
    split; assumption.
Qed.

(** Every input leaves the bottom of the undo stack in place. *)
Lemma handle_keeps_originalRaster drawElements ev s :
  originalRaster (handle drawElements ev s) = originalRaster s.
Proof.
  destruct ev as [e | e | e | e | e | e | st | | | |]; cbn [handle].
  - apply sameRaster_original, keyPressEvent_raster.
  - apply sameRaster_original, sameOutputs_raster, keyReleaseEvent_outputs.
  - apply sameRaster_original, sameOutputs_raster, mousePressEvent_outputs.
  - apply sameRaster_original, sameOutputs_raster, mouseMoveEvent_outputs.
  - unfold originalRaster, mouseReleaseEvent, acceptSelection, emit.
    destruct (button e); cbn; try reflexivity.
    + destruct (mEditToolState s); cbn; try apply last_cons_default;
        destruct (mMouseDragState s); cbn; try reflexivity;
        destruct (mReleaseToCapture s); cbn; try reflexivity;
        destruct (negb (QRectF.isEmpty (mSelection s))); reflexivity.
    + apply popAll_last.
  - unfold mouseDoubleClickEvent.
    destruct (button e); try reflexivity.
    destruct (QRectF.contains (mSelection s) (QPointF.of_point (pos e))); [| reflexivity].
    apply sameRaster_original, acceptSelection_raster.
  - unfold toggleDrawState. destruct (EditToolState_eqb (mEditToolState s) st); reflexivity.
  - unfold originalRaster, undo. cbv zeta.
    change (history (set_mEditToolState NoEdit s)) with (history s).
    destruct (history s) as [| top rest] eqn:E; cbn; rewrite ?E; [reflexivity |].
    symmetry. apply last_cons_default.
  - reflexivity.
  - apply sameRaster_original, acceptSelection_raster.
  - unfold timerExpired. destruct (timers s) as [| [d st] rest]; reflexivity.
Qed.

Lemma run_keeps_originalRaster drawElements evs s :
  originalRaster (run drawElements evs s) = originalRaster s.
Proof.
  unfold run. revert s. induction evs as [| ev evs IH]; intros s; [reflexivity |].
  simpl. rewrite IH. apply handle_keeps_originalRaster.
Qed.

(** Hence, whatever happened since the editor was constructed, a
    right-button release brings back the raster it was constructed with. *)
Lemma right_click_restores_constructed_raster
    drawElements evs event pixmap dpr mag rel saved :
  button event = RightButton ->
  mPixmap (mouseReleaseEvent drawElements event
             (run drawElements evs (construct pixmap dpr mag rel saved))) = pixmap.
Proof.
  intros Hb.
  unfold mouseReleaseEvent. rewrite Hb. cbn.
  rewrite popAll_last.
  change (originalRaster (run drawElements evs (construct pixmap dpr mag rel saved)) = pixmap).
  rewrite run_keeps_originalRaster. reflexivity.
Qed.

(** ** Magnifier at the canvas corner *)

Lemma to_int_comp d d' : d == d' -> to_int d = to_int d'.
Proof.
  intros H. destruct (Qlt_le_dec d 0) as [Hneg | Hpos].
  - rewrite (to_int_neg d), (to_int_neg d') by lra. apply Qceiling_comp, H.
  - rewrite (to_int_nonneg d), (to_int_nonneg d') by lra. apply Qfloor_comp, H.
Qed.

Lemma to_int_inject_Z n : to_int (inject_Z n) = n.
Proof. unfold to_int. simpl. apply Z.quot_1_r. Qed.

(** At pointer coordinate 0 the sample starts at 0 and the recorded offset
    is the (negative) requested start. *)
Lemma clampSample_at_zero mouse dpr extent :
  mouse == 0 -> clampSample mouse dpr extent = (0%Z, (- magPixels)%Z).
Proof.
  intros H. unfold clampSample. cbv zeta.
  assert (E : to_int (mouse * dpr - inject_Z magPixels) = (- magPixels)%Z).
  { rewrite (to_int_comp _ (inject_Z (- magPixels))).
    - apply to_int_inject_Z.
    - rewrite H. unfold magPixels, inject_Z. simpl Z.opp. lra. }
  rewrite E. reflexivity.
Qed.

(** C7, as stated, fails: at pointer (0,0) the recorded clamp offset is
    not positive. *)
Lemma magnifier_corner_offset_not_positive :
  QPointF.x (mMousePos atCorner) == 0 /\ QPointF.y (mMousePos atCorner) == 0 /\
  mMagnifierAllowed atCorner = true /\
  ~ ((0 < offsetX (drawMagnifier atCorner))%Z /\ (0 < offsetY (drawMagnifier atCorner))%Z).
Proof.
  split; [reflexivity |]. split; [reflexivity |]. split; [reflexivity |].
  intros [H _]. vm_compute in H. discriminate H.
Qed.

(** C7 (amended). When the magnifier is requested at pointer position
    (0,0), whatever the device pixel ratio and the canvas size, the square
    sample region of side 2*16+1 = 33 device pixels starts at (0,0); the
    recorded clamp offset is the signed overshoot -16 on both axes (negative,
    its magnitude being the clamp amount); the top and left cross-hair bars
    are shortened by that amount to length 0 and the bottom and right bars
    are lengthened by it to 32 magnified pixels (160). *)
Theorem magnifier_at_corner_clamped (s : QuickEditor) :
  QPointF.x (mMousePos s) == 0 ->
  QPointF.y (mMousePos s) == 0 ->
  let m := drawMagnifier s in
  magniRect m = QRectF.mk 0 0 33 33 /\
  offsetX m = (-16)%Z /\ offsetY m = (-16)%Z /\
  QRectF.height (crossHairTop m) == 0 /\
  QRectF.width (crossHairLeft m) == 0 /\
  QRectF.height (crossHairBottom m) == inject_Z magZoom * 32 /\
  QRectF.width (crossHairRight m) == inject_Z magZoom * 32 /\
  QRectF.width (crossHairTop m) == inject_Z magZoom /\
  QRectF.height (crossHairLeft m) == inject_Z magZoom.
Proof.
  intros Hx Hy m. subst m. unfold drawMagnifier. cbv zeta.
  rewrite (clampSample_at_zero _ _ _ Hx), (clampSample_at_zero _ _ _ Hy).
  cbn [magniRect offsetX offsetY crossHairTop crossHairLeft crossHairBottom crossHairRight
       QRectF.height QRectF.width].
  unfold magPixels, magZoom, inject_Z. simpl Z.opp.
  repeat split; try reflexivity; lra.
Qed.

(** Witness for the amended C7 on the 1000x800 canvas. *)
Lemma magnifier_at_corner_clamped_witness :
  QPointF.x (mMousePos atCorner) == 0 /\ QPointF.y (mMousePos atCorner) == 0 /\
  magniRect (drawMagnifier atCorner) = QRectF.mk 0 0 33 33 /\
  offsetX (drawMagnifier atCorner) = (-16)%Z.
Proof.
  assert (Hx : QPointF.x (mMousePos atCorner) == 0) by reflexivity.
  assert (Hy : QPointF.y (mMousePos atCorner) == 0) by reflexivity.
  pose proof (magnifier_at_corner_clamped atCorner Hx Hy) as H.
  cbv zeta in H. destruct H as (Hr & Hox & _).
  split; [exact Hx |]. split; [exact Hy |]. split; [exact Hr | exact Hox].
Defined.

(** ** Keyboard nudging *)

Lemma keyStep_stepZ shift : keyStep shift = inject_Z (stepZ shift).
Proof. destruct shift; reflexivity. Qed.

(** The selection after an arrow key, read off [keyPressEvent]. *)
Lemma keyPressEvent_arrow_selection event s :
  mDisableArrowKeys s = false ->
  let sel := mSelection s in
  let dpr := devicePixelRatioF s in
  let step := keyStep (shiftModifier event) in
  mSelection (keyPressEvent event s) =
    match key event with
    | Key_Up =>
        let newPos := Z.max 0 (qRound (QRectF.top sel * dpr - step)) in
        if altModifier event
        then QRectF.normalized
               (QRectF.setBottom sel (dprI s * inject_Z newPos + QRectF.height sel))
        else QRectF.moveTop sel (dprI s * inject_Z newPos)
    | Key_Down =>
        let newPos := Z.min (qRound (QRectF.top sel * dpr + step)) (realMaxY s) in
        if altModifier event
        then QRectF.setBottom sel (dprI s * inject_Z newPos + QRectF.height sel)
        else QRectF.moveTop sel (dprI s * inject_Z newPos)
    | Key_Left =>
        let newPos := Z.max 0 (qRound (QRectF.left sel * dpr - step)) in
        if altModifier event
        then QRectF.normalized
               (QRectF.setRight sel (dprI s * inject_Z newPos + QRectF.width sel))
        else QRectF.moveLeft sel (dprI s * inject_Z newPos)
    | Key_Right =>
        let newPos := Z.min (qRound (QRectF.left sel * dpr + step)) (realMaxX s) in
        if altModifier event
        then QRectF.setRight sel (dprI s * inject_Z newPos + QRectF.width sel)
        else QRectF.moveLeft sel (dprI s * inject_Z newPos)
    | _ => sel
    end.
Proof.
  intros Hd. cbv zeta. unfold keyPressEvent. cbv zeta.
  rewrite boundsUp_nomouse, boundsDown_nomouse, boundsLeft_nomouse, boundsRight_nomouse.
  unfold acceptSelection, emit.
  destruct (key event), (shiftModifier event), (altModifier event); cbn;
    rewrite ?Hd; try reflexivity;
    destruct (negb (QRectF.isEmpty (mSelection s))); reflexivity.
Qed.

Lemma keyPressEvent_arrow_disabled event s :
  isArrow (key event) = true ->
  mDisableArrowKeys s = true ->
  mSelection (keyPressEvent event s) = mSelection s.
Proof.
  intros Hk Hd. unfold keyPressEvent. cbv zeta.
  destruct (key event); try discriminate Hk;
    destruct (shiftModifier event); cbn; rewrite Hd; reflexivity.
Qed.

Lemma logical_of_device dI dpr v n :
  dI * dpr == 1 -> v * dpr == inject_Z n -> dI * inject_Z n == v.
Proof.
  intros H1 H2. rewrite <- H2.
  transitivity (v * (dI * dpr)); [ring | rewrite H1; ring].
Qed.

Lemma nudge_back dI dpr v t step :
  dI * dpr == 1 -> v * dpr == inject_Z t ->
  dI * inject_Z (t - step) == v - inject_Z step * dI.
Proof.
  intros H1 H2. pose proof (logical_of_device dI dpr v t H1 H2) as E.
  unfold Z.sub. rewrite inject_Z_plus, inject_Z_opp.
  transitivity (dI * inject_Z t - inject_Z step * dI); [ring | rewrite E; reflexivity].
Qed.

Lemma nudge_forth dI dpr v t step :
  dI * dpr == 1 -> v * dpr == inject_Z t ->
  dI * inject_Z (t + step) == v + inject_Z step * dI.
Proof.
  intros H1 H2. pose proof (logical_of_device dI dpr v t H1 H2) as E.
  rewrite inject_Z_plus.
  transitivity (dI * inject_Z t + inject_Z step * dI); [ring | rewrite E; reflexivity].
Qed.

Lemma normalized_eq a b : QRectF.eq a b -> QRectF.eq (QRectF.normalized a) (QRectF.normalized b).
Proof.
  unfold QRectF.eq, QRectF.normalized. intros (Hx & Hy & Hw & Hh).
  destruct (Qlt_le_dec (QRectF.width a) 0), (Qlt_le_dec (QRectF.width b) 0),
           (Qlt_le_dec (QRectF.height a) 0), (Qlt_le_dec (QRectF.height b) 0);
    cbn; repeat split; lra.
Qed.

Lemma normalized_keeps_x sel pos :
  0 <= QRectF.width sel ->
  QRectF.x (QRectF.normalized (QRectF.setBottom sel pos)) = QRectF.x sel /\
  QRectF.width (QRectF.normalized (QRectF.setBottom sel pos)) = QRectF.width sel.
Proof.
  intros Hw. unfold QRectF.normalized, QRectF.setBottom. cbn.
  destruct (Qlt_le_dec (QRectF.width sel) 0); [lra |].
  destruct (Qlt_le_dec (pos - QRectF.y sel) 0); cbn; split; reflexivity.
Qed.

Lemma normalized_keeps_y sel pos :
  0 <= QRectF.height sel ->
  QRectF.y (QRectF.normalized (QRectF.setRight sel pos)) = QRectF.y sel /\
  QRectF.height (QRectF.normalized (QRectF.setRight sel pos)) = QRectF.height sel.
Proof.
  intros Hh. unfold QRectF.normalized, QRectF.setRight. cbn.
  destruct (Qlt_le_dec (pos - QRectF.x sel) 0);
    destruct (Qlt_le_dec (QRectF.height sel) 0); try lra; cbn; split; reflexivity.
Qed.

Lemma arrow_nudges_by_step event s :
  mDisableArrowKeys s = false ->
  dprI s * devicePixelRatioF s == 1 ->
  roomFor (key event) (stepZ (shiftModifier event)) s ->
  QRectF.eq (mSelection (keyPressEvent event s))
            (nudged (key event) (altModifier event)
               (inject_Z (stepZ (shiftModifier event)) * dprI s) (mSelection s)).
Proof.
  intros Hd H1 Hroom.
  rewrite (keyPressEvent_arrow_selection event s Hd). cbv zeta.
  rewrite keyStep_stepZ.
  set (step := stepZ (shiftModifier event)) in *.
  unfold roomFor in Hroom. cbv zeta in Hroom. unfold nudged.
  destruct (key event); try (repeat split; reflexivity).
  - (* Key_Up *)
    destruct Hroom as (t & Ht & Hle).
    rewrite (qRound_integral _ (t - step)%Z)
      by (rewrite Ht; unfold Z.sub; rewrite inject_Z_plus, inject_Z_opp; ring).
    rewrite Z.max_r by lia.
    pose proof (nudge_back _ _ _ t step H1 Ht) as E.
    destruct (altModifier event).
    + apply normalized_eq. unfold QRectF.eq, QRectF.setBottom, QRectF.bottom, QRectF.top in *.
      cbn. repeat split; try reflexivity. rewrite E. ring.
    + unfold QRectF.eq, QRectF.moveTop. cbn. repeat split; try reflexivity. exact E.
  - (* Key_Right *)
    destruct Hroom as (l & Hl & Hle).
    rewrite (qRound_integral _ (l + step)%Z)
      by (rewrite Hl; rewrite inject_Z_plus; ring).
    rewrite Z.min_l by lia.
    pose proof (nudge_forth _ _ _ l step H1 Hl) as E.
    destruct (altModifier event).
    + unfold QRectF.eq, QRectF.setRight, QRectF.right, QRectF.left in *.
      cbn. repeat split; try reflexivity. rewrite E. ring.
    + unfold QRectF.eq, QRectF.moveLeft. cbn. repeat split; try reflexivity. exact E.
  - (* Key_Down *)
    destruct Hroom as (t & Ht & Hle).
    rewrite (qRound_integral _ (t + step)%Z)
      by (rewrite Ht; rewrite inject_Z_plus; ring).
    rewrite Z.min_l by lia.
    pose proof (nudge_forth _ _ _ t step H1 Ht) as E.
    destruct (altModifier event).
    + unfold QRectF.eq, QRectF.setBottom, QRectF.bottom, QRectF.top in *.
      cbn. repeat split; try reflexivity. rewrite E. ring.
    + unfold QRectF.eq, QRectF.moveTop. cbn. repeat split; try reflexivity. exact E.
  - (* Key_Left *)
    destruct Hroom as (l & Hl & Hle).
    rewrite (qRound_integral _ (l - step)%Z)
      by (rewrite Hl; unfold Z.sub; rewrite inject_Z_plus, inject_Z_opp; ring).
    rewrite Z.max_r by lia.
    pose proof (nudge_back _ _ _ l step H1 Hl) as E.
    destruct (altModifier event).
    + apply normalized_eq. unfold QRectF.eq, QRectF.setRight, QRectF.right, QRectF.left in *.
      cbn. repeat split; try reflexivity. rewrite E. ring.
    + unfold QRectF.eq, QRectF.moveLeft. cbn. repeat split; try reflexivity. exact E.
Qed.

Lemma arrow_axes_independent event s :
  mDisableArrowKeys s = false ->
  0 <= QRectF.width (mSelection s) -> 0 <= QRectF.height (mSelection s) ->
  let sel := mSelection s in
  let sel' := mSelection (keyPressEvent event s) in
  (isVertical (key event) = true ->
     QRectF.x sel' = QRectF.x sel /\ QRectF.width sel' = QRectF.width sel) /\
  (isHorizontal (key event) = true ->
     QRectF.y sel' = QRectF.y sel /\ QRectF.height sel' = QRectF.height sel).
Proof.
  intros Hd Hw Hh. cbv zeta.
  rewrite (keyPressEvent_arrow_selection event s Hd). cbv zeta.
  split; intros Hk; destruct (key event); try discriminate Hk;
    destruct (altModifier event);
    try apply normalized_keeps_x; try apply normalized_keeps_y; try assumption;
    split; reflexivity.
Qed.

(** C4, as stated, fails: at device pixel ratio 2 the Up key moves the
    selection by 7.5 logical pixels, not by 15, although there are 100
    logical pixels of room above it. *)
Lemma arrow_step_is_not_15_logical_pixels :
  devicePixelRatioF selected2 == 2 /\
  mDisableArrowKeys selected2 = false /\
  QRectF.top (mSelection selected2) == 100 /\
  let moved := keyPressEvent (arrowKey Key_Up false false) selected2 in
  QRectF.top (mSelection moved) == 100 - (15 # 2) /\
  ~ QRectF.top (mSelection moved) == QRectF.top (mSelection selected2) - 15.
Proof.
  split; [reflexivity |]. split; [reflexivity |]. split; [reflexivity |].
  cbv zeta. split; [reflexivity |].
  intros H. vm_compute in H. discriminate H.
Qed.

(** ** Corner resizing *)

Lemma moveSelection_corner event s :
  isCorner (mMouseDragState s) = true ->
  let px := inject_Z (QPoint.x (pos event)) in
  let py := inject_Z (QPoint.y (pos event)) in
  let sx := QPointF.x (mStartPos s) in
  let sy := QPointF.y (mStartPos s) in
  mSelection (moveSelection event s) =
    QRectF.mk (if qge px sx then sx else px) (if qge py sy then sy else py)
              (qAbs (px - sx) + (if qge px sx then dprI s else 0))
              (qAbs (py - sy) + (if qge py sy then dprI s else 0)).
Proof.
  intros Hc. cbv zeta. unfold moveSelection. cbv zeta.
  cbn [mMouseDragState set_mMagnifierAllowed set_mMousePos].
  destruct (mMouseDragState s); try discriminate Hc; reflexivity.
Qed.

Lemma cornerResize_rect h a b s :
  isCorner h = true ->
  let ax := inject_Z (QPoint.x a) in
  let ay := inject_Z (QPoint.y a) in
  let bx := inject_Z (QPoint.x b) in
  let by_ := inject_Z (QPoint.y b) in
  cornerResize h a b s =
    QRectF.mk (if qge bx ax then ax else bx) (if qge by_ ay then ay else by_)
              (qAbs (bx - ax) + (if qge bx ax then dprI s else 0))
              (qAbs (by_ - ay) + (if qge by_ ay then dprI s else 0)).
Proof.
  intros Hc. cbv zeta. unfold cornerResize, mouseMoveEvent.
  set (ev := {| pos := b; button := NoButton; leftHeld := true |}).
  destruct (moveShape_selection ev (resizingFrom h a s))
    as (_ & Hm & Hsp & _ & _ & Hd & _ & _).
  rewrite moveSelection_corner by (rewrite Hm; exact Hc).
  cbv zeta. rewrite Hsp, Hd. reflexivity.
Qed.

Lemma qge_inject_Z a b : qge (inject_Z a) (inject_Z b) = (b <=? a)%Z.
Proof.
  unfold qge. destruct (Qlt_le_dec (inject_Z a) (inject_Z b)) as [H | H].
  - rewrite <- Zlt_Qlt in H. symmetry. apply Z.leb_gt. exact H.
  - rewrite <- Zle_Qle in H. symmetry. apply Z.leb_le. exact H.
Qed.

Lemma qAbs_sub_inject_Z a b :
  qAbs (inject_Z a - inject_Z b) == inject_Z (Z.abs (a - b)).
Proof.
  unfold qAbs. destruct (Qlt_le_dec (inject_Z a - inject_Z b) 0) as [H | H].
  - assert (Hlt : inject_Z a < inject_Z b) by lra. rewrite <- Zlt_Qlt in Hlt.
    rewrite Z.abs_neq by lia.
    rewrite inject_Z_opp. unfold Z.sub. rewrite inject_Z_plus, inject_Z_opp. ring.
  - assert (Hle : inject_Z b <= inject_Z a) by lra. rewrite <- Zle_Qle in Hle.
    rewrite Z.abs_eq by lia.
    unfold Z.sub. rewrite inject_Z_plus, inject_Z_opp. ring.
Qed.

(** C6, as stated, fails.  On [selected1] the handle at (400,300) is
    [BottomRight] with anchor (100,100) and the handle at (100,100) is the
    diagonally opposite [TopLeft] with anchor (400,300); resizing between
    these two endpoints gives 301x201 one way and 300x200 the other. *)
Lemma corner_resize_depends_on_direction :
  let P := QPoint.mk 100 100 in
  let R := QPoint.mk 400 300 in
  let pressR := mousePressEvent (leftPress 400 300) selected1 in
  let pressP := mousePressEvent (leftPress 100 100) selected1 in
  mMouseDragState pressR = BottomRight /\ QPointF.eq (mStartPos pressR) (QPointF.of_point P) /\
  mMouseDragState pressP = TopLeft /\ QPointF.eq (mStartPos pressP) (QPointF.of_point R) /\
  oppositeCorner BottomRight = TopLeft /\
  QRectF.eq (mSelection (mouseMoveEvent (leftDrag 400 300) pressR)) (QRectF.mk 100 100 301 201) /\
  QRectF.eq (mSelection (mouseMoveEvent (leftDrag 100 100) pressP)) (QRectF.mk 100 100 300 200) /\
  ~ QRectF.eq
      (QRectF.normalized (cornerResize BottomRight P R selected1))
      (QRectF.normalized (cornerResize (oppositeCorner BottomRight) R P selected1)).
Proof.
  cbv zeta.
  split; [vm_compute; reflexivity |].
  split; [split; vm_compute; reflexivity |].
  split; [vm_compute; reflexivity |].
  split; [split; vm_compute; reflexivity |].
  split; [reflexivity |].
  split; [repeat split; vm_compute; reflexivity |].
  split; [repeat split; vm_compute; reflexivity |].
  intros (_ & _ & Hw & _). vm_compute in Hw. discriminate Hw.
Qed.

Lemma isCorner_opposite h : isCorner h = true -> isCorner (oppositeCorner h) = true.
Proof. destruct h; intros H; try discriminate H; reflexivity. Qed.

Lemma qAbs_nonneg t : 0 <= qAbs t.
Proof. unfold qAbs. destruct (Qlt_le_dec t 0); lra. Qed.

Lemma normalized_nonneg r :
  0 <= QRectF.width r -> 0 <= QRectF.height r -> QRectF.normalized r = r.
Proof.
  intros Hw Hh. unfold QRectF.normalized.
  destruct (Qlt_le_dec (QRectF.width r) 0); [lra |].
  destruct (Qlt_le_dec (QRectF.height r) 0); [lra |].
  destruct r; reflexivity.
Qed.

(** C6 (amended). Resizing from a corner handle between two pointer
    endpoints and resizing from the diagonally opposite corner handle
    between the same endpoints in reverse order yield normalised rectangles
    with the same top-left corner (the coordinate-wise minimum of the
    endpoints); on each axis the extents agree when the endpoints agree on
    that axis, and otherwise the rectangle whose pointer lies after its
    anchor is larger by one device pixel ([dprI] logical pixels). *)
Theorem corner_resize_symmetric_up_to_one_pixel
    (h : MouseState) (a b : QPoint.t) (s : QuickEditor) :
  isCorner h = true ->
  let r1 := cornerResize h a b s in
  let r2 := cornerResize (oppositeCorner h) b a s in
  let ax := QPoint.x a in let ay := QPoint.y a in
  let bx := QPoint.x b in let by_ := QPoint.y b in
  QRectF.x r1 == inject_Z (Z.min ax bx) /\ QRectF.x r2 == inject_Z (Z.min ax bx) /\
  QRectF.y r1 == inject_Z (Z.min ay by_) /\ QRectF.y r2 == inject_Z (Z.min ay by_) /\
  (ax = bx -> QRectF.width r1 == QRectF.width r2) /\
  ((ax < bx)%Z -> QRectF.width r1 == QRectF.width r2 + dprI s) /\
  ((bx < ax)%Z -> QRectF.width r2 == QRectF.width r1 + dprI s) /\
  (ay = by_ -> QRectF.height r1 == QRectF.height r2) /\
  ((ay < by_)%Z -> QRectF.height r1 == QRectF.height r2 + dprI s) /\
  ((by_ < ay)%Z -> QRectF.height r2 == QRectF.height r1 + dprI s) /\
  (0 <= dprI s -> QRectF.normalized r1 = r1 /\ QRectF.normalized r2 = r2).
Proof.
  intros Hc. cbv zeta.
  rewrite (cornerResize_rect h a b s Hc).
  rewrite (cornerResize_rect (oppositeCorner h) b a s (isCorner_opposite h Hc)).
  cbv zeta. cbn [QRectF.x QRectF.y QRectF.width QRectF.height].
  rewrite !qge_inject_Z.
  assert (Ex : Z.abs (QPoint.x a - QPoint.x b) = Z.abs (QPoint.x b - QPoint.x a)) by lia.
  assert (Ey : Z.abs (QPoint.y a - QPoint.y b) = Z.abs (QPoint.y b - QPoint.y a)) by lia.
  repeat match goal with |- _ /\ _ => split end.
  - destruct (QPoint.x a <=? QPoint.x b)%Z eqn:E;
      [apply Z.leb_le in E; rewrite Z.min_l by lia | apply Z.leb_gt in E; rewrite Z.min_r by lia];
      reflexivity.
  - destruct (QPoint.x b <=? QPoint.x a)%Z eqn:E;
      [apply Z.leb_le in E; rewrite Z.min_r by lia | apply Z.leb_gt in E; rewrite Z.min_l by lia];
      reflexivity.
  - destruct (QPoint.y a <=? QPoint.y b)%Z eqn:E;
      [apply Z.leb_le in E; rewrite Z.min_l by lia | apply Z.leb_gt in E; rewrite Z.min_r by lia];
      reflexivity.
  - destruct (QPoint.y b <=? QPoint.y a)%Z eqn:E;
      [apply Z.leb_le in E; rewrite Z.min_r by lia | apply Z.leb_gt in E; rewrite Z.min_l by lia];
      reflexivity.
  - intros H. rewrite !qAbs_sub_inject_Z, Ex, H, !Z.leb_refl. reflexivity.
  - intros H. rewrite !qAbs_sub_inject_Z, Ex.
    replace (QPoint.x a <=? QPoint.x b)%Z with true by (symmetry; apply Z.leb_le; lia).
    replace (QPoint.x b <=? QPoint.x a)%Z with false by (symmetry; apply Z.leb_gt; lia).
    ring.
  - intros H. rewrite !qAbs_sub_inject_Z, Ex.
    replace (QPoint.x a <=? QPoint.x b)%Z with false by (symmetry; apply Z.leb_gt; lia).
    replace (QPoint.x b <=? QPoint.x a)%Z with true by (symmetry; apply Z.leb_le; lia).
    ring.
  - intros H. rewrite !qAbs_sub_inject_Z, Ey, H, !Z.leb_refl. reflexivity.
  - intros H. rewrite !qAbs_sub_inject_Z, Ey.
    replace (QPoint.y a <=? QPoint.y b)%Z with true by (symmetry; apply Z.leb_le; lia).
    replace (QPoint.y b <=? QPoint.y a)%Z with false by (symmetry; apply Z.leb_gt; lia).
    ring.
  - intros H. rewrite !qAbs_sub_inject_Z, Ey.
    replace (QPoint.y a <=? QPoint.y b)%Z with false by (symmetry; apply Z.leb_gt; lia).
    replace (QPoint.y b <=? QPoint.y a)%Z with true by (symmetry; apply Z.leb_le; lia).
    ring.
  - intros Hd.
    split; apply normalized_nonneg; cbn [QRectF.width QRectF.height];
      match goal with
      | |- 0 <= qAbs ?t + (if ?c then _ else _) =>
          pose proof (qAbs_nonneg t); destruct c; lra
      end.
Qed.

(** Witness for the amended C6: the two endpoints of the refutation. *)
Lemma corner_resize_symmetric_up_to_one_pixel_witness :
  isCorner BottomRight = true /\
  QRectF.width (cornerResize BottomRight (QPoint.mk 100 100) (QPoint.mk 400 300)
                  selected1)
  == QRectF.width (cornerResize (oppositeCorner BottomRight) (QPoint.mk 400 300)
                     (QPoint.mk 100 100) selected1) + dprI selected1.
Proof.
  pose proof (corner_resize_symmetric_up_to_one_pixel BottomRight
                (QPoint.mk 100 100) (QPoint.mk 400 300) selected1 eq_refl) as H.
  cbv zeta in H. destruct H as (_ & _ & _ & _ & _ & Hlt & _).
  split; [reflexivity |]. apply Hlt. cbn. lia.
Defined.

(** ** Re-arming the tool after undo *)

Lemma undo_disarms s :
  mEditToolState (undo s) = NoEdit /\
  timers (undo s) = timers s ++ [(undoRearmDelay, mEditToolState s)].
Proof.
  unfold undo. cbv zeta.
  change (history (set_mEditToolState NoEdit s)) with (history s).
  destruct (history s); split; reflexivity.
Qed.

(** A press while no tool is armed does not touch the pending shape. *)
Lemma press_while_disarmed event s :
  mEditToolState s = NoEdit ->
  let s' := mousePressEvent event s in
  mLine s' = mLine s /\ mRect s' = mRect s /\ mEditToolState s' = NoEdit /\
  sameOutputs s s'.
Proof.
  intros Ht. cbv zeta. split; [| split; [| split]]; try apply mousePressEvent_outputs;
    unfold mousePressEvent; rewrite Ht; cbn;
    destruct (button event); try assumption; try reflexivity;
    destruct (mouseLocation (mSelection s) (QPointF.of_point (pos event)));
    try assumption; reflexivity.
Qed.


(** C8, as stated, fails.  After two committed lines the undo disarms the
    tool and queues the re-arming timer; a press at (150,150) before the
    timer expires does not cancel it; the timer then expires in the middle
    of the gesture, and the release of that very gesture commits a line,
    which starts at the stale point (150,200) of the undone shape. *)
Lemma press_before_rearm_still_draws :
  let s1 := undo twoCommits in
  let s2 := mousePressEvent (leftPress 150 150) s1 in
  let s3 := timerExpired s2 in
  let s4 := mouseMoveEvent (leftDrag 250 220) s3 in
  let s5 := mouseReleaseEvent inkPainter (leftRelease 250 220) s4 in
  mEditToolState s1 = NoEdit /\
  timers s1 = [(200%Z, DrawLine)] /\
  timers s2 = [(200%Z, DrawLine)] /\
  mEditToolState s3 = DrawLine /\
  history s5 = mPixmap s2 :: history s2 /\
  mPixmap s5 <> mPixmap s2 /\
  QPointF.eq (QLineF.p1 (mLine s5)) (QPointF.mk 150 200) /\
  QPointF.eq (QLineF.p2 (mLine s5)) (QPointF.mk 250 220).
Proof.
  cbv zeta.
  split; [vm_compute; reflexivity |].
  split; [vm_compute; reflexivity |].
  split; [vm_compute; reflexivity |].
  split; [vm_compute; reflexivity |].
  split; [vm_compute; reflexivity |].
  split; [vm_compute; discriminate |].
  split; split; vm_compute; reflexivity.
Qed.

(** ** Containment of the selection in the canvas *)

Lemma ratio_positive n dpr dI : integralRatio n dpr dI -> 1 <= dpr /\ 0 < dI /\ dI <= 1.
Proof.
  intros (Hn & Hd & Hi).
  assert (H1 : 1 <= dpr).
  { rewrite Hd. change 1 with (inject_Z 1). rewrite <- Zle_Qle. exact Hn. }
  assert (Hpos : 0 < dI).
  { destruct (Qlt_le_dec 0 dI) as [H | H]; [exact H | exfalso].
    assert (dI * dpr <= 0) by nra. lra. }
  split; [exact H1 |]. split; [exact Hpos |]. nra.
Qed.

Lemma aligned_comp dpr v v' : v == v' -> aligned dpr v -> aligned dpr v'.
Proof. intros E [k Hk]. exists k. rewrite <- E. exact Hk. Qed.

Lemma aligned_zero dpr : aligned dpr 0.
Proof. exists 0%Z. ring. Qed.

Lemma aligned_plus dpr a b : aligned dpr a -> aligned dpr b -> aligned dpr (a + b).
Proof.
  intros [ka Ha] [kb Hb]. exists (ka + kb)%Z. rewrite inject_Z_plus, <- Ha, <- Hb. ring.
Qed.

Lemma aligned_opp dpr a : aligned dpr a -> aligned dpr (- a).
Proof. intros [ka Ha]. exists (- ka)%Z. rewrite inject_Z_opp, <- Ha. ring. Qed.

Lemma aligned_minus dpr a b : aligned dpr a -> aligned dpr b -> aligned dpr (a - b).
Proof. intros Ha Hb. apply aligned_plus; [exact Ha | apply aligned_opp, Hb]. Qed.

Lemma aligned_qAbs dpr a : aligned dpr a -> aligned dpr (qAbs a).
Proof. intros Ha. unfold qAbs. destruct (Qlt_le_dec a 0); [apply aligned_opp |]; exact Ha. Qed.

Lemma aligned_pointer n dpr dI p : integralRatio n dpr dI -> aligned dpr (inject_Z p).
Proof.
  intros (_ & Hd & _). exists (p * n)%Z. rewrite Hd, inject_Z_mult. reflexivity.
Qed.

Lemma aligned_dprI n dpr dI : integralRatio n dpr dI -> aligned dpr dI.
Proof. intros (_ & _ & Hi). exists 1%Z. exact Hi. Qed.

Lemma aligned_scaled n dpr dI k : integralRatio n dpr dI -> aligned dpr (inject_Z k * dI).
Proof.
  intros (_ & _ & Hi). exists k.
  transitivity (inject_Z k * (dI * dpr)); [ring | rewrite Hi; ring].
Qed.

Lemma pointer_in_Q p W :
  (0 <= p <= W - 1)%Z -> 0 <= inject_Z p /\ inject_Z p <= inject_Z W - 1.
Proof.
  intros [H0 H1]. split.
  - change 0 with (inject_Z 0). rewrite <- Zle_Qle. exact H0.
  - assert (H : inject_Z p <= inject_Z (W - 1)) by (rewrite <- Zle_Qle; exact H1).
    unfold Z.sub in H. rewrite inject_Z_plus, inject_Z_opp in H.
    change (inject_Z 1) with 1 in H. lra.
Qed.

Ltac solve_aligned :=
  repeat first [ assumption
               | apply aligned_zero
               | apply aligned_plus
               | apply aligned_minus
               | apply aligned_opp ].

(** Resize: the axis spans anchor and pointer, one device pixel more when
    the pointer is at or after the anchor. *)
Lemma axis_span_resize n dpr dI W a p :
  integralRatio n dpr dI ->
  aligned dpr a -> 0 <= a <= inject_Z W -> (0 <= p <= W - 1)%Z ->
  axisOK dpr W (if qge (inject_Z p) a then a else inject_Z p)
               (qAbs (inject_Z p - a) + (if qge (inject_Z p) a then dI else 0)).
Proof.
  intros Hr Ha Hab Hp.
  destruct (ratio_positive n dpr dI Hr) as (_ & HdI0 & HdI1).
  destruct (pointer_in_Q p W Hp) as [Hp0 Hp1].
  pose proof (aligned_pointer n dpr dI p Hr) as Hpa.
  pose proof (aligned_dprI n dpr dI Hr) as Hda.
  unfold axisOK, qge, qAbs.
  destruct (Qlt_le_dec (inject_Z p) a) as [Hlt | Hge];
    destruct (Qlt_le_dec (inject_Z p - a) 0) as [Hneg | Hpos]; try lra;
    repeat match goal with |- _ /\ _ => split end; try lra; solve_aligned.
Qed.

(** New selection: the axis spans anchor and pointer, always one device
    pixel more. *)
Lemma axis_span_create n dpr dI W a p :
  integralRatio n dpr dI ->
  aligned dpr a -> 0 <= a <= inject_Z W - 1 -> (0 <= p <= W - 1)%Z ->
  axisOK dpr W (qMin (inject_Z p) a) (qAbs (inject_Z p - a) + dI).
Proof.
  intros Hr Ha Hab Hp.
  destruct (ratio_positive n dpr dI Hr) as (_ & HdI0 & HdI1).
  destruct (pointer_in_Q p W Hp) as [Hp0 Hp1].
  pose proof (aligned_pointer n dpr dI p Hr) as Hpa.
  pose proof (aligned_dprI n dpr dI Hr) as Hda.
  unfold axisOK, qMin, qAbs.
  destruct (Qlt_le_dec (inject_Z p) a) as [Hlt | Hge];
    destruct (Qlt_le_dec (inject_Z p - a) 0) as [Hneg | Hpos]; try lra;
    repeat match goal with |- _ /\ _ => split end; try lra; solve_aligned.
Qed.

Lemma clampAxis_bounds v M : (0 <= M)%Z -> (0 <= clampAxis v M <= M)%Z.
Proof.
  intros HM. unfold clampAxis. cbv zeta.
  destruct (Z.max 0 v =? 0)%Z eqn:E; cbn.
  - apply Z.eqb_eq in E. lia.
  - apply Z.eqb_neq in E. lia.
Qed.

(** Drag: the clamped device coordinate keeps the axis inside. *)
Lemma axis_drag n dpr dI W x w v :
  integralRatio n dpr dI ->
  axisOK dpr W x w ->
  axisOK dpr W (inject_Z (clampAxis v (qRound ((inject_Z W - w) * dpr))) * dI) w.
Proof.
  intros Hr (Hxa & Hwa & Hx0 & Hw0 & Hxw).
  destruct (ratio_positive n dpr dI Hr) as (Hdpr & HdI0 & HdI1).
  pose proof Hr as (Hn & Hd & Hi).
  destruct Hwa as [kw Hkw].
  assert (HM : (inject_Z W - w) * dpr == inject_Z (W * n - kw)).
  { unfold Z.sub. rewrite inject_Z_plus, inject_Z_opp, inject_Z_mult, <- Hkw, <- Hd. ring. }
  rewrite (qRound_integral _ _ HM).
  set (M := (W * n - kw)%Z) in *.
  assert (HM0 : (0 <= M)%Z).
  { rewrite Zle_Qle, <- HM. change (inject_Z 0) with 0. nra. }
  pose proof (clampAxis_bounds v M HM0) as [Hc0 Hc1].
  set (X := clampAxis v M) in *.
  assert (HX0 : 0 <= inject_Z X) by (change 0 with (inject_Z 0); rewrite <- Zle_Qle; exact Hc0).
  assert (HX1 : inject_Z X <= (inject_Z W - w) * dpr) by (rewrite HM, <- Zle_Qle; exact Hc1).
  unfold axisOK. split; [apply (aligned_scaled n dpr dI X Hr) |].
  split; [exists kw; exact Hkw |].
  split; [nra |]. split; [exact Hw0 |].
  assert (Hscaled : inject_Z X * dI <= (inject_Z W - w) * dpr * dI) by nra.
  assert (Hback : (inject_Z W - w) * dpr * dI == inject_Z W - w).
  { transitivity ((inject_Z W - w) * (dI * dpr)); [ring | rewrite Hi; ring]. }
  rewrite Hback in Hscaled. lra.
Qed.

(** *** What each handler does to geometry, selection, mode and anchor *)

Lemma selectionInv_frame s s' :
  sameGeometry s s' -> sameSelection s s' -> selectionInv s -> selectionInv s'.
Proof.
  intros (G1 & G2 & G3 & G4) (S1 & S2 & S3).
  unfold selectionInv, anchorOK. rewrite G1, G3, G4, S1, S2, S3. tauto.
Qed.

Lemma acceptSelection_frame s :
  sameGeometry s (acceptSelection s) /\ sameSelection s (acceptSelection s).
Proof.
  unfold acceptSelection, emit.
  destruct (negb (QRectF.isEmpty (mSelection s))); repeat split.
Qed.

Lemma moveShape_frame event s :
  sameGeometry s (moveShape event s) /\ sameSelection s (moveShape event s).
Proof.
  destruct (moveShape_selection event s) as (A & B & C & _ & D & E & F & G).
  repeat split; assumption.
Qed.

Lemma moveSelection_selection event s :
  let px := inject_Z (QPoint.x (pos event)) in
  let py := inject_Z (QPoint.y (pos event)) in
  let sx := QPointF.x (mStartPos s) in
  let sy := QPointF.y (mStartPos s) in
  let sel := mSelection s in
  mSelection (moveSelection event s) =
    match mMouseDragState s with
    | MS_None => sel
    | TopLeft | TopRight | BottomRight | BottomLeft =>
        QRectF.mk (if qge px sx then sx else px) (if qge py sy then sy else py)
                  (qAbs (px - sx) + (if qge px sx then dprI s else 0))
                  (qAbs (py - sy) + (if qge py sy then dprI s else 0))
    | Outside =>
        QRectF.mk (qMin px sx) (qMin py sy) (qAbs (px - sx) + dprI s) (qAbs (py - sy) + dprI s)
    | Top | Bottom =>
        QRectF.mk (QRectF.x sel) (if qge py sy then sy else py) (QRectF.width sel)
                  (qAbs (py - sy) + (if qge py sy then dprI s else 0))
    | Right | Left =>
        QRectF.mk (if qge px sx then sx else px) (QRectF.y sel)
                  (qAbs (px - sx) + (if qge px sx then dprI s else 0)) (QRectF.height sel)
    | Inside =>
        let target :=
          dragTarget (QPointF.of_point (pos event))
            (set_mMagnifierAllowed true (set_mMousePos (QPointF.of_point (pos event)) s)) in
        QRectF.mk (inject_Z (clampAxis (QPoint.x target) (realMaxX s)) * dprI s)
                  (inject_Z (clampAxis (QPoint.y target) (realMaxY s)) * dprI s)
                  (QRectF.width sel) (QRectF.height sel)
    end.
Proof.
  cbv zeta. unfold moveSelection. cbv zeta.
  cbn [mMouseDragState set_mMagnifierAllowed set_mMousePos].
  destruct (mMouseDragState s); try reflexivity.
  match goal with
  | |- context [dragSelection ?p ?st] => destruct (dragSelection_eq p st) as [a E]; rewrite E
  end.
  reflexivity.
Qed.

Lemma moveSelection_frame event s :
  sameGeometry s (moveSelection event s) /\
  mMouseDragState (moveSelection event s) = mMouseDragState s /\
  (mMouseDragState s <> Inside -> mStartPos (moveSelection event s) = mStartPos s).
Proof.
  unfold moveSelection. cbv zeta.
  cbn [mMouseDragState set_mMagnifierAllowed set_mMousePos].
  destruct (mMouseDragState s) eqn:Em;
    try (split; [repeat split | split; [exact Em | intros _; reflexivity]]; fail).
  match goal with
  | |- context [dragSelection ?p ?st] => destruct (dragSelection_eq p st) as [a E]; rewrite E
  end.
  split; [repeat split | split; [exact Em | intros H; exfalso; apply H; reflexivity]].
Qed.

Lemma moveSelection_inv n event s :
  integralRatio n (devicePixelRatioF s) (dprI s) ->
  pointerInside s event ->
  selectionInv s ->
  selectionInv (moveSelection event s).
Proof.
  intros Hr [Hpx Hpy] [[HX HY] Ha].
  destruct (moveSelection_frame event s) as ((G1 & G2 & G3 & G4) & Hm & Hs).
  unfold selectionInv. split.
  - rewrite G1, G3, G4, moveSelection_selection. cbv zeta.
    unfold anchorOK in Ha. cbv zeta in Ha.
    unfold rectOK.
    destruct (mMouseDragState s); cbn [QRectF.x QRectF.y QRectF.width QRectF.height].
    + split; assumption.
    + unfold realMaxX, realMaxY.
      split; [apply (axis_drag n _ _ _ (QRectF.x (mSelection s)))
             | apply (axis_drag n _ _ _ (QRectF.y (mSelection s)))]; assumption.
    + destruct Ha as (A1 & A2 & B1 & B2).
      split; apply (axis_span_create n); assumption.
    + destruct Ha as (A1 & A2 & B1 & B2).
      split; apply (axis_span_resize n); assumption.
    + destruct Ha as (A1 & A2 & B1 & B2).
      split; [assumption | apply (axis_span_resize n); assumption].
    + destruct Ha as (A1 & A2 & B1 & B2).
      split; apply (axis_span_resize n); assumption.
    + destruct Ha as (A1 & A2 & B1 & B2).
      split; [apply (axis_span_resize n); assumption | assumption].
    + destruct Ha as (A1 & A2 & B1 & B2).
      split; apply (axis_span_resize n); assumption.
    + destruct Ha as (A1 & A2 & B1 & B2).
      split; [assumption | apply (axis_span_resize n); assumption].
    + destruct Ha as (A1 & A2 & B1 & B2).
      split; apply (axis_span_resize n); assumption.
    + destruct Ha as (A1 & A2 & B1 & B2).
      split; [apply (axis_span_resize n); assumption | assumption].
  - unfold anchorOK in *. cbv zeta in *. rewrite G1, G3, G4, Hm.
    destruct (mMouseDragState s) eqn:Em; try exact I;
      rewrite Hs by discriminate; exact Ha.
Qed.

Lemma mouseMoveEvent_inv n event s :
  integralRatio n (devicePixelRatioF s) (dprI s) ->
  pointerInside s event ->
  selectionInv s ->
  selectionInv (mouseMoveEvent event s).
Proof.
  intros Hr Hp Hi. unfold mouseMoveEvent.
  destruct (moveShape_frame event s) as [G S].
  pose proof G as (G1 & G2 & G3 & G4).
  apply (moveSelection_inv n).
  - rewrite G1, G2. exact Hr.
  - unfold pointerInside. rewrite G3, G4. exact Hp.
  - apply (selectionInv_frame s); assumption.
Qed.

Lemma mousePressEvent_geometry event s :
  sameGeometry s (mousePressEvent event s) /\
  mSelection (mousePressEvent event s) = mSelection s.
Proof.
  unfold mousePressEvent.
  destruct (mEditToolState s); cbn; try (repeat split; fail);
    destruct (button event); cbn; try (repeat split; fail);
    destruct (mouseLocation (mSelection s) (QPointF.of_point (pos event)));
    repeat split.
Qed.

(** Mode and anchor chosen by a press. *)
Lemma mousePressEvent_anchor event s :
  (mMouseDragState (mousePressEvent event s) = MS_None) \/
  (mousePressEvent event s = s) \/
  (let p := QPointF.of_point (pos event) in
   let sel := mSelection s in
   let loc := mouseLocation sel p in
   mMouseDragState (mousePressEvent event s) = loc /\
   mStartPos (mousePressEvent event s) =
     match loc with
     | Outside | Inside => p
     | Top | Left | TopLeft => QRectF.bottomRight sel
     | Bottom | Right | BottomRight => QRectF.topLeft sel
     | TopRight => QRectF.bottomLeft sel
     | BottomLeft => QRectF.topRight sel
     | MS_None => mStartPos s
     end).
Proof.
  unfold mousePressEvent.
  destruct (mEditToolState s); cbn;
    try (left; destruct (mEditToolState s); reflexivity).
  destruct (button event); cbn; try (right; left; reflexivity).
  right; right.
  destruct (mouseLocation (mSelection s) (QPointF.of_point (pos event))); split; reflexivity.
Qed.

Lemma corner_anchor_ok dpr W x w :
  axisOK dpr W x w ->
  (aligned dpr x /\ 0 <= x <= inject_Z W) /\
  (aligned dpr (x + w) /\ 0 <= x + w <= inject_Z W).
Proof.
  intros (Hxa & Hwa & Hx0 & Hw0 & Hxw).
  repeat split; try lra; try assumption. apply aligned_plus; assumption.
Qed.

Lemma mousePressEvent_inv n event s :
  integralRatio n (devicePixelRatioF s) (dprI s) ->
  pointerInside s event ->
  selectionInv s ->
  selectionInv (mousePressEvent event s).
Proof.
  intros Hr [Hpx Hpy] Hinv.
  destruct (mousePressEvent_geometry event s) as ((G1 & G2 & G3 & G4) & Hsel).
  destruct (mousePressEvent_anchor event s) as [Hnone | [Hsame | Hloc]].
  - destruct Hinv as [Hrect _]. unfold selectionInv, anchorOK.
    rewrite G1, G3, G4, Hsel, Hnone. split; [exact Hrect | exact I].
  - rewrite Hsame. exact Hinv.
  - cbv zeta in Hloc. destruct Hloc as [Hmode Hanchor].
    destruct Hinv as [Hrect Hold]. pose proof Hrect as [HX HY].
    destruct (corner_anchor_ok _ _ _ _ HX) as [[Ax0 [Bx0 Cx0]] [Ax1 [Bx1 Cx1]]].
    destruct (corner_anchor_ok _ _ _ _ HY) as [[Ay0 [By0 Cy0]] [Ay1 [By1 Cy1]]].
    destruct (pointer_in_Q _ _ Hpx) as [Px0 Px1].
    destruct (pointer_in_Q _ _ Hpy) as [Py0 Py1].
    pose proof (aligned_pointer n _ _ (QPoint.x (pos event)) Hr) as Pxa.
    pose proof (aligned_pointer n _ _ (QPoint.y (pos event)) Hr) as Pya.
    unfold selectionInv, anchorOK. cbv zeta.
    rewrite G1, G3, G4, Hsel, Hmode, Hanchor.
    split; [exact Hrect |].
    destruct (mouseLocation (mSelection s) (QPointF.of_point (pos event)));
      try exact I;
      cbn [QPointF.x QPointF.y QPointF.of_point QRectF.bottomRight QRectF.topLeft
           QRectF.bottomLeft QRectF.topRight];
      repeat match goal with |- _ /\ _ => split end; assumption.
Qed.

Lemma mouseReleaseEvent_state drawElements event s :
  sameGeometry s (mouseReleaseEvent drawElements event s) /\
  mMouseDragState (mouseReleaseEvent drawElements event s) = MS_None /\
  (mSelection (mouseReleaseEvent drawElements event s) = mSelection s \/
   mSelection (mouseReleaseEvent drawElements event s) =
     QRectF.mk (QRectF.x (mSelection s)) (QRectF.y (mSelection s)) 0 0).
Proof.
  unfold mouseReleaseEvent.
  destruct (button event); cbn.
  - destruct (mEditToolState s); cbn;
      try (split; [repeat split | split; [reflexivity | left; reflexivity]]; fail).
    destruct (mMouseDragState s); cbn;
      try (split; [repeat split | split; [reflexivity | left; reflexivity]]; fail).
    destruct (mReleaseToCapture s);
      [| split; [repeat split | split; [reflexivity | left; reflexivity]]].
    destruct (acceptSelection_frame (set_mDisableArrowKeys false s))
      as ((G1 & G2 & G3 & G4) & (S1 & _)).
    split; [repeat split; assumption | split; [reflexivity | left; exact S1]].
  - split; [repeat split | split; [reflexivity | right; reflexivity]].
  - split; [repeat split | split; [reflexivity | left; reflexivity]].
  - split; [repeat split | split; [reflexivity | left; reflexivity]].
Qed.

Lemma mouseReleaseEvent_inv drawElements event s :
  selectionInv s -> selectionInv (mouseReleaseEvent drawElements event s).
Proof.
  intros [[HX HY] _].
  destruct (mouseReleaseEvent_state drawElements event s)
    as ((G1 & G2 & G3 & G4) & Hm & Hsel).
  unfold selectionInv, anchorOK. rewrite G1, G3, G4, Hm.
  split; [| exact I].
  destruct Hsel as [Hsel | Hsel]; rewrite Hsel; [split; assumption |].
  destruct HX as (Hxa & Hwa & Hx0 & Hw0 & Hxw).
  destruct HY as (Hya & Hha & Hy0 & Hh0 & Hyh).
  unfold rectOK, axisOK. cbn [QRectF.x QRectF.y QRectF.width QRectF.height].
  repeat match goal with |- _ /\ _ => split end;
    try assumption; try apply aligned_zero; lra.
Qed.

Lemma handle_other_frame drawElements ev s :
  match ev with
  | KeyRelease _ | ToolClicked _ | UndoClicked | CancelClicked | OkClicked | TimerExpired
  | MouseDoubleClick _ => True
  | _ => False
  end ->
  sameGeometry s (handle drawElements ev s) /\ sameSelection s (handle drawElements ev s).
Proof.
  destruct ev as [e | e | e | e | e | e | st | | | |]; intros H; try contradiction;
    cbn [handle].
  - unfold keyReleaseEvent.
    destruct (mToggleMagnifier s && negb (shiftModifier e)); repeat split.
  - unfold mouseDoubleClickEvent. destruct (button e); try (repeat split; fail).
    destruct (QRectF.contains (mSelection s) (QPointF.of_point (pos e)));
      [apply acceptSelection_frame | repeat split].
  - unfold toggleDrawState.
    destruct (EditToolState_eqb (mEditToolState s) st); repeat split.
  - unfold undo. cbv zeta.
    change (history (set_mEditToolState NoEdit s)) with (history s).
    destruct (history s); repeat split.
  - repeat split.
  - apply acceptSelection_frame.
  - unfold timerExpired. destruct (timers s) as [| [d st] rest]; repeat split.
Qed.

Lemma handle_inv n drawElements ev s :
  integralRatio n (devicePixelRatioF s) (dprI s) ->
  dragInput s ev ->
  selectionInv s ->
  selectionInv (handle drawElements ev s) /\ sameGeometry s (handle drawElements ev s).
Proof.
  intros Hr Hin Hinv.
  assert (Hother : forall ev',
             sameGeometry s (handle drawElements ev' s) /\
             sameSelection s (handle drawElements ev' s) ->
             selectionInv (handle drawElements ev' s) /\
             sameGeometry s (handle drawElements ev' s)).
  { intros ev' [G S]. split; [apply (selectionInv_frame s); assumption | exact G]. }
  destruct ev as [e | e | e | e | e | e | st | | | |]; cbn [dragInput] in Hin;
    try contradiction.
  - apply Hother, handle_other_frame. exact I.
  - cbn [handle].
    split; [apply (mousePressEvent_inv n); assumption | apply mousePressEvent_geometry].
  - cbn [handle]. split; [apply (mouseMoveEvent_inv n); assumption |].
    unfold mouseMoveEvent.
    destruct (moveShape_frame e s) as [(A1 & A2 & A3 & A4) _].
    destruct (moveSelection_frame e (moveShape e s)) as [(B1 & B2 & B3 & B4) _].
    repeat split; congruence.
  - cbn [handle].
    split; [apply mouseReleaseEvent_inv; assumption | apply mouseReleaseEvent_state].
  - apply Hother, handle_other_frame. exact I.
  - apply Hother, handle_other_frame. exact I.
  - apply Hother, handle_other_frame. exact I.
  - apply Hother, handle_other_frame. exact I.
  - apply Hother, handle_other_frame. exact I.
  - apply Hother, handle_other_frame. exact I.
Qed.

Lemma dragInput_geometry s s' ev : sameGeometry s s' -> dragInput s ev -> dragInput s' ev.
Proof.
  intros (_ & _ & G3 & G4). unfold dragInput, pointerInside. rewrite G3, G4. tauto.
Qed.

Lemma run_inv n drawElements evs :
  forall s,
    integralRatio n (devicePixelRatioF s) (dprI s) ->
    selectionInv s ->
    Forall (dragInput s) evs ->
    selectionInv (run drawElements evs s) /\ sameGeometry s (run drawElements evs s).
Proof.
  induction evs as [| ev evs IH]; intros s Hr Hinv Hall.
  - split; [exact Hinv | repeat split].
  - inversion Hall as [| ? ? Hev Hrest]; subst.
    destruct (handle_inv n drawElements ev s Hr Hev Hinv) as [Hinv' G].
    pose proof G as (G1 & G2 & G3 & G4).
    change (run drawElements (ev :: evs) s)
      with (run drawElements evs (handle drawElements ev s)).
    destruct (IH (handle drawElements ev s)) as [Hfin (F1 & F2 & F3 & F4)].
    + rewrite G1, G2. exact Hr.
    + exact Hinv'.
    + eapply Forall_impl; [| exact Hrest]. intros a. apply dragInput_geometry, G.
    + split; [exact Hfin | repeat split; congruence].
Qed.

Lemma selectionInv_projection n cw ch s :
  integralRatio n (devicePixelRatioF s) (dprI s) ->
  widgetWithinCanvas cw ch s ->
  selectionInv s -> projectionInCanvas cw ch s.
Proof.
  intros Hr [Hcw Hch] [[HX HY] _].
  destruct (ratio_positive _ _ _ Hr) as (Hdpr & _ & _).
  destruct HX as (_ & _ & Hx0 & Hw0 & Hxw).
  destruct HY as (_ & _ & Hy0 & Hh0 & Hyh).
  unfold projectionInCanvas. cbv zeta.
  repeat match goal with |- _ /\ _ => split end; nra.
Qed.

(** The constructed editor satisfies the invariant, and its canvas
    [width * dpr] x [height * dpr] lies within the captured raster. *)
Lemma construct_inv n pixmap mag rel saved :
  (1 <= n)%Z -> (0 <= pix_width pixmap)%Z -> (0 <= pix_height pixmap)%Z ->
  let s := construct pixmap (inject_Z n) mag rel saved in
  integralRatio n (devicePixelRatioF s) (dprI s) /\
  selectionInv s /\
  widgetWithinCanvas (pix_width pixmap) (pix_height pixmap) s.
Proof.
  intros Hn Hw Hh. cbv zeta.
  assert (Hnq : 1 <= inject_Z n) by (change 1 with (inject_Z 1); rewrite <- Zle_Qle; exact Hn).
  assert (Hinv : 1 / inject_Z n * inject_Z n == 1) by (field; lra).
  assert (Hpos : 0 < 1 / inject_Z n).
  { destruct (Qlt_le_dec 0 (1 / inject_Z n)) as [H | H]; [exact H | exfalso].
    assert (1 / inject_Z n * inject_Z n <= 0) by nra. lra. }
  assert (Hfloor : forall p : Z, (0 <= p)%Z ->
             (0 <= to_int (inject_Z p * (1 / inject_Z n)))%Z /\
             inject_Z (to_int (inject_Z p * (1 / inject_Z n))) * inject_Z n <= inject_Z p).
  { intros p Hp.
    assert (Hpq : 0 <= inject_Z p) by (change 0 with (inject_Z 0); rewrite <- Zle_Qle; exact Hp).
    assert (Hq : 0 <= inject_Z p * (1 / inject_Z n)) by nra.
    rewrite (to_int_nonneg _ Hq). split.
    - change 0%Z with (Qfloor 0). apply Qfloor_resp_le. exact Hq.
    - pose proof (Qfloor_le (inject_Z p * (1 / inject_Z n))) as Hf.
      assert (Hs : inject_Z (Qfloor (inject_Z p * (1 / inject_Z n))) * inject_Z n
                   <= inject_Z p * (1 / inject_Z n) * inject_Z n) by nra.
      assert (Hb : inject_Z p * (1 / inject_Z n) * inject_Z n == inject_Z p).
      { transitivity (inject_Z p * (1 / inject_Z n * inject_Z n)); [ring | rewrite Hinv; ring]. }
      rewrite Hb in Hs. exact Hs. }
  destruct (Hfloor _ Hw) as [Hw0 Hw1]. destruct (Hfloor _ Hh) as [Hh0 Hh1].
  split; [split; [exact Hn | split; [reflexivity | exact Hinv]] |].
  split; [| split; assumption].
  split; [| exact I].
  unfold rectOK, axisOK. cbn [construct width height mSelection devicePixelRatioF QRectF.null
                              QRectF.x QRectF.y QRectF.width QRectF.height].
  assert (0 <= inject_Z (to_int (inject_Z (pix_width pixmap) * (1 / inject_Z n))))
    by (change 0 with (inject_Z 0); rewrite <- Zle_Qle; exact Hw0).
  assert (0 <= inject_Z (to_int (inject_Z (pix_height pixmap) * (1 / inject_Z n))))
    by (change 0 with (inject_Z 0); rewrite <- Zle_Qle; exact Hh0).
  repeat match goal with |- _ /\ _ => split end; try apply aligned_zero; lra.
Qed.

(** C1, as stated, fails: the branches that create or resize a selection
    do not clamp.  On the 1000x800 canvas at ratio 1, a new selection
    started at (100,100) follows the pointer to (1200,900), beyond the
    widget, and becomes (100,100,1101,801). *)
Lemma pointer_beyond_canvas_takes_selection_out :
  let s := run inkPainter [MousePress (leftPress 100 100); MouseMove (leftDrag 1200 900)]
             editor1 in
  width s = 1000%Z /\ height s = 800%Z /\ devicePixelRatioF s == 1 /\
  pix_width (mPixmap s) = 1000%Z /\ pix_height (mPixmap s) = 800%Z /\
  mMouseDragState s = Outside /\
  QRectF.eq (mSelection s) (QRectF.mk 100 100 1101 801) /\
  ~ projectionInCanvas 1000 800 s.
Proof.
  cbv zeta.
  split; [vm_compute; reflexivity |]. split; [vm_compute; reflexivity |].
  split; [vm_compute; reflexivity |]. split; [vm_compute; reflexivity |].
  split; [vm_compute; reflexivity |]. split; [vm_compute; reflexivity |].
  split; [repeat split; vm_compute; reflexivity |].
  intros (_ & _ & _ & _ & Hx & _). vm_compute in Hx. apply Hx. reflexivity.
Qed.

(** C1 (amended). With an integral device pixel ratio, starting from a
    selection that is device aligned and inside the canvas (the constructed
    editor in particular), for every pointer-drag sequence whose pointer
    positions lie over the widget (creating a selection, resizing from any
    of the eight handles, dragging it, interleaved with any input but key
    presses), after every event of the sequence the device-space projection
    of the selection rectangle is contained in the canvas bounds
    [0,0]-[canvasWidth,canvasHeight], the canvas being at least as large
    as the widget scaled by the ratio. *)
Theorem selection_stays_in_canvas
    (drawElements : bool -> EditToolState -> QLineF.t -> QRectF.t -> Z -> QColor ->
                    string -> QPixmap -> QPixmap)
    (n canvasWidth canvasHeight : Z) (evs : list Event) (s : QuickEditor) :
  integralRatio n (devicePixelRatioF s) (dprI s) ->
  widgetWithinCanvas canvasWidth canvasHeight s ->
  selectionInv s ->
  Forall (dragInput s) evs ->
  forall k : nat,
    let s' := run drawElements (firstn k evs) s in
    projectionInCanvas canvasWidth canvasHeight s' /\
    rectOK (devicePixelRatioF s) (width s) (height s) (mSelection s').
Proof.
  intros Hr Hcanvas Hinv Hall k. cbv zeta.
  assert (Hpre : Forall (dragInput s) (firstn k evs)).
  { rewrite <- (firstn_skipn k evs) in Hall. apply Forall_app in Hall. apply Hall. }
  destruct (run_inv n drawElements (firstn k evs) s Hr Hinv Hpre) as [Hfin G].
  pose proof G as (G1 & G2 & G3 & G4).
  split.
  - apply (selectionInv_projection n); [rewrite G1, G2; exact Hr | | exact Hfin].
    unfold widgetWithinCanvas. rewrite G1, G3, G4. exact Hcanvas.
  - destruct Hfin as [Hrect _]. rewrite G1, G3, G4 in Hrect. exact Hrect.
Qed.

(** Witness for the amended C1: the drag is clamped at (700,600). *)
Lemma selection_stays_in_canvas_witness :
  integralRatio 1 (devicePixelRatioF editor1) (dprI editor1) /\
  widgetWithinCanvas 1000 800 editor1 /\
  selectionInv editor1 /\
  Forall (dragInput editor1) createThenDrag /\
  projectionInCanvas 1000 800 (run inkPainter (firstn 5 createThenDrag) editor1) /\
  QRectF.eq (mSelection (run inkPainter (firstn 5 createThenDrag) editor1))
            (QRectF.mk 700 600 300 200).
Proof.
  destruct (construct_inv 1 (blankPixmap 1000 800) false false (QRect.mk 0 0 0 0))
    as (Hr & Hinv & Hcanvas); [lia | cbn; lia | cbn; lia |].
  assert (HW : width editor1 = 1000%Z) by (vm_compute; reflexivity).
  assert (HH : height editor1 = 800%Z) by (vm_compute; reflexivity).
  assert (Hall : Forall (dragInput editor1) createThenDrag).
  { unfold createThenDrag.
    repeat (apply Forall_cons; [unfold dragInput, pointerInside; rewrite HW, HH; cbn; lia |]).
    apply Forall_nil. }
  pose proof (selection_stays_in_canvas inkPainter 1 1000 800 createThenDrag editor1
                Hr Hcanvas Hinv Hall 5) as H.
  cbv zeta in H. destruct H as [Hproj _].
  split; [exact Hr |]. split; [exact Hcanvas |]. split; [exact Hinv |]. split; [exact Hall |].
  split; [exact Hproj |].
  repeat split; vm_compute; reflexivity.
Defined.

(** Why the ratio is taken integral above: [realMaxX] is rounded half up.
    On a 1920x1080 raster at ratio 3/2 (a 1280x720 widget) a selection of
    width 301 + 2/3 dragged to the right edge, with the pointer over the
    widget all the time, ends half a device pixel beyond the canvas. *)
Example drag_clamp_rounds_up_at_ratio_3_2 :
  let s0 := construct (blankPixmap 1920 1080) (3 # 2) false false (QRect.mk 0 0 0 0) in
  let evs := [ MousePress (leftPress 0 0); MouseMove (leftDrag 301 100);
               MouseRelease (leftRelease 301 100);
               MousePress (leftPress 150 50); MouseMove (leftDrag 1279 50) ] in
  let s := run inkPainter evs s0 in
  width s0 = 1280%Z /\ Forall (dragInput s0) evs /\
  realMaxX (run inkPainter (firstn 4 evs) s0) = 1468%Z /\
  (QRectF.x (mSelection s) + QRectF.width (mSelection s)) * devicePixelRatioF s
    == 1920 + (1 # 2) /\
  ~ projectionInCanvas 1920 1080 s.
Proof.
  cbv zeta.
  assert (HW : width (construct (blankPixmap 1920 1080) (3 # 2) false false (QRect.mk 0 0 0 0))
               = 1280%Z) by (vm_compute; reflexivity).
  assert (HH : height (construct (blankPixmap 1920 1080) (3 # 2) false false (QRect.mk 0 0 0 0))
               = 720%Z) by (vm_compute; reflexivity).
  split; [exact HW |].
  split.
  { repeat (apply Forall_cons; [unfold dragInput, pointerInside; rewrite HW, HH; cbn; lia |]).
    apply Forall_nil. }
  split; [vm_compute; reflexivity |].
  split; [vm_compute; reflexivity |].
  intros (_ & _ & _ & _ & Hx & _). vm_compute in Hx. apply Hx. reflexivity.
Qed.

(** ** Two scenarios of the design document, run on the model *)

(** Canvas 1000x800 at ratio 1, press at (100,100) outside any selection,
    drag to (400,300): the selection spans the two points, one pixel more
    on the trailing edges; releasing does not complete the session. *)
Example scenario_create_selection :
  let s := run inkPainter
             [ MousePress (leftPress 100 100); MouseMove (leftDrag 400 300);
               MouseRelease (leftRelease 400 300) ] editor1 in
  QRectF.eq (mSelection s) (QRectF.mk 100 100 301 201) /\ emitted s = [].
Proof. cbv zeta. split; [repeat split; vm_compute; reflexivity | vm_compute; reflexivity]. Qed.

(** Selection (100,100,300,200), press on its top-left handle at (100,100)
    and drag to (50,50): the top-left corner follows, the bottom-right
    corner stays at (400,300). *)
Example scenario_resize_top_left :
  let s := run inkPainter [MousePress (leftPress 100 100); MouseMove (leftDrag 50 50)]
             selected1 in
  mMouseDragState s = TopLeft /\
  QPointF.eq (QRectF.topLeft (mSelection s)) (QPointF.mk 50 50) /\
  QPointF.eq (QRectF.bottomRight (mSelection s)) (QPointF.mk 400 300).
Proof.
  cbv zeta. split; [vm_compute; reflexivity |].
  split; split; vm_compute; reflexivity.
Qed.

(** * Further properties of the widget *)

(** ** Zones of the hit-test classifier *)

Ltac threshold_props :=
  repeat match goal with
         | H : withinThreshold _ _ = true |- _ => apply withinThreshold_true in H
         | H : withinThreshold _ _ = false |- _ => apply withinThreshold_false in H
         end.

(** Inside the rectangle a failed edge test means the distance exceeds the
    tolerance. *)
Ltac beyond_tolerance :=
  repeat match goal with
         | H : ~ (0 <= ?a <= ?t) |- _ =>
             let H' := fresh "Hfar" in
             assert (H' : t < a)
               by (destruct (Qlt_le_dec t a) as [? | ?];
                   [assumption | exfalso; apply H; split; lra]);
             clear H
         end.

(** X1. For a normalised selection the classifier answers [Inside]
    exactly for the positions more than 20 logical pixels away from all four
    edges; so a selection must be more than 40 pixels wide and high to be
    draggable at all, the pure edge handles [Top] and [Bottom] exist only on
    selections wider than 40 pixels, and [Left] and [Right] only on
    selections higher than 40 pixels. *)
Theorem inside_zone_is_20_pixels_from_every_edge (sel : QRectF.t) (p : QPointF.t) :
  0 <= QRectF.width sel -> 0 <= QRectF.height sel ->
  (mouseLocation sel p = Inside <->
     20 < QPointF.x p - QRectF.left sel /\ 20 < QRectF.right sel - QPointF.x p /\
     20 < QPointF.y p - QRectF.top sel /\ 20 < QRectF.bottom sel - QPointF.y p) /\
  (In (mouseLocation sel p) [Inside; Top; Bottom] -> 40 < QRectF.width sel) /\
  (In (mouseLocation sel p) [Inside; Left; Right] -> 40 < QRectF.height sel).
Proof.
  intros Hw Hh.
  destruct (QRectF.contains sel p) eqn:Hc.
  - pose proof (proj1 (contains_normalised sel p Hw Hh) Hc)
      as (Hw0 & Hh0 & [Hx0 Hx1] & [Hy0 Hy1]).
    assert (Ew : QRectF.width sel == 2 * (QRectF.width sel / 2)) by field.
    assert (Eh : QRectF.height sel == 2 * (QRectF.height sel / 2)) by field.
    rewrite (mouseLocation_classify sel p Hc). cbv zeta.
    unfold QRectF.left, QRectF.right, QRectF.top, QRectF.bottom in *.
    destruct (withinThreshold (QPointF.y p - QRectF.y sel) (verSize sel)) eqn:ET;
    destruct (withinThreshold (QRectF.x sel + QRectF.width sel - QPointF.x p) (horSize sel)) eqn:ER;
    destruct (withinThreshold (QRectF.y sel + QRectF.height sel - QPointF.y p) (verSize sel)) eqn:EB;
    destruct (withinThreshold (QPointF.x p - QRectF.x sel) (horSize sel)) eqn:EL;
    threshold_props;
    unfold verSize, horSize, qMin, mouseAreaSize in *;
    destruct (Qlt_le_dec 20 (QRectF.height sel / 2));
    destruct (Qlt_le_dec 20 (QRectF.width sel / 2));
    cbv beta iota in *; beyond_tolerance;
    cbn [classify negb andb In];
    (split; [split; [intros Hi; try discriminate Hi; lra | intros Hi; try reflexivity; exfalso; lra]
            | split; intros Hi;
              repeat match goal with
                     | H : _ \/ _ |- _ => destruct H
                     | H : False |- _ => destruct H
                     | H : @eq MouseState _ _ |- _ => discriminate H
                     end; lra]).
  - rewrite (mouseLocation_not_contained sel p Hc).
    split; [split; [intros Hi; discriminate Hi |] |].
    + intros (H1 & H2 & H3 & H4).
      assert (Hin : QRectF.contains sel p = true).
      { apply (contains_normalised sel p Hw Hh).
        unfold QRectF.left, QRectF.right, QRectF.top, QRectF.bottom in *.
        repeat split; lra. }
      congruence.
    + split; intros Hi; cbn in Hi;
        repeat match goal with
               | H : _ \/ _ |- _ => destruct H
               | H : False |- _ => destruct H
               | H : @eq MouseState _ _ |- _ => discriminate H
               end.
Qed.

(** Witness for X1: the centre of the selection (100,100,300,200). *)
Lemma inside_zone_is_20_pixels_from_every_edge_witness :
  0 <= QRectF.width (QRectF.mk 100 100 300 200) /\
  0 <= QRectF.height (QRectF.mk 100 100 300 200) /\
  mouseLocation (QRectF.mk 100 100 300 200) (QPointF.mk 250 200) = Inside.
Proof.
  assert (Hw : 0 <= QRectF.width (QRectF.mk 100 100 300 200)) by (cbn; lra).
  assert (Hh : 0 <= QRectF.height (QRectF.mk 100 100 300 200)) by (cbn; lra).
  split; [exact Hw |]. split; [exact Hh |].
  apply (proj1 (inside_zone_is_20_pixels_from_every_edge
                  (QRectF.mk 100 100 300 200) (QPointF.mk 250 200) Hw Hh)).
  cbn. repeat split; lra.
Defined.

(** X2. The four corner points of a selection with positive width and
    height are classified as the corresponding corner handles. *)
Theorem corners_are_corner_handles (sel : QRectF.t) :
  0 < QRectF.width sel -> 0 < QRectF.height sel ->
  mouseLocation sel (QRectF.topLeft sel) = TopLeft /\
  mouseLocation sel (QRectF.topRight sel) = TopRight /\
  mouseLocation sel (QRectF.bottomLeft sel) = BottomLeft /\
  mouseLocation sel (QRectF.bottomRight sel) = BottomRight.
Proof.
  intros Hw Hh.
  assert (Ew : QRectF.width sel == 2 * (QRectF.width sel / 2)) by field.
  assert (Eh : QRectF.height sel == 2 * (QRectF.height sel / 2)) by field.
  assert (Hc : forall q,
             QRectF.left sel <= QPointF.x q <= QRectF.right sel ->
             QRectF.top sel <= QPointF.y q <= QRectF.bottom sel ->
             QRectF.contains sel q = true).
  { intros q [Hx0 Hx1] [Hy0 Hy1]. apply contains_normalised; [lra | lra |].
    repeat match goal with |- _ /\ _ => split end; assumption. }
  unfold QRectF.left, QRectF.right, QRectF.top, QRectF.bottom in Hc.
  repeat match goal with |- _ /\ _ => split end;
    match goal with
    | |- mouseLocation sel ?q = _ =>
        rewrite (mouseLocation_classify sel q) by (apply Hc; cbn; lra)
    end;
    cbv zeta; unfold QRectF.left, QRectF.right, QRectF.top, QRectF.bottom;
    cbn [QRectF.topLeft QRectF.topRight QRectF.bottomLeft QRectF.bottomRight QPointF.x QPointF.y];
    match goal with
    | |- classify ?a ?b (negb _ && ?c) (negb _ && ?d) = _ =>
        destruct a eqn:ET; destruct b eqn:ER; destruct c eqn:EB; destruct d eqn:EL
    end;
    threshold_props;
    unfold verSize, horSize, qMin, mouseAreaSize in *;
    destruct (Qlt_le_dec 20 (QRectF.height sel / 2));
    destruct (Qlt_le_dec 20 (QRectF.width sel / 2));
    cbv beta iota in *; beyond_tolerance;
    cbn [classify negb andb]; try reflexivity; exfalso; lra.
Qed.

(** Witness for X2 on the selection (100,100,300,200). *)
Lemma corners_are_corner_handles_witness :
  0 < QRectF.width (QRectF.mk 100 100 300 200) /\
  0 < QRectF.height (QRectF.mk 100 100 300 200) /\
  mouseLocation (QRectF.mk 100 100 300 200) (QPointF.mk 400 100) = TopRight.
Proof.
  assert (Hw : 0 < QRectF.width (QRectF.mk 100 100 300 200)) by (cbn; lra).
  assert (Hh : 0 < QRectF.height (QRectF.mk 100 100 300 200)) by (cbn; lra).
  split; [exact Hw |]. split; [exact Hh |].
  pose proof (corners_are_corner_handles (QRectF.mk 100 100 300 200) Hw Hh) as (_ & H & _).
  exact H.
Defined.

(** ** Keyboard nudging keeps the selection in the canvas *)

Lemma inject_Z_nonneg k : (0 <= k)%Z -> 0 <= inject_Z k.
Proof. intros H. change 0 with (inject_Z 0). rewrite <- Zle_Qle. exact H. Qed.

(** An axis that satisfies [axisOK], read in device pixels. *)
Lemma axis_device n dpr dI W x w :
  integralRatio n dpr dI -> axisOK dpr W x w ->
  exists kx kw : Z,
    x * dpr == inject_Z kx /\ w * dpr == inject_Z kw /\
    x == dI * inject_Z kx /\ w == dI * inject_Z kw /\
    (0 <= kx)%Z /\ (0 <= kw)%Z /\ (kx + kw <= W * n)%Z.
Proof.
  intros Hr ([kx Hx] & [kw Hw] & Hx0 & Hw0 & Hxw).
  destruct (ratio_positive _ _ _ Hr) as (Hdpr & HdI0 & HdI1).
  pose proof Hr as (Hn & Hd & Hi).
  exists kx, kw.
  assert (Ex : x == dI * inject_Z kx).
  { rewrite <- Hx. transitivity (x * (dI * dpr)); [rewrite Hi; ring | ring]. }
  assert (Ew : w == dI * inject_Z kw).
  { rewrite <- Hw. transitivity (w * (dI * dpr)); [rewrite Hi; ring | ring]. }
  repeat match goal with |- _ /\ _ => split end; try assumption.
  - rewrite Zle_Qle, <- Hx. change (inject_Z 0) with 0. nra.
  - rewrite Zle_Qle, <- Hw. change (inject_Z 0) with 0. nra.
  - rewrite Zle_Qle, inject_Z_plus, inject_Z_mult, <- Hx, <- Hw, <- Hd. nra.
Qed.

(** Conversely, device-pixel bounds give [axisOK]. *)
Lemma device_axis n dpr dI W x w kx kw :
  integralRatio n dpr dI ->
  x == dI * inject_Z kx -> w == dI * inject_Z kw ->
  (0 <= kx)%Z -> (0 <= kw)%Z -> (kx + kw <= W * n)%Z ->
  axisOK dpr W x w.
Proof.
  intros Hr Ex Ew Hkx Hkw Hsum.
  destruct (ratio_positive _ _ _ Hr) as (Hdpr & HdI0 & HdI1).
  pose proof Hr as (Hn & Hd & Hi).
  pose proof (inject_Z_nonneg _ Hkx) as Qx. pose proof (inject_Z_nonneg _ Hkw) as Qw.
  assert (Qsum : inject_Z kx + inject_Z kw <= inject_Z W * dpr).
  { rewrite Hd, <- inject_Z_mult, <- inject_Z_plus, <- Zle_Qle. exact Hsum. }
  unfold axisOK.
  split; [exists kx; rewrite Ex; transitivity (inject_Z kx * (dI * dpr)); [ring | rewrite Hi; ring] |].
  split; [exists kw; rewrite Ew; transitivity (inject_Z kw * (dI * dpr)); [ring | rewrite Hi; ring] |].
  split; [rewrite Ex; nra |]. split; [rewrite Ew; nra |].
  rewrite Ex, Ew.
  assert (Hs : dI * (inject_Z kx + inject_Z kw) <= dI * (inject_Z W * dpr)) by nra.
  assert (Hb : dI * (inject_Z W * dpr) == inject_Z W).
  { transitivity (inject_Z W * (dI * dpr)); [ring | rewrite Hi; ring]. }
  rewrite Hb in Hs. lra.
Qed.

(** The exact value of [realMaxX] / [realMaxY] on such an axis. *)
Lemma realMax_device n dpr dI W w kw :
  integralRatio n dpr dI -> w * dpr == inject_Z kw ->
  qRound ((inject_Z W - w) * dpr) = (W * n - kw)%Z.
Proof.
  intros (Hn & Hd & Hi) Hw. apply qRound_integral.
  unfold Z.sub. rewrite inject_Z_plus, inject_Z_opp, inject_Z_mult, <- Hw, <- Hd. ring.
Qed.

Lemma qRound_device_minus x dpr kx st :
  x * dpr == inject_Z kx -> qRound (x * dpr - inject_Z st) = (kx - st)%Z.
Proof.
  intros Hx. apply qRound_integral.
  rewrite Hx. unfold Z.sub. rewrite inject_Z_plus, inject_Z_opp. ring.
Qed.

Lemma qRound_device_plus x dpr kx st :
  x * dpr == inject_Z kx -> qRound (x * dpr + inject_Z st) = (kx + st)%Z.
Proof.
  intros Hx. apply qRound_integral. rewrite Hx, inject_Z_plus. ring.
Qed.

(** Arrow key moving towards the origin. *)
Lemma axis_nudge_back n dpr dI W x w st :
  integralRatio n dpr dI -> axisOK dpr W x w -> (0 <= st)%Z ->
  axisOK dpr W (dI * inject_Z (Z.max 0 (qRound (x * dpr - inject_Z st)))) w.
Proof.
  intros Hr Hax Hst.
  destruct (axis_device _ _ _ _ _ _ Hr Hax) as (kx & kw & Hx & Hw & Ex & Ew & Hkx & Hkw & Hs).
  rewrite (qRound_device_minus _ _ _ _ Hx).
  apply (device_axis n dpr dI W _ _ (Z.max 0 (kx - st)) kw Hr); try assumption;
    try reflexivity; lia.
Qed.

(** Arrow key moving away from the origin. *)
Lemma axis_nudge_forth n dpr dI W x w st :
  integralRatio n dpr dI -> axisOK dpr W x w -> (0 <= st)%Z ->
  axisOK dpr W
    (dI * inject_Z (Z.min (qRound (x * dpr + inject_Z st)) (qRound ((inject_Z W - w) * dpr)))) w.
Proof.
  intros Hr Hax Hst.
  destruct (axis_device _ _ _ _ _ _ Hr Hax) as (kx & kw & Hx & Hw & Ex & Ew & Hkx & Hkw & Hs).
  rewrite (qRound_device_plus _ _ _ _ Hx), (realMax_device _ _ _ _ _ _ Hr Hw).
  apply (device_axis n dpr dI W _ _ (Z.min (kx + st) (W * n - kw)) kw Hr); try assumption;
    try reflexivity; lia.
Qed.

(** Alt and an arrow key towards the origin: the far edge moves back, the
    axis is normalised when it crosses the near edge. *)
Lemma axis_resize_back n dpr dI W x w st :
  integralRatio n dpr dI -> axisOK dpr W x w -> (0 <= st)%Z ->
  let e := dI * inject_Z (Z.max 0 (qRound (x * dpr - inject_Z st))) + w - x in
  axisOK dpr W (if Qlt_le_dec e 0 then x + e else x) (if Qlt_le_dec e 0 then - e else e).
Proof.
  intros Hr Hax Hst.
  destruct (axis_device _ _ _ _ _ _ Hr Hax) as (kx & kw & Hx & Hw & Ex & Ew & Hkx & Hkw & Hs).
  destruct (ratio_positive _ _ _ Hr) as (Hdpr & HdI0 & HdI1).
  rewrite (qRound_device_minus _ _ _ _ Hx). cbv zeta.
  set (m := Z.max 0 (kx - st)).
  assert (Ee : dI * inject_Z m + w - x == dI * inject_Z (m + kw - kx)).
  { unfold Z.sub. rewrite !inject_Z_plus, inject_Z_opp, Ex, Ew at 1. ring. }
  destruct (Qlt_le_dec (dI * inject_Z m + w - x) 0) as [Hneg | Hpos].
  - assert (Hz : (m + kw - kx < 0)%Z).
    { rewrite Zlt_Qlt. change (inject_Z 0) with 0. rewrite Ee in Hneg. nra. }
    apply (device_axis n dpr dI W _ _ (m + kw) (kx - m - kw) Hr); try lia.
    + rewrite inject_Z_plus. rewrite Ew at 1. ring.
    + rewrite Ee. unfold Z.sub. rewrite !inject_Z_plus, !inject_Z_opp. ring.
  - assert (Hz : (0 <= m + kw - kx)%Z).
    { rewrite Zle_Qle. change (inject_Z 0) with 0. rewrite Ee in Hpos. nra. }
    apply (device_axis n dpr dI W _ _ kx (m + kw - kx) Hr); try lia; try assumption.
Qed.

(** Alt and an arrow key away from the origin: the far edge moves forth. *)
Lemma axis_resize_forth n dpr dI W x w st :
  integralRatio n dpr dI -> axisOK dpr W x w -> (0 <= st)%Z ->
  axisOK dpr W x
    (dI * inject_Z (Z.min (qRound (x * dpr + inject_Z st)) (qRound ((inject_Z W - w) * dpr)))
     + w - x).
Proof.
  intros Hr Hax Hst.
  destruct (axis_device _ _ _ _ _ _ Hr Hax) as (kx & kw & Hx & Hw & Ex & Ew & Hkx & Hkw & Hs).
  rewrite (qRound_device_plus _ _ _ _ Hx), (realMax_device _ _ _ _ _ _ Hr Hw).
  set (m := Z.min (kx + st) (W * n - kw)).
  apply (device_axis n dpr dI W _ _ kx (m + kw - kx) Hr); try assumption; try (subst m; lia).
  unfold Z.sub. rewrite !inject_Z_plus, inject_Z_opp. rewrite Ex, Ew at 1. ring.
Qed.

Lemma keyPressEvent_frame event s :
  sameGeometry s (keyPressEvent event s) /\
  mMouseDragState (keyPressEvent event s) = mMouseDragState s /\
  mStartPos (keyPressEvent event s) = mStartPos s.
Proof.
  unfold keyPressEvent. cbv zeta.
  rewrite boundsUp_nomouse, boundsDown_nomouse, boundsLeft_nomouse, boundsRight_nomouse.
  unfold acceptSelection, emit, sameGeometry.
  destruct (key event), (shiftModifier event); cbn;
    try (destruct (mDisableArrowKeys s); destruct (altModifier event); cbn; tauto);
    try (destruct (negb (QRectF.isEmpty (mSelection s))); cbn; tauto); tauto.
Qed.

Lemma keyPressEvent_disabled event s :
  mDisableArrowKeys s = true ->
  mSelection (keyPressEvent event s) = mSelection s.
Proof.
  intros Hd. unfold keyPressEvent. cbv zeta. unfold acceptSelection, emit.
  destruct (key event), (shiftModifier event); cbn; rewrite ?Hd; try reflexivity;
    destruct (negb (QRectF.isEmpty (mSelection s))); reflexivity.
Qed.

Lemma stepZ_nonneg shift : (0 <= stepZ shift)%Z.
Proof. destruct shift; unfold stepZ, magnifierLargeStep; lia. Qed.

(** The vertical axis of [normalized (setBottom sel pos)]. *)
Lemma normalized_setBottom_y sel pos :
  let e := pos - QRectF.y sel in
  QRectF.y (QRectF.normalized (QRectF.setBottom sel pos)) =
    (if Qlt_le_dec e 0 then QRectF.y sel + e else QRectF.y sel) /\
  QRectF.height (QRectF.normalized (QRectF.setBottom sel pos)) =
    (if Qlt_le_dec e 0 then - e else e).
Proof.
  cbv zeta. unfold QRectF.normalized, QRectF.setBottom. cbn.
  destruct (Qlt_le_dec (QRectF.width sel) 0);
    destruct (Qlt_le_dec (pos - QRectF.y sel) 0); cbn; split; reflexivity.
Qed.

(** The horizontal axis of [normalized (setRight sel pos)]. *)
Lemma normalized_setRight_x sel pos :
  let e := pos - QRectF.x sel in
  QRectF.x (QRectF.normalized (QRectF.setRight sel pos)) =
    (if Qlt_le_dec e 0 then QRectF.x sel + e else QRectF.x sel) /\
  QRectF.width (QRectF.normalized (QRectF.setRight sel pos)) =
    (if Qlt_le_dec e 0 then - e else e).
Proof.
  cbv zeta. unfold QRectF.normalized, QRectF.setRight. cbn.
  destruct (Qlt_le_dec (pos - QRectF.x sel) 0);
    destruct (Qlt_le_dec (QRectF.height sel) 0); cbn; split; reflexivity.
Qed.

Lemma keyPressEvent_inv n event s :
  integralRatio n (devicePixelRatioF s) (dprI s) ->
  selectionInv s ->
  selectionInv (keyPressEvent event s) /\ sameGeometry s (keyPressEvent event s).
Proof.
  intros Hr [[HX HY] Hanchor].
  destruct (keyPressEvent_frame event s) as (G & Hmode & Hstart).
  split; [| exact G].
  pose proof G as (G1 & G2 & G3 & G4).
  split.
  2:{ unfold anchorOK. rewrite G1, G3, G4, Hmode, Hstart. exact Hanchor. }
  rewrite G1, G3, G4.
  destruct (mDisableArrowKeys s) eqn:Hd.
  { rewrite (keyPressEvent_disabled _ _ Hd). split; assumption. }
  rewrite (keyPressEvent_arrow_selection event s Hd). cbv zeta.
  rewrite keyStep_stepZ.
  pose proof (stepZ_nonneg (shiftModifier event)) as Hst.
  set (st := stepZ (shiftModifier event)) in *.
  assert (Hw0 : 0 <= QRectF.width (mSelection s)) by apply HX.
  assert (Hh0 : 0 <= QRectF.height (mSelection s)) by apply HY.
  unfold realMaxX, realMaxY, QRectF.top, QRectF.left.
  destruct (key event); try (split; assumption); destruct (altModifier event).
  - (* Alt+Up *)
    split.
    + destruct (normalized_keeps_x (mSelection s)
                  (dprI s * inject_Z (Z.max 0 (qRound (QRectF.y (mSelection s) *
                     devicePixelRatioF s - inject_Z st))) + QRectF.height (mSelection s)) Hw0)
        as [E1 E2].
      rewrite E1, E2. exact HX.
    + destruct (normalized_setBottom_y (mSelection s)
                  (dprI s * inject_Z (Z.max 0 (qRound (QRectF.y (mSelection s) *
                     devicePixelRatioF s - inject_Z st))) + QRectF.height (mSelection s)))
        as [E1 E2].
      rewrite E1, E2. apply (axis_resize_back n); assumption.
  - (* Up *)
    split; [exact HX |]. cbn. apply (axis_nudge_back n); assumption.
  - (* Alt+Right *)
    split; [| exact HY]. cbn. apply (axis_resize_forth n); assumption.
  - (* Right *)
    split; [| exact HY]. cbn. apply (axis_nudge_forth n); assumption.
  - (* Alt+Down *)
    split; [exact HX |]. cbn. apply (axis_resize_forth n); assumption.
  - (* Down *)
    split; [exact HX |]. cbn. apply (axis_nudge_forth n); assumption.
  - (* Alt+Left *)
    split.
    + destruct (normalized_setRight_x (mSelection s)
                  (dprI s * inject_Z (Z.max 0 (qRound (QRectF.x (mSelection s) *
                     devicePixelRatioF s - inject_Z st))) + QRectF.width (mSelection s)))
        as [E1 E2].
      rewrite E1, E2. apply (axis_resize_back n); assumption.
    + destruct (normalized_keeps_y (mSelection s)
                  (dprI s * inject_Z (Z.max 0 (qRound (QRectF.x (mSelection s) *
                     devicePixelRatioF s - inject_Z st))) + QRectF.width (mSelection s)) Hh0)
        as [E1 E2].
      rewrite E1, E2. exact HY.
  - (* Left *)
    split; [| exact HY]. cbn. apply (axis_nudge_back n); assumption.
Qed.

Lemma pointerOverWidget_geometry s s' ev :
  sameGeometry s s' -> pointerOverWidget s ev -> pointerOverWidget s' ev.
Proof.
  intros (_ & _ & G3 & G4). unfold pointerOverWidget, pointerInside. rewrite G3, G4. tauto.
Qed.

Lemma handle_any_inv n drawElements ev s :
  integralRatio n (devicePixelRatioF s) (dprI s) ->
  pointerOverWidget s ev ->
  selectionInv s ->
  selectionInv (handle drawElements ev s) /\ sameGeometry s (handle drawElements ev s).
Proof.
  intros Hr Hin Hinv.
  destruct ev as [e | e | e | e | e | e | st | | | |];
    try (apply (handle_inv n); [exact Hr | exact Hin | exact Hinv]).
  cbn [handle]. apply (keyPressEvent_inv n); assumption.
Qed.

Lemma run_any_inv n drawElements evs :
  forall s,
    integralRatio n (devicePixelRatioF s) (dprI s) ->
    selectionInv s ->
    Forall (pointerOverWidget s) evs ->
    selectionInv (run drawElements evs s) /\ sameGeometry s (run drawElements evs s).
Proof.
  induction evs as [| ev evs IH]; intros s Hr Hinv Hall.
  - split; [exact Hinv | repeat split].
  - inversion Hall as [| ? ? Hev Hrest]; subst.
    destruct (handle_any_inv n drawElements ev s Hr Hev Hinv) as [Hinv' G].
    pose proof G as (G1 & G2 & G3 & G4).
    change (run drawElements (ev :: evs) s)
      with (run drawElements evs (handle drawElements ev s)).
    destruct (IH (handle drawElements ev s)) as [Hfin (F1 & F2 & F3 & F4)].
    + rewrite G1, G2. exact Hr.
    + exact Hinv'.
    + eapply Forall_impl; [| exact Hrest]. intros a. apply pointerOverWidget_geometry, G.
    + split; [exact Hfin | repeat split; congruence].
Qed.

(** X3. With an integral device pixel ratio, no sequence of inputs whose
    pointer events are over the widget takes the selection out of the
    canvas: the arrow keys, with or without Alt and Shift, are clamped by
    [boundsUp], [boundsDown], [boundsLeft] and [boundsRight] just as the
    pointer drags are. *)
Theorem keys_and_pointer_keep_selection_in_canvas
    (drawElements : bool -> EditToolState -> QLineF.t -> QRectF.t -> Z -> QColor ->
                    string -> QPixmap -> QPixmap)
    (n canvasWidth canvasHeight : Z) (evs : list Event) (s : QuickEditor) :
  integralRatio n (devicePixelRatioF s) (dprI s) ->
  widgetWithinCanvas canvasWidth canvasHeight s ->
  selectionInv s ->
  Forall (pointerOverWidget s) evs ->
  projectionInCanvas canvasWidth canvasHeight (run drawElements evs s).
Proof.
  intros Hr Hcanvas Hinv Hall.
  destruct (run_any_inv n drawElements evs s Hr Hinv Hall) as [Hfin G].
  pose proof G as (G1 & G2 & G3 & G4).
  apply (selectionInv_projection n); [rewrite G1, G2; exact Hr | | exact Hfin].
  unfold widgetWithinCanvas. rewrite G1, G3, G4. exact Hcanvas.
Qed.

Lemma keys_and_pointer_keep_selection_in_canvas_witness :
  let evs := [ MousePress (leftPress 100 100); MouseMove (leftDrag 399 299);
               MouseRelease (leftRelease 399 299) ]
             ++ repeat (KeyPress (arrowKey Key_Left false false)) 8
             ++ [ KeyPress (arrowKey Key_Down false true) ] in
  integralRatio 1 (devicePixelRatioF editor1) (dprI editor1) /\
  widgetWithinCanvas 1000 800 editor1 /\
  selectionInv editor1 /\
  Forall (pointerOverWidget editor1) evs /\
  projectionInCanvas 1000 800 (run inkPainter evs editor1) /\
  QRectF.eq (mSelection (run inkPainter evs editor1)) (QRectF.mk 0 100 300 215).
Proof.
  cbv zeta.
  destruct (construct_inv 1 (blankPixmap 1000 800) false false (QRect.mk 0 0 0 0))
    as (Hr & Hinv & Hcanvas); [lia | cbn; lia | cbn; lia |].
  assert (HW : width editor1 = 1000%Z) by (vm_compute; reflexivity).
  assert (HH : height editor1 = 800%Z) by (vm_compute; reflexivity).
  match goal with |- _ /\ _ /\ _ /\ Forall _ ?l /\ _ =>
    assert (Hall : Forall (pointerOverWidget editor1) l)
  end.
  { cbn [repeat app].
    repeat (apply Forall_cons;
            [unfold pointerOverWidget, pointerInside; rewrite ?HW, ?HH; cbn; try lia; exact I |]).
    apply Forall_nil. }
  split; [exact Hr |]. split; [exact Hcanvas |]. split; [exact Hinv |]. split; [exact Hall |].
  split; [exact (keys_and_pointer_keep_selection_in_canvas inkPainter 1 1000 800 _ editor1
                   Hr Hcanvas Hinv Hall) |].
  repeat split; vm_compute; reflexivity.
Defined.

(** ** Nudging there and back *)

Lemma keyPressEvent_keeps_disable event s :
  mDisableArrowKeys (keyPressEvent event s) = mDisableArrowKeys s.
Proof.
  unfold keyPressEvent. cbv zeta.
  rewrite boundsUp_nomouse, boundsDown_nomouse, boundsLeft_nomouse, boundsRight_nomouse.
  unfold acceptSelection, emit.
  destruct (key event), (shiftModifier event); cbn;
    try (destruct (mDisableArrowKeys s) eqn:E; destruct (altModifier event); cbn;
         congruence);
    try (destruct (negb (QRectF.isEmpty (mSelection s))); reflexivity); reflexivity.
Qed.

Lemma device_of_logical dI dpr k : dI * dpr == 1 -> dI * inject_Z k * dpr == inject_Z k.
Proof. intros H. transitivity (inject_Z k * (dI * dpr)); [ring | rewrite H; ring]. Qed.

(** X4. On a selection that lies inside the widget on device pixels, at
    an integral device pixel ratio and with the arrow keys enabled, an
    arrow key followed by the opposite arrow key, with the same Shift
    state and without Alt, restores the selection, provided the first
    step has room (it is not cut short by [boundsUp], [boundsDown],
    [boundsLeft] or [boundsRight]).  A selection that a drag has taken
    beyond the widget does not come back: the return step is clamped
    against a negative bound. *)
Theorem nudge_there_and_back (n : Z) (k : Key) (shift : bool) (s : QuickEditor) :
  integralRatio n (devicePixelRatioF s) (dprI s) ->
  selectionInv s ->
  mDisableArrowKeys s = false ->
  roomFor k (stepZ shift) s ->
  QRectF.eq
    (mSelection (keyPressEvent (arrowKey (oppositeKey k) shift false)
                   (keyPressEvent (arrowKey k shift false) s)))
    (mSelection s).
Proof.
  intros Hr [[HX HY] _] Hd Hroom.
  pose proof Hr as (Hn & Hdpr & Hi).
  pose proof (stepZ_nonneg shift) as Hst.
  destruct (axis_device _ _ _ _ _ _ Hr HX) as (kx & kw & Hx & Hw & Ex & Ew & Hkx & Hkw & Hsx).
  destruct (axis_device _ _ _ _ _ _ Hr HY) as (ky & kh & Hy & Hh & Ey & Eh & Hky & Hkh & Hsy).
  set (s1 := keyPressEvent (arrowKey k shift false) s).
  destruct (keyPressEvent_frame (arrowKey k shift false) s) as ((G1 & G2 & G3 & G4) & _).
  fold s1 in G1, G2, G3, G4.
  assert (Hd1 : mDisableArrowKeys s1 = false)
    by (unfold s1; rewrite keyPressEvent_keeps_disable; exact Hd).
  pose proof (keyPressEvent_arrow_selection (arrowKey k shift false) s Hd) as E1.
  fold s1 in E1. cbv zeta in E1. rewrite keyStep_stepZ in E1.
  rewrite (keyPressEvent_arrow_selection _ s1 Hd1). cbv zeta. rewrite keyStep_stepZ.
  cbn [key shiftModifier altModifier arrowKey] in *.
  unfold roomFor in Hroom. cbv zeta in Hroom.
  unfold realMaxX, realMaxY, QRectF.top, QRectF.left in *.
  set (st := stepZ shift) in *.
  destruct k; cbn [oppositeKey]; try (rewrite E1; repeat split; reflexivity).
  - (* Up, then Down *)
    destruct Hroom as (t & Ht & Hle).
    assert (t = ky) by (apply inject_Z_injective; rewrite <- Ht, <- Hy; reflexivity). subst t.
    rewrite (qRound_device_minus _ _ _ _ Hy), Z.max_r in E1 by lia.
    rewrite E1, G1, G2, G4. cbn [QRectF.moveTop QRectF.y QRectF.height QRectF.x QRectF.width].
    rewrite (qRound_device_plus _ _ (ky - st) st) by (apply device_of_logical; exact Hi).
    rewrite (realMax_device _ _ _ _ _ _ Hr Hh), Z.min_l by lia.
    replace (ky - st + st)%Z with ky by lia.
    unfold QRectF.eq. cbn. repeat split; try reflexivity; symmetry; assumption.
  - (* Right, then Left *)
    destruct Hroom as (t & Ht & Hle).
    assert (t = kx) by (apply inject_Z_injective; rewrite <- Ht, <- Hx; reflexivity). subst t.
    rewrite (qRound_device_plus _ _ _ _ Hx), Z.min_l in E1 by lia.
    rewrite E1, G1, G2. cbn [QRectF.moveLeft QRectF.y QRectF.height QRectF.x QRectF.width].
    rewrite (qRound_device_minus _ _ (kx + st) st) by (apply device_of_logical; exact Hi).
    rewrite Z.max_r by lia.
    replace (kx + st - st)%Z with kx by lia.
    unfold QRectF.eq. cbn. repeat split; try reflexivity; symmetry; assumption.
  - (* Down, then Up *)
    destruct Hroom as (t & Ht & Hle).
    assert (t = ky) by (apply inject_Z_injective; rewrite <- Ht, <- Hy; reflexivity). subst t.
    rewrite (qRound_device_plus _ _ _ _ Hy), Z.min_l in E1 by lia.
    rewrite E1, G1, G2. cbn [QRectF.moveTop QRectF.y QRectF.height QRectF.x QRectF.width].
    rewrite (qRound_device_minus _ _ (ky + st) st) by (apply device_of_logical; exact Hi).
    rewrite Z.max_r by lia.
    replace (ky + st - st)%Z with ky by lia.
    unfold QRectF.eq. cbn. repeat split; try reflexivity; symmetry; assumption.
  - (* Left, then Right *)
    destruct Hroom as (t & Ht & Hle).
    assert (t = kx) by (apply inject_Z_injective; rewrite <- Ht, <- Hx; reflexivity). subst t.
    rewrite (qRound_device_minus _ _ _ _ Hx), Z.max_r in E1 by lia.
    rewrite E1, G1, G2, G3. cbn [QRectF.moveLeft QRectF.y QRectF.height QRectF.x QRectF.width].
    rewrite (qRound_device_plus _ _ (kx - st) st) by (apply device_of_logical; exact Hi).
    rewrite (realMax_device _ _ _ _ _ _ Hr Hw), Z.min_l by lia.
    replace (kx - st + st)%Z with kx by lia.
    unfold QRectF.eq. cbn. repeat split; try reflexivity; symmetry; assumption.
Qed.

Lemma nudge_there_and_back_witness :
  integralRatio 2 (devicePixelRatioF selected2) (dprI selected2) /\
  selectionInv selected2 /\
  mDisableArrowKeys selected2 = false /\
  roomFor Key_Left (stepZ true) selected2 /\
  QRectF.eq
    (mSelection (keyPressEvent (arrowKey Key_Right true false)
                   (keyPressEvent (arrowKey Key_Left true false) selected2)))
    (mSelection selected2).
Proof.
  destruct (construct_inv 2 (blankPixmap 2000 1600) false false (QRect.mk 0 0 0 0))
    as (Hr & Hinv & _); [lia | cbn; lia | cbn; lia |].
  assert (Hall : Forall (pointerOverWidget editor2)
                   [ MousePress (leftPress 100 100); MouseMove (leftDrag 399 299);
                     MouseRelease (leftRelease 399 299) ]).
  { repeat (apply Forall_cons; [vm_compute; repeat split; discriminate |]). apply Forall_nil. }
  destruct (run_any_inv 2 inkPainter _ editor2 Hr Hinv Hall) as [Hinv2 _].
  fold selected2 in Hinv2.
  assert (Hr2 : integralRatio 2 (devicePixelRatioF selected2) (dprI selected2)).
  { split; [lia |]. split; vm_compute; reflexivity. }
  assert (Hd : mDisableArrowKeys selected2 = false) by (vm_compute; reflexivity).
  assert (Hroom : roomFor Key_Left (stepZ true) selected2).
  { exists 200%Z. split; [vm_compute; reflexivity | vm_compute; discriminate]. }
  split; [exact Hr2 |]. split; [exact Hinv2 |]. split; [exact Hd |]. split; [exact Hroom |].
  exact (nudge_there_and_back 2 Key_Left true selected2 Hr2 Hinv2 Hd Hroom).
Defined.

(** ** Multi-level undo *)

Lemma mousePressEvent_tool event s :
  mEditToolState (mousePressEvent event s) = mEditToolState s.
Proof.
  unfold mousePressEvent.
  destruct (mEditToolState s) eqn:E; cbn; rewrite ?E; try reflexivity;
    destruct (button event); cbn; rewrite ?E; try reflexivity;
    destruct (mouseLocation (mSelection s) (QPointF.of_point (pos event))); cbn;
    rewrite ?E; reflexivity.
Qed.

Lemma mouseMoveEvent_tool event s :
  mEditToolState (mouseMoveEvent event s) = mEditToolState s.
Proof.
  unfold mouseMoveEvent.
  assert (H1 : mEditToolState (moveShape event s) = mEditToolState s).
  { unfold moveShape. destruct (leftHeld event), (mEditToolState s) eqn:E; cbn;
      rewrite ?E; reflexivity. }
  rewrite <- H1. generalize (moveShape event s). intros s1.
  unfold moveSelection. cbv zeta.
  cbn [mMouseDragState set_mMagnifierAllowed set_mMousePos].
  destruct (mMouseDragState s1); try reflexivity.
  match goal with
  | |- context [dragSelection ?p ?st] => destruct (dragSelection_eq p st) as [a E]; rewrite E
  end.
  reflexivity.
Qed.

(** What a drawing session leaves on the undo stack. *)
Lemma strokes_push_snapshots drawElements evs :
  forall s,
    mEditToolState s <> NoEdit ->
    Forall strokeInput evs ->
    exists snapshots,
      history (run drawElements evs s) = snapshots ++ history s /\
      List.length snapshots = strokes evs /\
      last snapshots (mPixmap (run drawElements evs s)) = mPixmap s.
Proof.
  induction evs as [| ev evs IH]; intros s Ht Hall.
  - exists []. repeat split.
  - inversion Hall as [| ? ? Hev Hrest]; subst.
    change (run drawElements (ev :: evs) s)
      with (run drawElements evs (handle drawElements ev s)).
    destruct ev as [e | e | e | e | e | e | st | | | |]; cbn [strokeInput] in Hev;
      try contradiction; cbn [handle strokes].
    + destruct (mousePressEvent_outputs e s) as (_ & _ & Hh & Hp & _).
      destruct (IH (mousePressEvent e s)) as (snaps & E1 & E2 & E3);
        [rewrite mousePressEvent_tool; exact Ht | exact Hrest |].
      exists snaps. rewrite E1, E3, Hh, Hp. repeat split. exact E2.
    + destruct (mouseMoveEvent_outputs e s) as (_ & _ & Hh & Hp & _).
      destruct (IH (mouseMoveEvent e s)) as (snaps & E1 & E2 & E3);
        [rewrite mouseMoveEvent_tool; exact Ht | exact Hrest |].
      exists snaps. rewrite E1, E3, Hh, Hp. repeat split. exact E2.
    + destruct (commit_pushes_snapshot drawElements e s Hev Ht) as (Hh & Htool & _).
      cbv zeta in Hh, Htool.
      destruct (IH (mouseReleaseEvent drawElements e s)) as (snaps & E1 & E2 & E3);
        [rewrite Htool; exact Ht | exact Hrest |].
      exists (snaps ++ [mPixmap s]). rewrite E1, Hh, <- app_assoc. split; [reflexivity |].
      split; [rewrite length_app, E2; cbn; lia | apply last_last].
Qed.

(** What a run of undo clicks takes off the undo stack. *)
Lemma undo_pops_snapshots snapshots :
  forall s rest,
    history s = snapshots ++ rest ->
    history (Nat.iter (List.length snapshots) undo s) = rest /\
    mPixmap (Nat.iter (List.length snapshots) undo s) = last snapshots (mPixmap s).
Proof.
  induction snapshots as [| top snaps IH]; intros s rest Hh.
  - split; [exact Hh | reflexivity].
  - cbn [List.length]. rewrite Nat.iter_succ_r.
    assert (Hu : history (undo s) = snaps ++ rest /\ mPixmap (undo s) = top).
    { unfold undo. cbn. rewrite Hh. cbn. split; reflexivity. }
    destruct Hu as [Hu1 Hu2].
    destruct (IH (undo s) rest Hu1) as [E1 E2].
    split; [exact E1 |]. rewrite E2, Hu2. symmetry. apply last_cons_default.
Qed.

(** X5. Undo is multi-level: after a drawing session of any number of
    strokes with an armed tool (presses, moves and left-button releases),
    as many undo clicks as there were strokes bring back the raster and
    the undo stack the session started from. *)
Theorem undo_reverts_a_whole_session
    (drawElements : bool -> EditToolState -> QLineF.t -> QRectF.t -> Z -> QColor ->
                    string -> QPixmap -> QPixmap)
    (evs : list Event) (s : QuickEditor) :
  mEditToolState s <> NoEdit ->
  Forall strokeInput evs ->
  let drawn := run drawElements evs s in
  let undone := Nat.iter (strokes evs) undo drawn in
  List.length (history drawn) = (strokes evs + List.length (history s))%nat /\
  mPixmap undone = mPixmap s /\
  history undone = history s.
Proof.
  intros Ht Hall drawn undone.
  destruct (strokes_push_snapshots drawElements evs s Ht Hall) as (snaps & E1 & E2 & E3).
  fold drawn in E1, E3.
  destruct (undo_pops_snapshots snaps drawn (history s) E1) as [U1 U2].
  rewrite E2 in U1, U2. fold undone in U1, U2.
  split; [rewrite E1, length_app, E2; reflexivity |].
  split; [rewrite U2; exact E3 | exact U1].
Qed.

Lemma undo_reverts_a_whole_session_witness :
  let s := run inkPainter [ToolClicked DrawLine] editor1 in
  let evs := [ MousePress (leftPress 120 120); MouseMove (leftDrag 200 150);
               MouseRelease (leftRelease 200 150);
               MousePress (leftPress 150 200); MouseMove (leftDrag 300 250);
               MouseRelease (leftRelease 300 250) ] in
  mEditToolState s <> NoEdit /\
  Forall strokeInput evs /\
  List.length (history (run inkPainter evs s)) = 2%nat /\
  mPixmap (run inkPainter evs s) <> mPixmap s /\
  mPixmap (undo (undo (run inkPainter evs s))) = mPixmap s /\
  history (undo (undo (run inkPainter evs s))) = history s.
Proof.
  cbv zeta.
  assert (Ht : mEditToolState (run inkPainter [ToolClicked DrawLine] editor1) <> NoEdit)
    by (vm_compute; discriminate).
  match goal with |- _ /\ Forall _ ?l /\ _ => assert (Hall : Forall strokeInput l) end.
  { repeat (apply Forall_cons; [cbn; try reflexivity; exact I |]). apply Forall_nil. }
  pose proof (undo_reverts_a_whole_session inkPainter _ _ Ht Hall) as H.
  cbv zeta in H. destruct H as (H1 & H2 & H3).
  split; [exact Ht |]. split; [exact Hall |]. split; [exact H1 |].
  split; [vm_compute; discriminate |]. split; [exact H2 | exact H3].
Defined.

(** ** Undo clicked again before the tool is re-armed *)




(** ** Geometry of the magnifier *)

Lemma clampSample_range mouse dpr extent :
  (2 * magPixels + 1 <= extent)%Z ->
  (0 <= fst (clampSample mouse dpr extent) <= extent - (2 * magPixels + 1))%Z.
Proof.
  intros He. unfold clampSample. cbv zeta.
  destruct (to_int (mouse * dpr - inject_Z magPixels) <? 0)%Z eqn:E1; cbn [fst]; [lia |].
  apply Z.ltb_ge in E1.
  destruct (to_int (mouse * dpr - inject_Z magPixels) >? extent - (2 * magPixels + 1))%Z eqn:E2;
    cbn [fst]; [lia |].
  rewrite Z.gtb_ltb in E2. apply Z.ltb_ge in E2. lia.
Qed.

Lemma clampSample_offset mouse dpr extent :
  (fst (clampSample mouse dpr extent) + snd (clampSample mouse dpr extent))%Z
  = to_int (mouse * dpr - inject_Z magPixels).
Proof.
  unfold clampSample. cbv zeta.
  destruct (to_int (mouse * dpr - inject_Z magPixels) <? 0)%Z; cbn [fst snd]; [lia |].
  destruct (to_int (mouse * dpr - inject_Z magPixels) >? extent - (2 * magPixels + 1))%Z;
    cbn [fst snd]; lia.
Qed.

(** Truncation of a value at least [-k] and below [e - k]. *)
Lemma to_int_between d k e :
  (0 <= k < e)%Z -> - inject_Z k <= d -> d < inject_Z (e - k) ->
  (- k <= to_int d <= e - k - 1)%Z.
Proof.
  intros [Hk H3] Hlo Hhi.
  destruct (Qlt_le_dec d 0) as [Hneg | Hpos].
  - rewrite to_int_neg by lra. unfold Qceiling.
    assert (HkQ : 0 <= inject_Z k) by (apply inject_Z_nonneg; exact Hk).
    assert (H1 : (Qfloor (- d) <= k)%Z).
    { rewrite <- (Qfloor_Z k). apply Qfloor_resp_le. lra. }
    assert (H2 : (0 <= Qfloor (- d))%Z).
    { change 0%Z with (Qfloor 0). apply Qfloor_resp_le. lra. }
    lia.
  - rewrite to_int_nonneg by exact Hpos.
    assert (H1 : (0 <= Qfloor d)%Z).
    { change 0%Z with (Qfloor 0). apply Qfloor_resp_le. exact Hpos. }
    assert (H2 : (Qfloor d < e - k)%Z).
    { rewrite Zlt_Qlt. apply Qle_lt_trans with d; [apply Qfloor_le | exact Hhi]. }
    lia.
Qed.

Lemma clampSample_offset_bounds mouse dpr extent :
  (2 * magPixels + 1 <= extent)%Z ->
  0 <= mouse * dpr -> mouse * dpr < inject_Z extent ->
  (- magPixels <= snd (clampSample mouse dpr extent) <= magPixels)%Z.
Proof.
  intros He Hlo Hhi.
  assert (Hb : (- magPixels <= to_int (mouse * dpr - inject_Z magPixels)
                <= extent - magPixels - 1)%Z).
  { apply to_int_between; [unfold magPixels in *; lia | lra |].
    unfold Z.sub. rewrite inject_Z_plus, inject_Z_opp. lra. }
  unfold clampSample. cbv zeta.
  destruct (to_int (mouse * dpr - inject_Z magPixels) <? 0)%Z eqn:E1; cbn [snd];
    [apply Z.ltb_lt in E1; unfold magPixels in *; lia |].
  destruct (to_int (mouse * dpr - inject_Z magPixels) >? extent - (2 * magPixels + 1))%Z eqn:E2;
    cbn [snd]; unfold magPixels in *; lia.
Qed.

(** X7. Wherever the pointer is, the 33x33 device-pixel region the
    magnifier samples lies inside the raster, as soon as the raster is at
    least 33 pixels wide and high. *)
Theorem magnifier_samples_inside_raster (s : QuickEditor) :
  (33 <= pix_width (mPixmap s))%Z ->
  (33 <= pix_height (mPixmap s))%Z ->
  let r := magniRect (drawMagnifier s) in
  QRectF.width r == 33 /\ QRectF.height r == 33 /\
  0 <= QRectF.x r /\ QRectF.x r + QRectF.width r <= inject_Z (pix_width (mPixmap s)) /\
  0 <= QRectF.y r /\ QRectF.y r + QRectF.height r <= inject_Z (pix_height (mPixmap s)).
Proof.
  intros Hw Hh. cbv zeta. unfold drawMagnifier. cbv zeta.
  pose proof (clampSample_range (QPointF.x (mMousePos s)) (devicePixelRatioF s)
                (pix_width (mPixmap s)) Hw) as Bx.
  pose proof (clampSample_range (QPointF.y (mMousePos s)) (devicePixelRatioF s)
                (pix_height (mPixmap s)) Hh) as By.
  destruct (clampSample (QPointF.x (mMousePos s)) (devicePixelRatioF s)
              (pix_width (mPixmap s))) as [magX offX].
  destruct (clampSample (QPointF.y (mMousePos s)) (devicePixelRatioF s)
              (pix_height (mPixmap s))) as [magY offY].
  cbn [fst] in Bx, By. cbn [magniRect QRectF.x QRectF.y QRectF.width QRectF.height].
  unfold magPixels in *.
  change (inject_Z (2 * 16 + 1)) with (inject_Z 33).
  assert (Q1 : 0 <= inject_Z magX) by (apply inject_Z_nonneg; lia).
  assert (Q2 : 0 <= inject_Z magY) by (apply inject_Z_nonneg; lia).
  assert (Q3 : inject_Z magX + inject_Z 33 <= inject_Z (pix_width (mPixmap s)))
    by (rewrite <- inject_Z_plus, <- Zle_Qle; lia).
  assert (Q4 : inject_Z magY + inject_Z 33 <= inject_Z (pix_height (mPixmap s)))
    by (rewrite <- inject_Z_plus, <- Zle_Qle; lia).
  repeat match goal with |- _ /\ _ => split end; try assumption; reflexivity.
Qed.

Lemma magnifier_samples_inside_raster_witness :
  (33 <= pix_width (mPixmap atCorner))%Z /\
  (33 <= pix_height (mPixmap atCorner))%Z /\
  0 <= QRectF.x (magniRect (drawMagnifier atCorner)) /\
  QRectF.x (magniRect (drawMagnifier atCorner)) +
    QRectF.width (magniRect (drawMagnifier atCorner))
    <= inject_Z (pix_width (mPixmap atCorner)).
Proof.
  assert (Hw : (33 <= pix_width (mPixmap atCorner))%Z) by (vm_compute; discriminate).
  assert (Hh : (33 <= pix_height (mPixmap atCorner))%Z) by (vm_compute; discriminate).
  destruct (magnifier_samples_inside_raster atCorner Hw Hh) as (_ & _ & H1 & H2 & _).
  split; [exact Hw |]. split; [exact Hh |]. split; [exact H1 | exact H2].
Defined.

(** X8. With the pointer over the raster, the clamp offsets of the
    magnifier stay within 16 pixels, the clamped start plus the offset is
    the requested start, no arm of the cross-hair has a negative length,
    and opposite arms always add up to 32 zoomed pixels. *)
Theorem magnifier_crosshair_arms (s : QuickEditor) :
  (33 <= pix_width (mPixmap s))%Z ->
  (33 <= pix_height (mPixmap s))%Z ->
  0 <= QPointF.x (mMousePos s) * devicePixelRatioF s ->
  QPointF.x (mMousePos s) * devicePixelRatioF s < inject_Z (pix_width (mPixmap s)) ->
  0 <= QPointF.y (mMousePos s) * devicePixelRatioF s ->
  QPointF.y (mMousePos s) * devicePixelRatioF s < inject_Z (pix_height (mPixmap s)) ->
  let m := drawMagnifier s in
  (- 16 <= offsetX m <= 16)%Z /\ (- 16 <= offsetY m <= 16)%Z /\
  QRectF.x (magniRect m) + inject_Z (offsetX m) ==
    inject_Z (to_int (QPointF.x (mMousePos s) * devicePixelRatioF s - 16)) /\
  QRectF.y (magniRect m) + inject_Z (offsetY m) ==
    inject_Z (to_int (QPointF.y (mMousePos s) * devicePixelRatioF s - 16)) /\
  0 <= QRectF.height (crossHairTop m) /\ 0 <= QRectF.height (crossHairBottom m) /\
  0 <= QRectF.width (crossHairLeft m) /\ 0 <= QRectF.width (crossHairRight m) /\
  QRectF.height (crossHairTop m) + QRectF.height (crossHairBottom m)
    == 32 * inject_Z magZoom /\
  QRectF.width (crossHairLeft m) + QRectF.width (crossHairRight m)
    == 32 * inject_Z magZoom.
Proof.
  intros Hw Hh Hx0 Hx1 Hy0 Hy1. cbv zeta. unfold drawMagnifier. cbv zeta.
  pose proof (clampSample_offset_bounds _ _ _ Hw Hx0 Hx1) as Bx.
  pose proof (clampSample_offset_bounds _ _ _ Hh Hy0 Hy1) as By.
  pose proof (clampSample_offset (QPointF.x (mMousePos s)) (devicePixelRatioF s)
                (pix_width (mPixmap s))) as Ox.
  pose proof (clampSample_offset (QPointF.y (mMousePos s)) (devicePixelRatioF s)
                (pix_height (mPixmap s))) as Oy.
  destruct (clampSample (QPointF.x (mMousePos s)) (devicePixelRatioF s)
              (pix_width (mPixmap s))) as [magX offX].
  destruct (clampSample (QPointF.y (mMousePos s)) (devicePixelRatioF s)
              (pix_height (mPixmap s))) as [magY offY].
  cbn [fst snd] in Bx, By, Ox, Oy.
  cbn [magniRect offsetX offsetY crossHairTop crossHairBottom crossHairLeft crossHairRight
       QRectF.x QRectF.y QRectF.width QRectF.height].
  unfold magPixels in *. unfold magZoom.
  change (inject_Z 16) with 16 in *. change (inject_Z 5) with 5.
  assert (Qx1 : - 16 <= inject_Z offX).
  { change (- 16) with (inject_Z (- 16)). rewrite <- Zle_Qle. lia. }
  assert (Qx2 : inject_Z offX <= 16).
  { change 16 with (inject_Z 16). rewrite <- Zle_Qle. lia. }
  assert (Qy1 : - 16 <= inject_Z offY).
  { change (- 16) with (inject_Z (- 16)). rewrite <- Zle_Qle. lia. }
  assert (Qy2 : inject_Z offY <= 16).
  { change 16 with (inject_Z 16). rewrite <- Zle_Qle. lia. }
  split; [lia |]. split; [lia |].
  split; [rewrite <- Ox, inject_Z_plus; reflexivity |].
  split; [rewrite <- Oy, inject_Z_plus; reflexivity |].
  repeat match goal with |- _ /\ _ => split end; lra.
Qed.

Lemma magnifier_crosshair_arms_witness :
  (33 <= pix_width (mPixmap atCorner))%Z /\
  (33 <= pix_height (mPixmap atCorner))%Z /\
  0 <= QPointF.x (mMousePos atCorner) * devicePixelRatioF atCorner /\
  QPointF.x (mMousePos atCorner) * devicePixelRatioF atCorner
    < inject_Z (pix_width (mPixmap atCorner)) /\
  0 <= QPointF.y (mMousePos atCorner) * devicePixelRatioF atCorner /\
  QPointF.y (mMousePos atCorner) * devicePixelRatioF atCorner
    < inject_Z (pix_height (mPixmap atCorner)) /\
  (- 16 <= offsetX (drawMagnifier atCorner) <= 16)%Z /\
  0 <= QRectF.height (crossHairTop (drawMagnifier atCorner)).
Proof.
  assert (Hw : (33 <= pix_width (mPixmap atCorner))%Z) by (vm_compute; discriminate).
  assert (Hh : (33 <= pix_height (mPixmap atCorner))%Z) by (vm_compute; discriminate).
  assert (Hx0 : 0 <= QPointF.x (mMousePos atCorner) * devicePixelRatioF atCorner)
    by (vm_compute; discriminate).
  assert (Hx1 : QPointF.x (mMousePos atCorner) * devicePixelRatioF atCorner
                < inject_Z (pix_width (mPixmap atCorner))) by (vm_compute; reflexivity).
  assert (Hy0 : 0 <= QPointF.y (mMousePos atCorner) * devicePixelRatioF atCorner)
    by (vm_compute; discriminate).
  assert (Hy1 : QPointF.y (mMousePos atCorner) * devicePixelRatioF atCorner
                < inject_Z (pix_height (mPixmap atCorner))) by (vm_compute; reflexivity).
  destruct (magnifier_crosshair_arms atCorner Hw Hh Hx0 Hx1 Hy0 Hy1)
    as (H1 & _ & _ & _ & H2 & _).
  repeat match goal with |- _ /\ _ => split end; try assumption; apply H1.
Defined.

(** The zoomed block is centred 114 pixels after the pointer, or 114
    pixels before it. *)
Lemma placeMagnifier_cases mouse extent :
  placeMagnifier mouse extent == mouse + 114 \/ placeMagnifier mouse extent == mouse - 114.
Proof.
  unfold placeMagnifier. cbv zeta.
  change (Z.quot ((2 * magPixels + 1) * magZoom) 2) with 82%Z.
  unfold magOffset.
  destruct (Qlt_le_dec _ _); [right | left]; unfold inject_Z; lra.
Qed.

Lemma crossHairBorder_rect s :
  crossHairBorder (drawMagnifier s) =
    QRectF.mk
      (placeMagnifier (QPointF.x (mMousePos s)) (width s)
       - inject_Z magZoom * (inject_Z magPixels + (1#2)) - 1)
      (placeMagnifier (QPointF.y (mMousePos s)) (height s)
       - inject_Z magZoom * (inject_Z magPixels + (1#2)) - 1)
      (inject_Z ((2 * magPixels + 1) * magZoom + 2))
      (inject_Z ((2 * magPixels + 1) * magZoom + 2)).
Proof.
  unfold drawMagnifier. cbv zeta.
  destruct (clampSample _ _ (pix_width _)) as [magX offX].
  destruct (clampSample _ _ (pix_height _)) as [magY offY].
  reflexivity.
Qed.

(** X9. The magnifier never covers the pointer: on each axis the framed
    zoomed block starts 30.5 pixels after the pointer, or, when it is
    flipped to the other side near the far edge of the widget, ends 30.5
    pixels before it. *)
Theorem magnifier_never_covers_pointer (s : QuickEditor) :
  let b := crossHairBorder (drawMagnifier s) in
  let p := mMousePos s in
  (QRectF.left b == QPointF.x p + (61#2) \/ QRectF.right b == QPointF.x p - (61#2)) /\
  (QRectF.top b == QPointF.y p + (61#2) \/ QRectF.bottom b == QPointF.y p - (61#2)) /\
  QRectF.contains b p = false.
Proof.
  cbv zeta. rewrite crossHairBorder_rect.
  set (dx := placeMagnifier (QPointF.x (mMousePos s)) (width s)).
  set (dy := placeMagnifier (QPointF.y (mMousePos s)) (height s)).
  pose proof (placeMagnifier_cases (QPointF.x (mMousePos s)) (width s)) as Hx. fold dx in Hx.
  pose proof (placeMagnifier_cases (QPointF.y (mMousePos s)) (height s)) as Hy. fold dy in Hy.
  change (inject_Z ((2 * magPixels + 1) * magZoom + 2)) with 167.
  change (inject_Z magZoom) with 5. change (inject_Z magPixels) with 16.
  unfold QRectF.left, QRectF.right, QRectF.top, QRectF.bottom.
  cbn [QRectF.x QRectF.y QRectF.width QRectF.height].
  split; [destruct Hx; [left | right]; lra |].
  split; [destruct Hy; [left | right]; lra |].
  match goal with |- ?c = false => destruct c eqn:E; [exfalso | reflexivity] end.
  apply contains_normalised in E; cbn [QRectF.width QRectF.height]; [| lra | lra].
  unfold QRectF.left, QRectF.right, QRectF.top, QRectF.bottom in E.
  cbn [QRectF.x QRectF.y QRectF.width QRectF.height] in E.
  destruct E as (_ & _ & E1 & E2). destruct Hx; lra.
Qed.

(** ** Placement of the selection size tooltip *)

Lemma qBoundZ_range lo v hi : (lo <= hi)%Z -> (lo <= qBoundZ lo v hi <= hi)%Z.
Proof.
  intros H. unfold qBoundZ. cbv zeta.
  destruct (hi <? v)%Z eqn:E1;
    [apply Z.ltb_lt in E1 | apply Z.ltb_ge in E1];
    match goal with |- context [(lo <? ?m)%Z] => destruct (lo <? m)%Z eqn:E2 end;
    try apply Z.ltb_lt in E2; try apply Z.ltb_ge in E2; lia.
Qed.

(** X10. The size tooltip never leaves the widget sideways: whenever the
    box (the text plus 5 pixels of padding on each side) is not wider than
    the widget, it lies between the left and the right edge, whatever the
    selection.  Below the 100-pixel threshold, a selection that starts
    inside the widget gets a box whose top is not above the widget. *)
Theorem size_tooltip_stays_in_widget (textWidth textHeight : Z) (s : QuickEditor) :
  (textWidth + 2 * selectionBoxPaddingX <= width s)%Z ->
  let box := drawSelectionSizeTooltip textWidth textHeight s in
  QRect.width box = (textWidth + 10)%Z /\
  QRect.height box = (textHeight + 8)%Z /\
  (0 <= QRect.x box)%Z /\
  (QRect.x box + QRect.width box <= width s)%Z /\
  (0 <= QRectF.y (mSelection s) -> 0 <= QRectF.height (mSelection s) ->
   QRectF.width (mSelection s) < 100 \/ QRectF.height (mSelection s) < 100 ->
   (0 <= QRect.y box)%Z).
Proof.
  intros Hfit. cbv zeta. unfold drawSelectionSizeTooltip. cbv zeta.
  cbn [QRect.x QRect.y QRect.width QRect.height].
  unfold selectionBoxPaddingX, selectionBoxPaddingY, selectionBoxMarginY,
    selectionSizeThreshold in *.
  match goal with
  | |- context [qBoundZ 0 ?v ?hi] => pose proof (qBoundZ_range 0 v hi) as Hb
  end.
  split; [lia |]. split; [lia |]. split; [lia |]. split; [lia |].
  intros Hy Hh Hsmall.
  change (inject_Z 100) with 100. change (inject_Z 2) with 2.
  assert (Hq : qge (QRectF.width (mSelection s)) 100 && qge (QRectF.height (mSelection s)) 100
               = false).
  { apply andb_false_iff. unfold qge.
    destruct Hsmall as [Hs | Hs]; [left | right];
      match goal with |- context [Qlt_le_dec ?a ?b] => destruct (Qlt_le_dec a b) end;
      try reflexivity; lra. }
  rewrite Hq.
  match goal with |- context [(?a <? 0)%Z] => destruct (a <? 0)%Z eqn:E end.
  - rewrite to_int_nonneg by lra.
    change 0%Z with (Qfloor 0). apply Qfloor_resp_le. lra.
  - apply Z.ltb_ge in E. exact E.
Qed.

Lemma size_tooltip_stays_in_widget_witness :
  (60 + 2 * selectionBoxPaddingX <= width atCorner)%Z /\
  (0 <= QRect.x (drawSelectionSizeTooltip 60 14 atCorner))%Z /\
  (QRect.x (drawSelectionSizeTooltip 60 14 atCorner)
   + QRect.width (drawSelectionSizeTooltip 60 14 atCorner) <= width atCorner)%Z.
Proof.
  assert (Hfit : (60 + 2 * selectionBoxPaddingX <= width atCorner)%Z)
    by (vm_compute; discriminate).
  destruct (size_tooltip_stays_in_widget 60 14 atCorner Hfit) as (_ & _ & H1 & H2 & _).
  split; [exact Hfit |]. split; [exact H1 | exact H2].
Defined.

(** ** Completed grabs *)

Lemma acceptSelection_emits s :
  QRectF.isEmpty (mSelection s) = false ->
  emitted (acceptSelection s) = emitted s ++ [GrabDone (mPixmap s) (scaledCropRegion s)] /\
  cropRegion (acceptSelection s) = scaledCropRegion s.
Proof.
  intros He. unfold acceptSelection. rewrite He. cbn. split; reflexivity.
Qed.

(** What one input can add to the signals: nothing, a cancellation, or
    the completion of the current selection. *)
Lemma handle_emits drawElements ev s :
  emitted (handle drawElements ev s) = emitted s \/
  emitted (handle drawElements ev s) = emitted s ++ [GrabCancelled] \/
  (QRectF.isEmpty (mSelection s) = false /\
   emitted (handle drawElements ev s)
   = emitted s ++ [GrabDone (mPixmap s) (scaledCropRegion s)]).
Proof.
  assert (Hacc : forall s1,
             mSelection s1 = mSelection s -> mPixmap s1 = mPixmap s ->
             devicePixelRatioF s1 = devicePixelRatioF s -> emitted s1 = emitted s ->
             emitted (acceptSelection s1) = emitted s \/
             emitted (acceptSelection s1) = emitted s ++ [GrabCancelled] \/
             (QRectF.isEmpty (mSelection s) = false /\
              emitted (acceptSelection s1)
              = emitted s ++ [GrabDone (mPixmap s) (scaledCropRegion s)])).
  { intros s1 E1 E2 E3 E4.
    destruct (QRectF.isEmpty (mSelection s)) eqn:He.
    - left. rewrite acceptSelection_empty by (rewrite E1; exact He). exact E4.
    - right. right. split; [reflexivity |].
      destruct (acceptSelection_emits s1) as [Hem _]; [rewrite E1; exact He |].
      rewrite Hem, E4, E2. unfold scaledCropRegion. rewrite E1, E3. reflexivity. }
  destruct ev as [e | e | e | e | e | e | st | | | |]; cbn [handle].
  - destruct (isArrow (key e)) eqn:Hk.
    { left. apply (keyPressEvent_arrow_outputs e s Hk). }
    unfold keyPressEvent. cbv zeta.
    destruct (key e); try discriminate Hk.
    + right. left. destruct (shiftModifier e); reflexivity.
    + destruct (shiftModifier e); apply Hacc; reflexivity.
    + destruct (shiftModifier e); apply Hacc; reflexivity.
    + left. destruct (shiftModifier e); reflexivity.
  - left. apply keyReleaseEvent_outputs.
  - left. apply mousePressEvent_outputs.
  - left. apply mouseMoveEvent_outputs.
  - unfold mouseReleaseEvent.
    change (emitted (set_mMouseDragState MS_None ?x)) with (emitted x).
    destruct (button e); try (left; reflexivity).
    destruct (negb (EditToolState_eqb (mEditToolState s) NoEdit)).
    + left. destruct (mEditToolState s); reflexivity.
    + cbn [mMouseDragState set_mDisableArrowKeys mReleaseToCapture].
      destruct (mMouseDragState s); try (left; reflexivity).
      destruct (mReleaseToCapture s); [| left; reflexivity].
      apply Hacc; reflexivity.
  - unfold mouseDoubleClickEvent. destruct (button e); try (left; reflexivity).
    destruct (QRectF.contains (mSelection s) (QPointF.of_point (pos e)));
      [apply Hacc; reflexivity | left; reflexivity].
  - left. unfold toggleDrawState.
    destruct (EditToolState_eqb (mEditToolState s) st); reflexivity.
  - left. unfold undo. cbn. destruct (history s); reflexivity.
  - right. left. reflexivity.
  - apply Hacc; reflexivity.
  - left. unfold timerExpired. destruct (timers s) as [| [d st] rest]; reflexivity.
Qed.

(** The crop rectangle of a selection that satisfies the invariant. *)
Lemma crop_of_invariant n cw ch s :
  integralRatio n (devicePixelRatioF s) (dprI s) ->
  widgetWithinCanvas cw ch s ->
  selectionInv s ->
  QRectF.isEmpty (mSelection s) = false ->
  cropInCanvas cw ch (scaledCropRegion s) /\
  QRectF.eq
    (QRectF.mk (inject_Z (QRect.x (scaledCropRegion s)) * dprI s)
               (inject_Z (QRect.y (scaledCropRegion s)) * dprI s)
               (inject_Z (QRect.width (scaledCropRegion s)) * dprI s)
               (inject_Z (QRect.height (scaledCropRegion s)) * dprI s))
    (mSelection s).
Proof.
  intros Hr [Hcw Hch] [[HX HY] _] He.
  pose proof Hr as (Hn & Hd & Hi).
  destruct (ratio_positive _ _ _ Hr) as (Hdpr & HdI0 & HdI1).
  destruct (axis_device _ _ _ _ _ _ Hr HX) as (kx & kw & Hx & Hw & Ex & Ew & Hkx & Hkw & Hsx).
  destruct (axis_device _ _ _ _ _ _ Hr HY) as (ky & kh & Hy & Hh & Ey & Eh & Hky & Hkh & Hsy).
  unfold QRectF.isEmpty in He. apply orb_false_iff in He. destruct He as [He1 He2].
  assert (Hwpos : 0 < QRectF.width (mSelection s)).
  { destruct (Qlt_le_dec 0 (QRectF.width (mSelection s))) as [H | H]; [exact H |].
    apply qle_true in H. congruence. }
  assert (Hhpos : 0 < QRectF.height (mSelection s)).
  { destruct (Qlt_le_dec 0 (QRectF.height (mSelection s))) as [H | H]; [exact H |].
    apply qle_true in H. congruence. }
  assert (Hkw1 : (0 < kw)%Z).
  { rewrite Zlt_Qlt, <- Hw. change (inject_Z 0) with 0. nra. }
  assert (Hkh1 : (0 < kh)%Z).
  { rewrite Zlt_Qlt, <- Hh. change (inject_Z 0) with 0. nra. }
  assert (Hcw' : (width s * n <= cw)%Z).
  { rewrite Zle_Qle, inject_Z_mult, <- Hd. exact Hcw. }
  assert (Hch' : (height s * n <= ch)%Z).
  { rewrite Zle_Qle, inject_Z_mult, <- Hd. exact Hch. }
  unfold scaledCropRegion, cropInCanvas. cbv zeta.
  cbn [QRect.x QRect.y QRect.width QRect.height].
  rewrite (qRound_integral _ _ Hx), (qRound_integral _ _ Hy),
          (qRound_integral _ _ Hw), (qRound_integral _ _ Hh).
  split; [repeat split; lia |].
  unfold QRectF.eq. cbn [QRectF.x QRectF.y QRectF.width QRectF.height].
  rewrite Ex, Ey, Ew, Eh. repeat split; ring.
Qed.

(** X11. With a device pixel ratio that is a power of two, every grab
    the editor completes, by Return, Enter, the Ok button, a double click
    or release to capture, crops a non-empty rectangle that lies inside
    the raster: [mPixmap.copy] is never asked for pixels outside of it.
    The ratio is a power of two because the statement rests on the test
    [isEmpty] of [acceptSelection]: there the width the doubles hold is
    the width computed here, whereas at ratio 3 a selection narrowed to
    nothing by Alt and the Left key keeps a width of 2.7e-15 in doubles,
    passes the test and is cropped with width 0. *)
Theorem completed_grabs_crop_inside_raster
    (drawElements : bool -> EditToolState -> QLineF.t -> QRectF.t -> Z -> QColor ->
                    string -> QPixmap -> QPixmap)
    (n canvasWidth canvasHeight : Z) (evs : list Event) (s : QuickEditor) :
  dyadicRatio n ->
  integralRatio n (devicePixelRatioF s) (dprI s) ->
  widgetWithinCanvas canvasWidth canvasHeight s ->
  selectionInv s ->
  Forall (pointerOverWidget s) evs ->
  Forall (signalInCanvas canvasWidth canvasHeight) (emitted s) ->
  Forall (signalInCanvas canvasWidth canvasHeight) (emitted (run drawElements evs s)).
Proof.
  intros _. revert s. induction evs as [| ev evs IH]; intros s Hr Hcanvas Hinv Hall Hem; [exact Hem |].
  inversion Hall as [| ? ? Hev Hrest]; subst.
  destruct (handle_any_inv n drawElements ev s Hr Hev Hinv) as [Hinv' G].
  pose proof G as (G1 & G2 & G3 & G4).
  change (run drawElements (ev :: evs) s)
    with (run drawElements evs (handle drawElements ev s)).
  apply IH.
  - rewrite G1, G2. exact Hr.
  - unfold widgetWithinCanvas. rewrite G1, G3, G4. exact Hcanvas.
  - exact Hinv'.
  - eapply Forall_impl; [| exact Hrest]. intros a. apply pointerOverWidget_geometry, G.
  - destruct (handle_emits drawElements ev s) as [E | [E | [He E]]]; rewrite E.
    + exact Hem.
    + apply Forall_app. split; [exact Hem | repeat constructor].
    + apply Forall_app. split; [exact Hem |].
      constructor; [| constructor].
      apply (crop_of_invariant n canvasWidth canvasHeight s Hr Hcanvas Hinv He).
Qed.

Lemma completed_grabs_crop_inside_raster_witness :
  let evs := [ MousePress (leftPress 100 100); MouseMove (leftDrag 399 299);
               MouseRelease (leftRelease 399 299);
               KeyPress (arrowKey Key_Right false true); OkClicked ] in
  dyadicRatio 1 /\
  integralRatio 1 (devicePixelRatioF editor1) (dprI editor1) /\
  widgetWithinCanvas 1000 800 editor1 /\
  selectionInv editor1 /\
  Forall (pointerOverWidget editor1) evs /\
  Forall (signalInCanvas 1000 800) (emitted editor1) /\
  Forall (signalInCanvas 1000 800) (emitted (run inkPainter evs editor1)) /\
  emitted (run inkPainter evs editor1)
  = [GrabDone (mPixmap editor1) (QRect.mk 100 100 315 200)].
Proof.
  cbv zeta.
  destruct (construct_inv 1 (blankPixmap 1000 800) false false (QRect.mk 0 0 0 0))
    as (Hr & Hinv & Hcanvas); [lia | cbn; lia | cbn; lia |].
  assert (HW : width editor1 = 1000%Z) by (vm_compute; reflexivity).
  assert (HH : height editor1 = 800%Z) by (vm_compute; reflexivity).
  match goal with |- _ /\ _ /\ _ /\ _ /\ Forall _ ?l /\ _ =>
    assert (Hall : Forall (pointerOverWidget editor1) l)
  end.
  { repeat (apply Forall_cons;
            [unfold pointerOverWidget, pointerInside; rewrite ?HW, ?HH; cbn; try lia; exact I |]).
    apply Forall_nil. }
  assert (Hem : Forall (signalInCanvas 1000 800) (emitted editor1)) by apply Forall_nil.
  assert (Hdy : dyadicRatio 1) by (exists 0%nat; reflexivity).
  split; [exact Hdy |].
  split; [exact Hr |]. split; [exact Hcanvas |]. split; [exact Hinv |]. split; [exact Hall |].
  split; [exact Hem |].
  split; [exact (completed_grabs_crop_inside_raster inkPainter 1 1000 800 _ editor1
                   Hdy Hr Hcanvas Hinv Hall Hem) |].
  vm_compute. reflexivity.
Defined.

(** ** The remembered region *)

Lemma qge_false a b : qge a b = false <-> a < b.
Proof.
  unfold qge. destruct (Qlt_le_dec a b) as [H | H]; split; intros H'; try assumption;
    try reflexivity; try discriminate; lra.
Qed.

(** [intersected] on two overlapping rectangles of positive extent. *)
Lemma intersected_overlap a b :
  0 < QRectF.width a -> 0 < QRectF.height a ->
  0 < QRectF.width b -> 0 < QRectF.height b ->
  QRectF.x a < QRectF.x b + QRectF.width b -> QRectF.x b < QRectF.x a + QRectF.width a ->
  QRectF.y a < QRectF.y b + QRectF.height b -> QRectF.y b < QRectF.y a + QRectF.height a ->
  QRectF.intersected a b =
    QRectF.mk (qMax (QRectF.x a) (QRectF.x b)) (qMax (QRectF.y a) (QRectF.y b))
      (qMin (QRectF.x a + QRectF.width a) (QRectF.x b + QRectF.width b)
       - qMax (QRectF.x a) (QRectF.x b))
      (qMin (QRectF.y a + QRectF.height a) (QRectF.y b + QRectF.height b)
       - qMax (QRectF.y a) (QRectF.y b)).
Proof.
  intros Hwa Hha Hwb Hhb X1 X2 Y1 Y2. unfold QRectF.intersected, qeqb.
  destruct (Qlt_le_dec (QRectF.width a) 0) as [Hc | _]; [lra |].
  destruct (Qlt_le_dec (QRectF.width b) 0) as [Hc | _]; [lra |].
  destruct (Qlt_le_dec (QRectF.height a) 0) as [Hc | _]; [lra |].
  destruct (Qlt_le_dec (QRectF.height b) 0) as [Hc | _]; [lra |].
  cbv zeta.
  destruct (Qeq_bool (QRectF.x a) (QRectF.x a + QRectF.width a)) eqn:E1;
    [apply Qeq_bool_eq in E1; lra |].
  destruct (Qeq_bool (QRectF.x b) (QRectF.x b + QRectF.width b)) eqn:E2;
    [apply Qeq_bool_eq in E2; lra |].
  destruct (qge (QRectF.x a) (QRectF.x b + QRectF.width b)) eqn:E3;
    [apply qge_true in E3; lra |].
  destruct (qge (QRectF.x b) (QRectF.x a + QRectF.width a)) eqn:E4;
    [apply qge_true in E4; lra |].
  cbn [orb].
  destruct (Qeq_bool (QRectF.y a) (QRectF.y a + QRectF.height a)) eqn:E5;
    [apply Qeq_bool_eq in E5; lra |].
  destruct (Qeq_bool (QRectF.y b) (QRectF.y b + QRectF.height b)) eqn:E6;
    [apply Qeq_bool_eq in E6; lra |].
  destruct (qge (QRectF.y a) (QRectF.y b + QRectF.height b)) eqn:E7;
    [apply qge_true in E7; lra |].
  destruct (qge (QRectF.y b) (QRectF.y a + QRectF.height a)) eqn:E8;
    [apply qge_true in E8; lra |].
  reflexivity.
Qed.

(** [intersected] gives the null rectangle or the overlap. *)
Lemma intersected_cases a b :
  0 <= QRectF.width a -> 0 <= QRectF.height a ->
  0 <= QRectF.width b -> 0 <= QRectF.height b ->
  QRectF.intersected a b = QRectF.null \/
  (0 < QRectF.width a /\ 0 < QRectF.height a /\
   0 < QRectF.width b /\ 0 < QRectF.height b /\
   QRectF.x a < QRectF.x b + QRectF.width b /\ QRectF.x b < QRectF.x a + QRectF.width a /\
   QRectF.y a < QRectF.y b + QRectF.height b /\ QRectF.y b < QRectF.y a + QRectF.height a).
Proof.
  intros Hwa Hha Hwb Hhb. unfold QRectF.intersected, qeqb.
  destruct (Qlt_le_dec (QRectF.width a) 0) as [Hc | _]; [lra |].
  destruct (Qlt_le_dec (QRectF.width b) 0) as [Hc | _]; [lra |].
  destruct (Qlt_le_dec (QRectF.height a) 0) as [Hc | _]; [lra |].
  destruct (Qlt_le_dec (QRectF.height b) 0) as [Hc | _]; [lra |].
  cbv zeta.
  destruct (Qeq_bool (QRectF.x a) (QRectF.x a + QRectF.width a)) eqn:E1; [left; reflexivity |].
  destruct (Qeq_bool (QRectF.x b) (QRectF.x b + QRectF.width b)) eqn:E2; [left; reflexivity |].
  destruct (qge (QRectF.x a) (QRectF.x b + QRectF.width b)) eqn:E3; [left; reflexivity |].
  destruct (qge (QRectF.x b) (QRectF.x a + QRectF.width a)) eqn:E4; [left; reflexivity |].
  cbn [orb].
  destruct (Qeq_bool (QRectF.y a) (QRectF.y a + QRectF.height a)) eqn:E5; [left; reflexivity |].
  destruct (Qeq_bool (QRectF.y b) (QRectF.y b + QRectF.height b)) eqn:E6; [left; reflexivity |].
  destruct (qge (QRectF.y a) (QRectF.y b + QRectF.height b)) eqn:E7; [left; reflexivity |].
  destruct (qge (QRectF.y b) (QRectF.y a + QRectF.height a)) eqn:E8; [left; reflexivity |].
  cbn [orb]. right.
  apply Qeq_bool_neq in E1, E2, E5, E6. apply qge_false in E3, E4, E7, E8.
  repeat split; try assumption; lra.
Qed.

(** One axis of the overlap with the widget rectangle. *)
Lemma axis_intersected n dpr dI W xa wa :
  integralRatio n dpr dI ->
  aligned dpr xa -> aligned dpr wa ->
  0 < wa -> 0 < inject_Z W ->
  xa < 0 + inject_Z W -> 0 < xa + wa ->
  axisOK dpr W (qMax xa 0) (qMin (xa + wa) (0 + inject_Z W) - qMax xa 0).
Proof.
  intros Hr Ax Aw Hwa HW H1 H2.
  pose proof (aligned_pointer n dpr dI W Hr) as AW.
  pose proof (aligned_zero dpr) as A0.
  assert (AW' : aligned dpr (0 + inject_Z W)) by (apply aligned_plus; assumption).
  assert (Axw : aligned dpr (xa + wa)) by (apply aligned_plus; assumption).
  unfold axisOK, qMax, qMin.
  destruct (Qlt_le_dec xa 0); destruct (Qlt_le_dec (xa + wa) (0 + inject_Z W));
    (split; [assumption |]); (split; [apply aligned_minus; assumption |]);
    repeat split; lra.
Qed.

Lemma restoreRegion_frame s :
  sameGeometry s (restoreRegion s) /\
  mMouseDragState (restoreRegion s) = mMouseDragState s /\
  mStartPos (restoreRegion s) = mStartPos s.
Proof.
  unfold restoreRegion. cbv zeta.
  destruct (negb (QRect.isEmpty (cropRegion s))); repeat split.
Qed.

Lemma restoreRegion_inv n s :
  integralRatio n (devicePixelRatioF s) (dprI s) ->
  (0 <= width s)%Z -> (0 <= height s)%Z ->
  mSelection s = QRectF.null ->
  rectOK (devicePixelRatioF s) (width s) (height s) (mSelection (restoreRegion s)).
Proof.
  intros Hr HW HH Hnull.
  pose proof (inject_Z_nonneg _ HW) as QW. pose proof (inject_Z_nonneg _ HH) as QH.
  assert (Hz : rectOK (devicePixelRatioF s) (width s) (height s) QRectF.null).
  { unfold rectOK, axisOK. cbn.
    repeat match goal with |- _ /\ _ => split end; try apply aligned_zero; lra. }
  unfold restoreRegion. cbv zeta.
  destruct (negb (QRect.isEmpty (cropRegion s))) eqn:Hne; [| rewrite Hnull; exact Hz].
  cbn [mSelection set_mSelection].
  apply negb_true_iff in Hne. unfold QRect.isEmpty in Hne.
  apply orb_false_iff in Hne. destruct Hne as [Hw Hh].
  apply Z.leb_gt in Hw, Hh.
  destruct (ratio_positive _ _ _ Hr) as (Hdpr & HdI0 & HdI1).
  assert (Qw : 0 < inject_Z (QRect.width (cropRegion s)) * dprI s).
  { assert (0 < inject_Z (QRect.width (cropRegion s)))
      by (change 0 with (inject_Z 0); rewrite <- Zlt_Qlt; exact Hw). nra. }
  assert (Qh : 0 < inject_Z (QRect.height (cropRegion s)) * dprI s).
  { assert (0 < inject_Z (QRect.height (cropRegion s)))
      by (change 0 with (inject_Z 0); rewrite <- Zlt_Qlt; exact Hh). nra. }
  match goal with
  | |- rectOK _ _ _ (QRectF.intersected ?a ?b) =>
      destruct (intersected_cases a b) as [E | C];
        [cbn; lra | cbn; lra | cbn; exact QW | cbn; exact QH | rewrite E; exact Hz |];
        rewrite (intersected_overlap a b) by apply C
  end.
  cbn [QRectF.x QRectF.y QRectF.width QRectF.height QRectF.of_rect QRect.x QRect.y
       QRect.width QRect.height] in *.
  change (inject_Z 0) with 0 in *.
  destruct C as (C1 & C2 & C3 & C4 & C5 & C6 & C7 & C8).
  split; apply (axis_intersected n _ (dprI s)); try assumption;
    apply (aligned_scaled n); exact Hr.
Qed.

(** X12. When the last region is remembered, the constructor clips the
    saved rectangle to the widget: whatever was saved (a region from a
    larger screen, at another position), the session starts with a
    selection inside the canvas, on device pixels, so that the containment
    guarantees apply from the first input. *)
Theorem remembered_region_is_clipped
    (n : Z) (pixmap : QPixmap) (showMagnifier releaseToCapture : bool) (saved : QRect.t) :
  (1 <= n)%Z -> (0 <= pix_width pixmap)%Z -> (0 <= pix_height pixmap)%Z ->
  let s := constructRemembered pixmap (inject_Z n) showMagnifier releaseToCapture saved in
  integralRatio n (devicePixelRatioF s) (dprI s) /\
  selectionInv s /\
  widgetWithinCanvas (pix_width pixmap) (pix_height pixmap) s /\
  projectionInCanvas (pix_width pixmap) (pix_height pixmap) s.
Proof.
  intros Hn Hw Hh. cbv zeta. unfold constructRemembered.
  destruct (construct_inv n pixmap showMagnifier releaseToCapture saved Hn Hw Hh)
    as (Hr & Hinv & Hcanvas).
  set (s0 := construct pixmap (inject_Z n) showMagnifier releaseToCapture saved) in *.
  destruct (restoreRegion_frame s0) as ((G1 & G2 & G3 & G4) & Hmode & Hstart).
  set (s := restoreRegion s0) in *.
  assert (Hr' : integralRatio n (devicePixelRatioF s) (dprI s)) by (rewrite G1, G2; exact Hr).
  assert (Hc' : widgetWithinCanvas (pix_width pixmap) (pix_height pixmap) s).
  { unfold widgetWithinCanvas. rewrite G1, G3, G4. exact Hcanvas. }
  assert (Hinv' : selectionInv s).
  { split.
    - rewrite G1, G3, G4. apply (restoreRegion_inv n s0 Hr); try reflexivity.
      + destruct Hinv as [[(_ & _ & H1 & H2 & H3) _] _].
        rewrite Zle_Qle. change (inject_Z 0) with 0. lra.
      + destruct Hinv as [[_ (_ & _ & H1 & H2 & H3)] _].
        rewrite Zle_Qle. change (inject_Z 0) with 0. lra.
    - unfold anchorOK. rewrite Hmode. exact I. }
  split; [exact Hr' |]. split; [exact Hinv' |]. split; [exact Hc' |].
  apply (selectionInv_projection n); assumption.
Qed.

Lemma remembered_region_is_clipped_witness :
  let s := constructRemembered (blankPixmap 1000 800) (inject_Z 1) false false
             (QRect.mk 900 700 300 300) in
  (1 <= 1)%Z /\ (0 <= pix_width (blankPixmap 1000 800))%Z /\
  (0 <= pix_height (blankPixmap 1000 800))%Z /\
  selectionInv s /\
  projectionInCanvas (pix_width (blankPixmap 1000 800)) (pix_height (blankPixmap 1000 800)) s /\
  QRectF.eq (mSelection s) (QRectF.mk 900 700 100 100).
Proof.
  cbv zeta.
  assert (H1 : (1 <= 1)%Z) by lia.
  assert (H2 : (0 <= pix_width (blankPixmap 1000 800))%Z) by (cbn; lia).
  assert (H3 : (0 <= pix_height (blankPixmap 1000 800))%Z) by (cbn; lia).
  destruct (remembered_region_is_clipped 1 (blankPixmap 1000 800) false false
              (QRect.mk 900 700 300 300) H1 H2 H3) as (_ & Hinv & _ & Hproj).
  split; [exact H1 |]. split; [exact H2 |]. split; [exact H3 |].
  split; [exact Hinv |]. split; [exact Hproj |].
  repeat split; vm_compute; reflexivity.
Defined.

(** X13. The remembered region round-trips: the rectangle a completed
    grab saves brings back, in a later session with the same widget
    geometry and device pixel ratio, the selection that was accepted. *)
Theorem remembered_region_round_trip (n : Z) (s next : QuickEditor) :
  integralRatio n (devicePixelRatioF s) (dprI s) ->
  selectionInv s ->
  QRectF.isEmpty (mSelection s) = false ->
  sameGeometry s next ->
  cropRegion next = cropRegion (acceptSelection s) ->
  QRectF.eq (mSelection (restoreRegion next)) (mSelection s).
Proof.
  intros Hr Hinv He (G1 & G2 & G3 & G4) Hsaved.
  destruct (acceptSelection_emits s He) as [_ Hcrop]. rewrite Hcrop in Hsaved.
  assert (Hcanvas : widgetWithinCanvas (width s * n) (height s * n) s).
  { destruct Hr as (_ & Hd & _).
    unfold widgetWithinCanvas. rewrite !inject_Z_mult, <- Hd. split; apply Qle_refl. }
  destruct (crop_of_invariant n _ _ s Hr Hcanvas Hinv He)
    as [(C1 & C2 & C3 & C4 & C5 & C6) (Ex & Ey & Ew & Eh)].
  cbn [QRectF.x QRectF.y QRectF.width QRectF.height] in Ex, Ey, Ew, Eh.
  destruct Hinv as [[(_ & _ & X0 & W0 & XW) (_ & _ & Y0 & H0 & YH)] _].
  unfold QRectF.isEmpty in He. apply orb_false_iff in He. destruct He as [He1 He2].
  assert (Hwpos : 0 < QRectF.width (mSelection s)).
  { destruct (Qlt_le_dec 0 (QRectF.width (mSelection s))) as [H | H]; [exact H |].
    apply qle_true in H. congruence. }
  assert (Hhpos : 0 < QRectF.height (mSelection s)).
  { destruct (Qlt_le_dec 0 (QRectF.height (mSelection s))) as [H | H]; [exact H |].
    apply qle_true in H. congruence. }
  unfold restoreRegion. cbv zeta. rewrite Hsaved, G2, G3, G4.
  assert (Hne : negb (QRect.isEmpty (scaledCropRegion s)) = true).
  { apply negb_true_iff. unfold QRect.isEmpty. apply orb_false_iff.
    split; apply Z.leb_gt; assumption. }
  rewrite Hne. cbn [mSelection set_mSelection].
  rewrite intersected_overlap;
    cbn [QRectF.x QRectF.y QRectF.width QRectF.height QRectF.of_rect QRect.x QRect.y
         QRect.width QRect.height]; change (inject_Z 0) with 0; try lra.
  unfold QRectF.eq, qMax, qMin.
  cbn [QRectF.x QRectF.y QRectF.width QRectF.height].
  repeat match goal with |- context [Qlt_le_dec ?a ?b] => destruct (Qlt_le_dec a b) end;
    repeat split; lra.
Qed.

Lemma remembered_region_round_trip_witness :
  let next := construct (blankPixmap 1000 800) 1 false false
                (cropRegion (acceptSelection selected1)) in
  integralRatio 1 (devicePixelRatioF selected1) (dprI selected1) /\
  selectionInv selected1 /\
  QRectF.isEmpty (mSelection selected1) = false /\
  sameGeometry selected1 next /\
  cropRegion next = cropRegion (acceptSelection selected1) /\
  QRectF.eq (mSelection (restoreRegion next)) (mSelection selected1).
Proof.
  cbv zeta.
  destruct (construct_inv 1 (blankPixmap 1000 800) false false (QRect.mk 0 0 0 0))
    as (Hr & Hinv & _); [lia | cbn; lia | cbn; lia |].
  assert (Hall : Forall (pointerOverWidget editor1)
                   [ MousePress (leftPress 100 100); MouseMove (leftDrag 399 299);
                     MouseRelease (leftRelease 399 299) ]).
  { repeat (apply Forall_cons; [vm_compute; repeat split; discriminate |]). apply Forall_nil. }
  destruct (run_any_inv 1 inkPainter _ editor1 Hr Hinv Hall) as [Hinv1 _].
  fold selected1 in Hinv1.
  assert (Hr1 : integralRatio 1 (devicePixelRatioF selected1) (dprI selected1)).
  { split; [lia |]. split; vm_compute; reflexivity. }
  assert (He : QRectF.isEmpty (mSelection selected1) = false) by (vm_compute; reflexivity).
  assert (G : sameGeometry selected1
                (construct (blankPixmap 1000 800) 1 false false
                   (cropRegion (acceptSelection selected1)))).
  { repeat split; vm_compute; reflexivity. }
  assert (Hs : cropRegion (construct (blankPixmap 1000 800) 1 false false
                             (cropRegion (acceptSelection selected1)))
               = cropRegion (acceptSelection selected1)) by reflexivity.
  split; [exact Hr1 |]. split; [exact Hinv1 |]. split; [exact He |]. split; [exact G |].
  split; [exact Hs |].
  exact (remembered_region_round_trip 1 selected1 _ Hr1 Hinv1 He G Hs).
Defined.

(** ** When a release or a double click completes the grab *)

(** X14. Releasing a mouse button completes the grab in one situation
    only: the left button, no drawing tool armed, a new selection being
    drawn (the press was outside of any selection), release-to-capture
    switched on and a selection that is not empty.  A release after moving
    or resizing, with a tool armed, or of another button emits nothing. *)
Theorem release_captures_only_a_new_selection
    (drawElements : bool -> EditToolState -> QLineF.t -> QRectF.t -> Z -> QColor ->
                    string -> QPixmap -> QPixmap)
    (event : QMouseEvent) (s : QuickEditor) :
  let s' := mouseReleaseEvent drawElements event s in
  let capturing :=
    button event = LeftButton /\ mEditToolState s = NoEdit /\
    mMouseDragState s = Outside /\ mReleaseToCapture s = true /\
    QRectF.isEmpty (mSelection s) = false in
  (capturing ->
   emitted s' = emitted s ++ [GrabDone (mPixmap s) (scaledCropRegion s)] /\
   cropRegion s' = scaledCropRegion s) /\
  (emitted s' <> emitted s -> capturing) /\
  (cropRegion s' <> cropRegion s -> capturing).
Proof.
  cbv zeta. unfold mouseReleaseEvent.
  change (emitted (set_mMouseDragState MS_None ?x)) with (emitted x).
  change (cropRegion (set_mMouseDragState MS_None ?x)) with (cropRegion x).
  split; [| split].
  - intros (Hb & Ht & Hm & Hc & He). rewrite Hb, Ht. cbn.
    rewrite Hm, Hc.
    apply (acceptSelection_emits (set_mDisableArrowKeys false s)). exact He.
  - destruct (button event) eqn:Hb; try (intros H; exfalso; apply H; reflexivity).
    destruct (mEditToolState s) eqn:Ht; cbn;
      try (intros H; exfalso; apply H; reflexivity).
    rewrite ?Ht.
    destruct (mMouseDragState s) eqn:Hm; try (intros H; exfalso; apply H; reflexivity).
    destruct (mReleaseToCapture s) eqn:Hc; try (intros H; exfalso; apply H; reflexivity).
    destruct (QRectF.isEmpty (mSelection s)) eqn:He.
    + rewrite acceptSelection_empty by exact He.
      intros H; exfalso; apply H; reflexivity.
    + intros _. repeat split.
  - destruct (button event) eqn:Hb; try (intros H; exfalso; apply H; reflexivity).
    destruct (mEditToolState s) eqn:Ht; cbn;
      try (intros H; exfalso; apply H; reflexivity).
    rewrite ?Ht.
    destruct (mMouseDragState s) eqn:Hm; try (intros H; exfalso; apply H; reflexivity).
    destruct (mReleaseToCapture s) eqn:Hc; try (intros H; exfalso; apply H; reflexivity).
    destruct (QRectF.isEmpty (mSelection s)) eqn:He.
    + rewrite acceptSelection_empty by exact He.
      intros H; exfalso; apply H; reflexivity.
    + intros _. repeat split.
Qed.

(** X15. On a selection of non-negative extent, a double click completes
    the grab exactly when it is a left-button double click within the
    selection, edges included, and the selection is not empty. *)
Theorem double_click_completes_inside_selection (event : QMouseEvent) (s : QuickEditor) :
  0 <= QRectF.width (mSelection s) ->
  0 <= QRectF.height (mSelection s) ->
  let s' := mouseDoubleClickEvent event s in
  let px := inject_Z (QPoint.x (pos event)) in
  let py := inject_Z (QPoint.y (pos event)) in
  let within :=
    button event = LeftButton /\
    0 < QRectF.width (mSelection s) /\ 0 < QRectF.height (mSelection s) /\
    QRectF.left (mSelection s) <= px <= QRectF.right (mSelection s) /\
    QRectF.top (mSelection s) <= py <= QRectF.bottom (mSelection s) in
  (within -> emitted s' = emitted s ++ [GrabDone (mPixmap s) (scaledCropRegion s)]) /\
  (emitted s' <> emitted s -> within).
Proof.
  intros Hw Hh. cbv zeta.
  pose proof (contains_normalised (mSelection s) (QPointF.of_point (pos event)) Hw Hh) as Hc.
  change (QPointF.x (QPointF.of_point (pos event))) with (inject_Z (QPoint.x (pos event))) in Hc.
  change (QPointF.y (QPointF.of_point (pos event))) with (inject_Z (QPoint.y (pos event))) in Hc.
  unfold mouseDoubleClickEvent. split.
  - intros (Hb & Hrest). rewrite Hb.
    assert (E : QRectF.contains (mSelection s) (QPointF.of_point (pos event)) = true)
      by (apply Hc; exact Hrest).
    rewrite E. apply acceptSelection_emits.
    unfold QRectF.isEmpty. apply orb_false_iff.
    destruct Hrest as (H1 & H2 & _).
    split; [destruct (qle (QRectF.width (mSelection s)) 0) eqn:E1
           | destruct (qle (QRectF.height (mSelection s)) 0) eqn:E1];
      try reflexivity; apply qle_true in E1; lra.
  - destruct (button event); try (intros H; exfalso; apply H; reflexivity).
    destruct (QRectF.contains (mSelection s) (QPointF.of_point (pos event))) eqn:E;
      [| intros H; exfalso; apply H; reflexivity].
    intros _. split; [reflexivity | apply Hc; reflexivity].
Qed.

Lemma double_click_completes_inside_selection_witness :
  0 <= QRectF.width (mSelection selected1) /\
  0 <= QRectF.height (mSelection selected1) /\
  emitted (mouseDoubleClickEvent (leftPress 100 300) selected1)
  = emitted selected1 ++ [GrabDone (mPixmap selected1) (scaledCropRegion selected1)].
Proof.
  assert (Hw : 0 <= QRectF.width (mSelection selected1)) by (vm_compute; discriminate).
  assert (Hh : 0 <= QRectF.height (mSelection selected1)) by (vm_compute; discriminate).
  destruct (double_click_completes_inside_selection (leftPress 100 300) selected1 Hw Hh)
    as [H _].
  split; [exact Hw |]. split; [exact Hh |].
  apply H. split; [reflexivity |].
  split; [vm_compute; reflexivity |]. split; [vm_compute; reflexivity |].
  split; split; vm_compute; discriminate.
Defined.

(** ** What a drag leaves alone *)

Lemma mouseMoveEvent_selection_frame event s :
  mMouseDragState (mouseMoveEvent event s) = mMouseDragState s /\
  match mMouseDragState s with
  | MS_None => mSelection (mouseMoveEvent event s) = mSelection s
  | Inside =>
      QRectF.width (mSelection (mouseMoveEvent event s)) = QRectF.width (mSelection s) /\
      QRectF.height (mSelection (mouseMoveEvent event s)) = QRectF.height (mSelection s)
  | Top | Bottom =>
      QRectF.x (mSelection (mouseMoveEvent event s)) = QRectF.x (mSelection s) /\
      QRectF.width (mSelection (mouseMoveEvent event s)) = QRectF.width (mSelection s)
  | Left | Right =>
      QRectF.y (mSelection (mouseMoveEvent event s)) = QRectF.y (mSelection s) /\
      QRectF.height (mSelection (mouseMoveEvent event s)) = QRectF.height (mSelection s)
  | _ => True
  end.
Proof.
  unfold mouseMoveEvent.
  destruct (moveShape_selection event s) as (A & B & _).
  destruct (moveSelection_frame event (moveShape event s)) as (_ & Hm & _).
  split; [rewrite Hm; exact B |].
  pose proof (moveSelection_selection event (moveShape event s)) as E. cbv zeta in E.
  rewrite B, A in E. rewrite E.
  destruct (mMouseDragState s); try exact I; try reflexivity; split; reflexivity.
Qed.

Lemma moves_cons e events s : moves (e :: events) s = moves events (mouseMoveEvent e s).
Proof. reflexivity. Qed.

(** X16. What a drag never changes, however far and however often the
    pointer moves: moving the selection keeps its size, the top and bottom
    handles keep its horizontal position and width, the left and right
    handles keep its vertical position and height, and with no button
    pressed the selection is not touched at all.  The drag mode itself
    only changes on press and release. *)
Theorem drag_leaves_the_other_axis_alone (events : list QMouseEvent) (s : QuickEditor) :
  let s' := moves events s in
  mMouseDragState s' = mMouseDragState s /\
  match mMouseDragState s with
  | MS_None => mSelection s' = mSelection s
  | Inside =>
      QRectF.width (mSelection s') = QRectF.width (mSelection s) /\
      QRectF.height (mSelection s') = QRectF.height (mSelection s)
  | Top | Bottom =>
      QRectF.x (mSelection s') = QRectF.x (mSelection s) /\
      QRectF.width (mSelection s') = QRectF.width (mSelection s)
  | Left | Right =>
      QRectF.y (mSelection s') = QRectF.y (mSelection s) /\
      QRectF.height (mSelection s') = QRectF.height (mSelection s)
  | _ => True
  end.
Proof.
  cbv zeta. revert s. induction events as [| e events IH]; intros s.
  - split; [reflexivity |]. destruct (mMouseDragState s); try exact I; try reflexivity;
      split; reflexivity.
  - rewrite moves_cons.
    destruct (mouseMoveEvent_selection_frame e s) as [Hm Hs].
    destruct (IH (mouseMoveEvent e s)) as [Hm' Hs'].
    rewrite Hm in Hm', Hs'.
    split; [exact Hm' |].
    destruct (mMouseDragState s); try exact I;
      try (destruct Hs, Hs'; split; congruence); congruence.
Qed.

(** ** When the magnifier is painted *)

Lemma acceptSelection_magnifier s :
  mMouseDragState (acceptSelection s) = mMouseDragState s /\
  mMagnifierAllowed (acceptSelection s) = mMagnifierAllowed s.
Proof.
  unfold acceptSelection, emit.
  destruct (negb (QRectF.isEmpty (mSelection s))); split; reflexivity.
Qed.

Lemma keyPressEvent_magnifier event s :
  mMagnifierAllowed (keyPressEvent event s) = mMagnifierAllowed s.
Proof.
  unfold keyPressEvent. cbv zeta.
  rewrite boundsUp_nomouse, boundsDown_nomouse, boundsLeft_nomouse, boundsRight_nomouse.
  unfold acceptSelection, emit.
  destruct (key event), (shiftModifier event); cbn;
    try (destruct (mDisableArrowKeys s); destruct (altModifier event); reflexivity);
    try (destruct (negb (QRectF.isEmpty (mSelection s))); reflexivity); reflexivity.
Qed.

Lemma mousePressEvent_magnifier event s :
  movingHidesMagnifier (mousePressEvent event s) \/ mousePressEvent event s = s.
Proof.
  unfold mousePressEvent, movingHidesMagnifier.
  destruct (mEditToolState s); cbn; try (left; discriminate);
    destruct (button event); cbn; try (right; reflexivity); left;
    destruct (mouseLocation (mSelection s) (QPointF.of_point (pos event)));
    cbn; try discriminate; reflexivity.
Qed.

Lemma mouseMoveEvent_magnifier event s :
  movingHidesMagnifier (mouseMoveEvent event s).
Proof.
  unfold mouseMoveEvent. generalize (moveShape event s). intros s1.
  unfold movingHidesMagnifier, moveSelection. cbv zeta.
  cbn [mMouseDragState set_mMagnifierAllowed set_mMousePos].
  destruct (mMouseDragState s1) eqn:Hm; cbn; try rewrite Hm; try discriminate;
    try reflexivity.
  match goal with
  | |- context [dragSelection ?p ?st] => destruct (dragSelection_eq p st) as [a E]; rewrite E
  end.
  reflexivity.
Qed.

Lemma handle_magnifier drawElements ev s :
  movingHidesMagnifier s -> movingHidesMagnifier (handle drawElements ev s).
Proof.
  intros Hinv.
  destruct ev as [e | e | e | e | e | e | st | | | |]; cbn [handle].
  - unfold movingHidesMagnifier.
    destruct (keyPressEvent_frame e s) as (_ & Hm & _).
    rewrite Hm, keyPressEvent_magnifier. exact Hinv.
  - unfold keyReleaseEvent.
    destruct (mToggleMagnifier s && negb (shiftModifier e)); exact Hinv.
  - destruct (mousePressEvent_magnifier e s) as [H | H]; [exact H | rewrite H; exact Hinv].
  - apply mouseMoveEvent_magnifier.
  - unfold movingHidesMagnifier.
    destruct (mouseReleaseEvent_state drawElements e s) as (_ & Hm & _).
    rewrite Hm. discriminate.
  - unfold mouseDoubleClickEvent. destruct (button e); try exact Hinv.
    destruct (QRectF.contains (mSelection s) (QPointF.of_point (pos e))); [| exact Hinv].
    unfold movingHidesMagnifier.
    destruct (acceptSelection_magnifier s) as [E1 E2]. rewrite E1, E2. exact Hinv.
  - unfold toggleDrawState.
    destruct (EditToolState_eqb (mEditToolState s) st); exact Hinv.
  - unfold undo. cbv zeta.
    change (history (set_mEditToolState NoEdit s)) with (history s).
    destruct (history s); exact Hinv.
  - exact Hinv.
  - unfold movingHidesMagnifier.
    destruct (acceptSelection_magnifier s) as [E1 E2]. rewrite E1, E2. exact Hinv.
  - unfold timerExpired. destruct (timers s) as [| [d st] rest]; exact Hinv.
Qed.

Lemma run_magnifier drawElements evs :
  forall s, movingHidesMagnifier s -> movingHidesMagnifier (run drawElements evs s).
Proof.
  induction evs as [| ev evs IH]; intros s Hinv; [exact Hinv |].
  change (run drawElements (ev :: evs) s)
    with (run drawElements evs (handle drawElements ev s)).
  apply IH, handle_magnifier, Hinv.
Qed.

(** X17. After any sequence of inputs, a repaint shows the magnifier
    only while a selection is being drawn or resized with a button held:
    never with the pointer up, never while the selection is being moved,
    and only when the magnifier setting and the Shift toggle differ. *)
Theorem magnifier_only_while_drawing_or_resizing
    (drawElements : bool -> EditToolState -> QLineF.t -> QRectF.t -> Z -> QColor ->
                    string -> QPixmap -> QPixmap)
    (evs : list Event) (s : QuickEditor) :
  movingHidesMagnifier s ->
  let s' := run drawElements evs s in
  paintsMagnifier (paintEvent s') = true ->
  mMouseDragState s' <> MS_None /\ mMouseDragState s' <> Inside /\
  mMagnifierAllowed s' = true /\ mShowMagnifier s' <> mToggleMagnifier s'.
Proof.
  intros Hinv s'.
  pose proof (run_magnifier drawElements evs s Hinv) as Hinv'. fold s' in Hinv'.
  clearbody s'. unfold paintEvent, movingHidesMagnifier in *. cbv zeta.
  destruct (mMouseDragState s') eqn:Hm; cbn [MouseState_isNone negb orb];
    try (destruct (negb (QRectF.isEmpty (mSelection s')));
         cbn [orb paintsMagnifier]; try discriminate;
         destruct (qgt (QRectF.width (mSelection s')) 20 &&
                   qgt (QRectF.height (mSelection s')) 20);
         cbn [paintsMagnifier]; discriminate);
    rewrite orb_true_r; cbn [paintsMagnifier]; intros Hp;
    apply andb_true_iff in Hp; destruct Hp as [Ha Hx];
    try (rewrite (Hinv' eq_refl) in Ha; discriminate Ha);
    (split; [discriminate |]); (split; [discriminate |]); (split; [exact Ha |]);
    destruct (mShowMagnifier s'), (mToggleMagnifier s'); try discriminate Hx;
    discriminate.
Qed.

Lemma magnifier_only_while_drawing_or_resizing_witness :
  let s := construct (blankPixmap 1000 800) 1 true false (QRect.mk 0 0 0 0) in
  let evs := [ MousePress (leftPress 100 100); MouseMove (leftDrag 300 300) ] in
  movingHidesMagnifier s /\
  paintsMagnifier (paintEvent (run inkPainter evs s)) = true /\
  mMouseDragState (run inkPainter evs s) = Outside /\
  mMouseDragState (run inkPainter evs s) <> Inside.
Proof.
  cbv zeta.
  assert (Hinv : movingHidesMagnifier
                   (construct (blankPixmap 1000 800) 1 true false (QRect.mk 0 0 0 0)))
    by (intros H; discriminate H).
  assert (Hp : paintsMagnifier
                 (paintEvent
                    (run inkPainter
                       [ MousePress (leftPress 100 100); MouseMove (leftDrag 300 300) ]
                       (construct (blankPixmap 1000 800) 1 true false (QRect.mk 0 0 0 0))))
               = true) by (vm_compute; reflexivity).
  destruct (magnifier_only_while_drawing_or_resizing inkPainter _ _ Hinv Hp)
    as (_ & H2 & _).
  split; [exact Hinv |]. split; [exact Hp |]. split; [vm_compute; reflexivity | exact H2].
Defined.

(** ** Shift and the magnifier *)

(** X18. Holding Shift inverts the magnifier and releasing it puts
    everything back: a key press that carries the Shift modifier flips
    whether a repaint in the middle of a drag shows the magnifier, and the
    following key release without Shift restores the state the editor had
    before the press. *)
Theorem shift_inverts_magnifier_until_released (press release : QKeyEvent) (s : QuickEditor) :
  mToggleMagnifier s = false ->
  key press = Key_Other -> shiftModifier press = true ->
  shiftModifier release = false ->
  let held := keyPressEvent press s in
  (mMouseDragState s <> MS_None -> mMagnifierAllowed s = true ->
   paintsMagnifier (paintEvent held) = negb (paintsMagnifier (paintEvent s))) /\
  keyReleaseEvent release held = s.
Proof.
  intros Ht Hk Hs Hr. cbv zeta.
  unfold keyPressEvent. cbv zeta. rewrite Hk, Hs.
  split.
  - intros Hm Ha. unfold paintEvent. cbv zeta.
    cbn [mSelection mMouseDragState mMagnifierAllowed mShowMagnifier mToggleMagnifier
         set_mToggleMagnifier].
    destruct (mMouseDragState s); try (exfalso; apply Hm; reflexivity);
      cbn [MouseState_isNone negb orb]; rewrite orb_true_r; cbn [paintsMagnifier];
      rewrite Ha, Ht; destruct (mShowMagnifier s); reflexivity.
  - unfold keyReleaseEvent. cbn [mToggleMagnifier set_mToggleMagnifier]. rewrite Hr.
    cbn [negb andb]. destruct s; cbn in *. subst. reflexivity.
Qed.

Lemma shift_inverts_magnifier_until_released_witness :
  let s := run inkPainter [ MousePress (leftPress 100 100); MouseMove (leftDrag 300 300) ]
             editor1 in
  let press := {| key := Key_Other; shiftModifier := true; altModifier := false |} in
  let release := {| key := Key_Other; shiftModifier := false; altModifier := false |} in
  mToggleMagnifier s = false /\
  key press = Key_Other /\ shiftModifier press = true /\ shiftModifier release = false /\
  paintsMagnifier (paintEvent s) = false /\
  paintsMagnifier (paintEvent (keyPressEvent press s)) = true /\
  keyReleaseEvent release (keyPressEvent press s) = s.
Proof.
  cbv zeta.
  set (s := run inkPainter [ MousePress (leftPress 100 100); MouseMove (leftDrag 300 300) ]
              editor1).
  assert (Ht : mToggleMagnifier s = false) by (vm_compute; reflexivity).
  destruct (shift_inverts_magnifier_until_released
              {| key := Key_Other; shiftModifier := true; altModifier := false |}
              {| key := Key_Other; shiftModifier := false; altModifier := false |}
              s Ht eq_refl eq_refl eq_refl) as [H1 H2].
  split; [exact Ht |]. split; [reflexivity |]. split; [reflexivity |]. split; [reflexivity |].
  split; [vm_compute; reflexivity |]. split; [vm_compute; reflexivity | exact H2].
Defined.

(** ** Drawing a new selection, moving an existing one *)

Lemma qMin_inject_Z a b : qMin (inject_Z a) (inject_Z b) == inject_Z (Z.min a b).
Proof.
  unfold qMin. destruct (Qlt_le_dec (inject_Z a) (inject_Z b)) as [H | H].
  - rewrite <- Zlt_Qlt in H. rewrite Z.min_l by lia. reflexivity.
  - rewrite <- Zle_Qle in H. rewrite Z.min_r by lia. reflexivity.
Qed.

(** A left press with no tool armed, on a position the hit test
    classifies as [loc]. *)
Lemma mousePressEvent_select event s :
  mEditToolState s = NoEdit -> button event = LeftButton ->
  let p := QPointF.of_point (pos event) in
  let s' := mousePressEvent event s in
  mMouseDragState s' = mouseLocation (mSelection s) p /\
  mSelection s' = mSelection s /\
  mEditToolState s' = NoEdit /\
  (mouseLocation (mSelection s) p = Outside -> mStartPos s' = p) /\
  (mouseLocation (mSelection s) p = Inside ->
   mStartPos s' = p /\ mInitialTopLeft s' = QRectF.topLeft (mSelection s)).
Proof.
  intros Ht Hb. cbv zeta. unfold mousePressEvent. rewrite Ht, Hb. cbn.
  destruct (mouseLocation (mSelection s) (QPointF.of_point (pos event))); cbn;
    rewrite ?Ht; repeat split; try reflexivity; congruence.
Qed.

Lemma moveShape_disarmed event s : mEditToolState s = NoEdit -> moveShape event s = s.
Proof. intros Ht. unfold moveShape. rewrite Ht. destruct (leftHeld event); reflexivity. Qed.

(** X19. Drawing a new selection: after a left press outside of any
    selection and a move, with no tool armed, the selection spans from the
    pressed pixel to the pixel under the pointer, both included, whatever
    the direction of the drag: in device pixels the grab is
    [n * |dx| + 1] wide and [n * |dy| + 1] high. *)
Theorem new_selection_spans_both_pixels (n : Z) (press move : QMouseEvent) (s : QuickEditor) :
  integralRatio n (devicePixelRatioF s) (dprI s) ->
  mEditToolState s = NoEdit ->
  button press = LeftButton ->
  mouseLocation (mSelection s) (QPointF.of_point (pos press)) = Outside ->
  let s' := mouseMoveEvent move (mousePressEvent press s) in
  let ax := QPoint.x (pos press) in
  let ay := QPoint.y (pos press) in
  let px := QPoint.x (pos move) in
  let py := QPoint.y (pos move) in
  QRectF.eq (mSelection s')
    (QRectF.mk (inject_Z (Z.min px ax)) (inject_Z (Z.min py ay))
               (inject_Z (Z.abs (px - ax)) + dprI s) (inject_Z (Z.abs (py - ay)) + dprI s)) /\
  scaledCropRegion s' =
    QRect.mk (Z.min px ax * n) (Z.min py ay * n)
             (Z.abs (px - ax) * n + 1) (Z.abs (py - ay) * n + 1).
Proof.
  intros Hr Ht Hb Hloc. cbv zeta.
  pose proof Hr as (Hn & Hd & Hi).
  destruct (mousePressEvent_select press s Ht Hb) as (Hm & Hsel & Ht' & Hout & _).
  cbv zeta in Hm, Hout. rewrite Hloc in Hm. specialize (Hout Hloc).
  destruct (mousePressEvent_geometry press s) as ((G1 & G2 & _) & _).
  set (s1 := mousePressEvent press s) in *.
  assert (Esel : mSelection (mouseMoveEvent move s1) =
                 QRectF.mk (qMin (inject_Z (QPoint.x (pos move))) (inject_Z (QPoint.x (pos press))))
                           (qMin (inject_Z (QPoint.y (pos move))) (inject_Z (QPoint.y (pos press))))
                           (qAbs (inject_Z (QPoint.x (pos move)) - inject_Z (QPoint.x (pos press)))
                            + dprI s)
                           (qAbs (inject_Z (QPoint.y (pos move)) - inject_Z (QPoint.y (pos press)))
                            + dprI s)).
  { unfold mouseMoveEvent. rewrite (moveShape_disarmed move s1 Ht').
    rewrite (moveSelection_selection move s1). cbv zeta.
    rewrite Hm, Hout, G2. reflexivity. }
  assert (Eq : QRectF.eq (mSelection (mouseMoveEvent move s1))
                 (QRectF.mk (inject_Z (Z.min (QPoint.x (pos move)) (QPoint.x (pos press))))
                    (inject_Z (Z.min (QPoint.y (pos move)) (QPoint.y (pos press))))
                    (inject_Z (Z.abs (QPoint.x (pos move) - QPoint.x (pos press))) + dprI s)
                    (inject_Z (Z.abs (QPoint.y (pos move) - QPoint.y (pos press))) + dprI s))).
  { rewrite Esel. unfold QRectF.eq. cbn [QRectF.x QRectF.y QRectF.width QRectF.height].
    rewrite !qMin_inject_Z, !qAbs_sub_inject_Z. repeat split; reflexivity. }
  split; [exact Eq |].
  destruct Eq as (Ex & Ey & Ew & Eh).
  cbn [QRectF.x QRectF.y QRectF.width QRectF.height] in Ex, Ey, Ew, Eh.
  assert (Gm : devicePixelRatioF (mouseMoveEvent move s1) = devicePixelRatioF s).
  { unfold mouseMoveEvent. rewrite (moveShape_disarmed move s1 Ht').
    destruct (moveSelection_frame move s1) as ((F1 & _) & _). rewrite F1. exact G1. }
  unfold scaledCropRegion. cbv zeta. rewrite Gm.
  f_equal; apply qRound_integral.
  - rewrite Ex, Hd, inject_Z_mult. reflexivity.
  - rewrite Ey, Hd, inject_Z_mult. reflexivity.
  - rewrite Ew, inject_Z_plus, inject_Z_mult, <- Hd.
    change (inject_Z 1) with 1. rewrite <- Hi. ring.
  - rewrite Eh, inject_Z_plus, inject_Z_mult, <- Hd.
    change (inject_Z 1) with 1. rewrite <- Hi. ring.
Qed.

Lemma new_selection_spans_both_pixels_witness :
  integralRatio 2 (devicePixelRatioF editor2) (dprI editor2) /\
  mEditToolState editor2 = NoEdit /\
  button (leftPress 100 100) = LeftButton /\
  mouseLocation (mSelection editor2) (QPointF.of_point (pos (leftPress 100 100))) = Outside /\
  scaledCropRegion (mouseMoveEvent (leftDrag 50 250) (mousePressEvent (leftPress 100 100) editor2))
  = QRect.mk 100 200 101 301.
Proof.
  destruct (construct_inv 2 (blankPixmap 2000 1600) false false (QRect.mk 0 0 0 0))
    as (Hr & _ & _); [lia | cbn; lia | cbn; lia |].
  assert (Ht : mEditToolState editor2 = NoEdit) by reflexivity.
  assert (Hb : button (leftPress 100 100) = LeftButton) by reflexivity.
  assert (Hloc : mouseLocation (mSelection editor2)
                   (QPointF.of_point (pos (leftPress 100 100))) = Outside)
    by (vm_compute; reflexivity).
  destruct (new_selection_spans_both_pixels 2 (leftPress 100 100) (leftDrag 50 250) editor2
              Hr Ht Hb Hloc) as [_ H].
  split; [exact Hr |]. split; [exact Ht |]. split; [exact Hb |]. split; [exact Hloc |].
  exact H.
Defined.

Lemma clampAxis_inside v M : (0 <= v <= M)%Z -> clampAxis v M = v.
Proof.
  intros H. unfold clampAxis. cbv zeta.
  destruct (Z.max 0 v =? 0)%Z eqn:E; cbn; lia.
Qed.

(** One axis of a move that stays clear of the borders. *)
Lemma axis_move_free n dpr dI W x w a p :
  integralRatio n dpr dI -> axisOK dpr W x w ->
  0 <= x + inject_Z (p - a) -> x + w + inject_Z (p - a) <= inject_Z W ->
  inject_Z (clampAxis (qRound ((inject_Z p - inject_Z a + x) * dpr))
              (qRound ((inject_Z W - w) * dpr))) * dI
  == x + inject_Z (p - a).
Proof.
  intros Hr Hax H0 H1.
  destruct (axis_device _ _ _ _ _ _ Hr Hax) as (kx & kw & Hx & Hw & Ex & Ew & Hkx & Hkw & Hs).
  pose proof Hr as (Hn & Hd & Hi).
  destruct (ratio_positive _ _ _ Hr) as (Hdpr & HdI0 & HdI1).
  assert (Ed : inject_Z (p - a) == dI * inject_Z ((p - a) * n)).
  { rewrite inject_Z_mult, <- Hd.
    transitivity (inject_Z (p - a) * (dI * dpr)); [rewrite Hi; ring | ring]. }
  assert (EW : inject_Z W == dI * inject_Z (W * n)).
  { rewrite inject_Z_mult, <- Hd.
    transitivity (inject_Z W * (dI * dpr)); [rewrite Hi; ring | ring]. }
  rewrite (qRound_integral _ ((p - a) * n + kx)).
  2:{ rewrite inject_Z_plus, inject_Z_mult, <- Hx, <- Hd.
      unfold Z.sub. rewrite inject_Z_plus, inject_Z_opp. ring. }
  rewrite (realMax_device _ _ _ _ _ _ Hr Hw).
  assert (B0 : (0 <= (p - a) * n + kx)%Z).
  { rewrite Zle_Qle, inject_Z_plus. change (inject_Z 0) with 0.
    rewrite Ex, Ed in H0. nra. }
  assert (B1 : ((p - a) * n + kx <= W * n - kw)%Z).
  { rewrite Zle_Qle. unfold Z.sub at 2. rewrite !inject_Z_plus, inject_Z_opp.
    rewrite Ex, Ew, Ed, EW in H1. nra. }
  rewrite clampAxis_inside by lia.
  rewrite inject_Z_plus, Ex, Ed. ring.
Qed.

(** X20. Moving a selection: after a left press inside it and a move,
    with no tool armed, the selection has followed the pointer by exactly
    the pointer's displacement and kept its size, as long as the displaced
    rectangle stays within the widget. *)
Theorem moving_follows_the_pointer (n : Z) (press move : QMouseEvent) (s : QuickEditor) :
  integralRatio n (devicePixelRatioF s) (dprI s) ->
  selectionInv s ->
  mEditToolState s = NoEdit ->
  button press = LeftButton ->
  mouseLocation (mSelection s) (QPointF.of_point (pos press)) = Inside ->
  let dx := inject_Z (QPoint.x (pos move) - QPoint.x (pos press)) in
  let dy := inject_Z (QPoint.y (pos move) - QPoint.y (pos press)) in
  let sel := mSelection s in
  0 <= QRectF.x sel + dx -> QRectF.x sel + QRectF.width sel + dx <= inject_Z (width s) ->
  0 <= QRectF.y sel + dy -> QRectF.y sel + QRectF.height sel + dy <= inject_Z (height s) ->
  QRectF.eq (mSelection (mouseMoveEvent move (mousePressEvent press s)))
    (QRectF.mk (QRectF.x sel + dx) (QRectF.y sel + dy) (QRectF.width sel) (QRectF.height sel)).
Proof.
  intros Hr [[HX HY] _] Ht Hb Hloc. cbv zeta. intros X0 X1 Y0 Y1.
  destruct (mousePressEvent_select press s Ht Hb) as (Hm & Hsel & Ht' & _ & Hin).
  cbv zeta in Hm, Hin. rewrite Hloc in Hm. destruct (Hin Hloc) as [Hstart Hinit].
  destruct (mousePressEvent_geometry press s) as ((G1 & G2 & G3 & G4) & _).
  set (s1 := mousePressEvent press s) in *.
  unfold mouseMoveEvent. rewrite (moveShape_disarmed move s1 Ht').
  rewrite (moveSelection_selection move s1). cbv zeta. rewrite Hm.
  unfold dragTarget, realMaxX, realMaxY.
  cbn [mStartPos mInitialTopLeft devicePixelRatioF set_mMagnifierAllowed set_mMousePos
       QPointF.toPoint QPointF.scale QPointF.add QPointF.sub QPointF.of_point
       QPointF.x QPointF.y QPoint.x QPoint.y].
  rewrite Hstart, Hinit, Hsel, G1, G2, G3, G4.
  cbn [QPointF.of_point QRectF.topLeft QPointF.x QPointF.y].
  unfold QRectF.eq. cbn [QRectF.x QRectF.y QRectF.width QRectF.height].
  split; [apply (axis_move_free n); assumption |].
  split; [apply (axis_move_free n); assumption |].
  split; reflexivity.
Qed.

Lemma moving_follows_the_pointer_witness :
  let press := leftPress 200 200 in
  let move := leftDrag 250 230 in
  integralRatio 1 (devicePixelRatioF selected1) (dprI selected1) /\
  selectionInv selected1 /\
  mEditToolState selected1 = NoEdit /\
  button press = LeftButton /\
  mouseLocation (mSelection selected1) (QPointF.of_point (pos press)) = Inside /\
  0 <= QRectF.x (mSelection selected1) + inject_Z 50 /\
  QRectF.x (mSelection selected1) + QRectF.width (mSelection selected1) + inject_Z 50
    <= inject_Z (width selected1) /\
  0 <= QRectF.y (mSelection selected1) + inject_Z 30 /\
  QRectF.y (mSelection selected1) + QRectF.height (mSelection selected1) + inject_Z 30
    <= inject_Z (height selected1) /\
  QRectF.eq (mSelection (mouseMoveEvent move (mousePressEvent press selected1)))
    (QRectF.mk (QRectF.x (mSelection selected1) + inject_Z 50)
               (QRectF.y (mSelection selected1) + inject_Z 30)
               (QRectF.width (mSelection selected1)) (QRectF.height (mSelection selected1))).
Proof.
  cbv zeta.
  destruct (construct_inv 1 (blankPixmap 1000 800) false false (QRect.mk 0 0 0 0))
    as (Hr & Hinv & _); [lia | cbn; lia | cbn; lia |].
  assert (Hall : Forall (pointerOverWidget editor1)
                   [ MousePress (leftPress 100 100); MouseMove (leftDrag 399 299);
                     MouseRelease (leftRelease 399 299) ]).
  { repeat (apply Forall_cons; [vm_compute; repeat split; discriminate |]). apply Forall_nil. }
  destruct (run_any_inv 1 inkPainter _ editor1 Hr Hinv Hall) as [Hinv1 _].
  fold selected1 in Hinv1.
  assert (Hr1 : integralRatio 1 (devicePixelRatioF selected1) (dprI selected1)).
  { split; [lia |]. split; vm_compute; reflexivity. }
  assert (Ht : mEditToolState selected1 = NoEdit) by (vm_compute; reflexivity).
  assert (Hb : button (leftPress 200 200) = LeftButton) by reflexivity.
  assert (Hloc : mouseLocation (mSelection selected1)
                   (QPointF.of_point (pos (leftPress 200 200))) = Inside)
    by (vm_compute; reflexivity).
  assert (X0 : 0 <= QRectF.x (mSelection selected1) + inject_Z 50)
    by (vm_compute; discriminate).
  assert (X1 : QRectF.x (mSelection selected1) + QRectF.width (mSelection selected1)
               + inject_Z 50 <= inject_Z (width selected1)) by (vm_compute; discriminate).
  assert (Y0 : 0 <= QRectF.y (mSelection selected1) + inject_Z 30)
    by (vm_compute; discriminate).
  assert (Y1 : QRectF.y (mSelection selected1) + QRectF.height (mSelection selected1)
               + inject_Z 30 <= inject_Z (height selected1)) by (vm_compute; discriminate).
  split; [exact Hr1 |]. split; [exact Hinv1 |]. split; [exact Ht |]. split; [exact Hb |].
  split; [exact Hloc |]. split; [exact X0 |]. split; [exact X1 |]. split; [exact Y0 |].
  split; [exact Y1 |].
  exact (moving_follows_the_pointer 1 (leftPress 200 200) (leftDrag 250 230) selected1
           Hr1 Hinv1 Ht Hb Hloc X0 X1 Y0 Y1).
Defined.

(** ** Arrow keys during a drag *)

Lemma mouseMoveEvent_keeps_disable event s :
  mDisableArrowKeys (mouseMoveEvent event s) = mDisableArrowKeys s.
Proof.
  unfold mouseMoveEvent.
  assert (H1 : mDisableArrowKeys (moveShape event s) = mDisableArrowKeys s).
  { unfold moveShape. destruct (leftHeld event), (mEditToolState s); reflexivity. }
  rewrite <- H1. generalize (moveShape event s). intros s1.
  unfold moveSelection. cbv zeta.
  cbn [mMouseDragState set_mMagnifierAllowed set_mMousePos].
  destruct (mMouseDragState s1); try reflexivity.
  match goal with
  | |- context [dragSelection ?p ?st] => destruct (dragSelection_eq p st) as [a E]; rewrite E
  end.
  reflexivity.
Qed.

Lemma moves_keep_disable events :
  forall s, mDisableArrowKeys (moves events s) = mDisableArrowKeys s /\
            mEditToolState (moves events s) = mEditToolState s.
Proof.
  induction events as [| e events IH]; intros s; [split; reflexivity |].
  rewrite moves_cons. destruct (IH (mouseMoveEvent e s)) as [E1 E2].
  rewrite E1, E2, mouseMoveEvent_keeps_disable, mouseMoveEvent_tool. split; reflexivity.
Qed.

(** X21. While the left button is held on the selection layer (no tool
    armed) the arrow keys do nothing: from the press, through any number
    of pointer moves, an arrow key leaves the selection as the drag made
    it; the release of the left button switches the keys back on. *)
Theorem arrow_keys_are_off_during_a_drag
    (drawElements : bool -> EditToolState -> QLineF.t -> QRectF.t -> Z -> QColor ->
                    string -> QPixmap -> QPixmap)
    (press release : QMouseEvent) (events : list QMouseEvent) (arrow : QKeyEvent)
    (s : QuickEditor) :
  mEditToolState s = NoEdit ->
  button press = LeftButton ->
  button release = LeftButton ->
  isArrow (key arrow) = true ->
  let dragging := moves events (mousePressEvent press s) in
  mSelection (keyPressEvent arrow dragging) = mSelection dragging /\
  mDisableArrowKeys (mouseReleaseEvent drawElements release dragging) = false.
Proof.
  intros Ht Hb Hr Hk. cbv zeta.
  destruct (mousePressEvent_select press s Ht Hb) as (_ & _ & Ht' & _).
  assert (Hd : mDisableArrowKeys (mousePressEvent press s) = true).
  { unfold mousePressEvent. rewrite Ht, Hb. cbn.
    destruct (mouseLocation (mSelection s) (QPointF.of_point (pos press))); reflexivity. }
  destruct (moves_keep_disable events (mousePressEvent press s)) as [E1 E2].
  rewrite Hd in E1. rewrite Ht' in E2.
  split; [apply keyPressEvent_arrow_disabled; assumption |].
  unfold mouseReleaseEvent. rewrite Hr, E2. cbn.
  destruct (mMouseDragState (moves events (mousePressEvent press s))); try reflexivity.
  destruct (mReleaseToCapture (moves events (mousePressEvent press s))); [| reflexivity].
  unfold acceptSelection, emit. cbn.
  destruct (negb (QRectF.isEmpty (mSelection (moves events (mousePressEvent press s)))));
    reflexivity.
Qed.

Lemma arrow_keys_are_off_during_a_drag_witness :
  let dragging := moves [leftDrag 210 210; leftDrag 220 230]
                    (mousePressEvent (leftPress 200 200) selected1) in
  mEditToolState selected1 = NoEdit /\
  button (leftPress 200 200) = LeftButton /\
  button (leftRelease 220 230) = LeftButton /\
  isArrow (key (arrowKey Key_Left false false)) = true /\
  mSelection (keyPressEvent (arrowKey Key_Left false false) dragging) = mSelection dragging /\
  mDisableArrowKeys (mouseReleaseEvent inkPainter (leftRelease 220 230) dragging) = false.
Proof.
  cbv zeta.
  assert (Ht : mEditToolState selected1 = NoEdit) by (vm_compute; reflexivity).
  destruct (arrow_keys_are_off_during_a_drag inkPainter (leftPress 200 200)
              (leftRelease 220 230) [leftDrag 210 210; leftDrag 220 230]
              (arrowKey Key_Left false false) selected1 Ht eq_refl eq_refl eq_refl)
    as [H1 H2].
  split; [exact Ht |]. split; [reflexivity |]. split; [reflexivity |].
  split; [reflexivity |]. split; [exact H1 | exact H2].
Defined.

(** * The arrow-key switch and the re-arming timer *)

(** ** What turns the arrow keys off and on *)

Lemma handle_arrow_key_flag drawElements ev s :
  mDisableArrowKeys (handle drawElements ev s) = arrowKeyFlagAfter ev s.
Proof.
  destruct ev as [e | e | e | e | e | e | st | | | |]; cbn [handle arrowKeyFlagAfter].
  - apply keyPressEvent_keeps_disable.
  - unfold keyReleaseEvent.
    destruct (mToggleMagnifier s && negb (shiftModifier e)); reflexivity.
  - unfold mousePressEvent.
    destruct (mEditToolState s); cbn; rewrite ?andb_false_r; try reflexivity;
      destruct (button e); cbn; try reflexivity;
      destruct (mouseLocation (mSelection s) (QPointF.of_point (pos e))); reflexivity.
  - apply mouseMoveEvent_keeps_disable.
  - unfold mouseReleaseEvent.
    change (mDisableArrowKeys (set_mMouseDragState MS_None ?x)) with (mDisableArrowKeys x).
    destruct (button e); cbn; try reflexivity.
    destruct (mEditToolState s); cbn; try reflexivity.
    destruct (mMouseDragState s); try reflexivity.
    destruct (mReleaseToCapture s); [| reflexivity].
    unfold acceptSelection, emit. cbn.
    destruct (negb (QRectF.isEmpty (mSelection s))); reflexivity.
  - unfold mouseDoubleClickEvent. destruct (button e); try reflexivity.
    destruct (QRectF.contains (mSelection s) (QPointF.of_point (pos e))); [| reflexivity].
    unfold acceptSelection, emit.
    destruct (negb (QRectF.isEmpty (mSelection s))); reflexivity.
  - unfold toggleDrawState.
    destruct (EditToolState_eqb (mEditToolState s) st); reflexivity.
  - unfold undo. cbv zeta.
    change (history (set_mEditToolState NoEdit s)) with (history s).
    destruct (history s); reflexivity.
  - reflexivity.
  - unfold acceptSelection, emit.
    destruct (negb (QRectF.isEmpty (mSelection s))); reflexivity.
  - unfold timerExpired. destruct (timers s) as [| [d st] rest]; reflexivity.
Qed.

(** C4 (amended). At an integral device pixel ratio, with the selection on
    device pixels inside the widget and the switch [mDisableArrowKeys]
    off, an arrow key moves the selection (or, with Alt, moves its bottom
    or right edge) by a step of 15 device pixels, or 1 device pixel with
    Shift, that is by the step times [dprI] = step / ratio logical pixels,
    provided the step stays within the bound the code clamps against; the
    key leaves the other axis untouched and changes no output.  While the
    switch is on, an arrow key leaves the selection as it is.  The switch
    is not "a pointer drag is in progress": of all inputs only a
    left-button press with no tool armed turns it on and only a
    left-button release with no tool armed turns it off, so that a drag
    with a tool armed leaves the keys active and a release with a tool
    armed leaves the switch as it was. *)
Theorem arrow_keys_step_in_device_pixels
    (drawElements : bool -> EditToolState -> QLineF.t -> QRectF.t -> Z -> QColor ->
                    string -> QPixmap -> QPixmap)
    (n : Z) (event : QKeyEvent) (s : QuickEditor) :
  isArrow (key event) = true ->
  integralRatio n (devicePixelRatioF s) (dprI s) ->
  rectOK (devicePixelRatioF s) (width s) (height s) (mSelection s) ->
  let sel := mSelection s in
  let sel' := mSelection (keyPressEvent event s) in
  let step := stepZ (shiftModifier event) in
  step = (if shiftModifier event then 1 else 15)%Z /\
  sameOutputs s (keyPressEvent event s) /\
  (mDisableArrowKeys s = true -> sel' = sel) /\
  (mDisableArrowKeys s = false ->
     (isVertical (key event) = true ->
        QRectF.x sel' = QRectF.x sel /\ QRectF.width sel' = QRectF.width sel) /\
     (isHorizontal (key event) = true ->
        QRectF.y sel' = QRectF.y sel /\ QRectF.height sel' = QRectF.height sel) /\
     (roomFor (key event) step s ->
        QRectF.eq sel' (nudged (key event) (altModifier event) (inject_Z step * dprI s) sel))) /\
  (forall ev : Event,
     mDisableArrowKeys (handle drawElements ev s) = arrowKeyFlagAfter ev s).
Proof.
  intros Hk Hr [HX HY]. cbv zeta.
  pose proof Hr as (_ & _ & H1).
  assert (Hw : 0 <= QRectF.width (mSelection s)) by apply HX.
  assert (Hh : 0 <= QRectF.height (mSelection s)) by apply HY.
  split; [reflexivity |].
  split; [apply keyPressEvent_arrow_outputs; exact Hk |].
  split; [intros Hd; apply keyPressEvent_arrow_disabled; assumption |].
  split; [| intros ev; apply handle_arrow_key_flag].
  intros Hd.
  destruct (arrow_axes_independent event s Hd Hw Hh) as [Hv Hho].
  split; [exact Hv |]. split; [exact Hho |].
  intros Hroom. apply arrow_nudges_by_step; assumption.
Qed.

(** Witness for the amended C4: the Up key on [selected2] moves the
    selection by 15 device pixels, 7.5 logical pixels; a press with the
    line tool armed leaves the keys on. *)
Lemma arrow_keys_step_in_device_pixels_witness :
  isArrow (key (arrowKey Key_Up false false)) = true /\
  integralRatio 2 (devicePixelRatioF selected2) (dprI selected2) /\
  rectOK (devicePixelRatioF selected2) (width selected2) (height selected2)
         (mSelection selected2) /\
  mDisableArrowKeys selected2 = false /\
  roomFor Key_Up 15 selected2 /\
  QRectF.eq (mSelection (keyPressEvent (arrowKey Key_Up false false) selected2))
            (nudged Key_Up false (inject_Z 15 * dprI selected2) (mSelection selected2)) /\
  mDisableArrowKeys (handle inkPainter (MousePress (leftPress 150 150)) selected2) = true.
Proof.
  destruct (construct_inv 2 (blankPixmap 2000 1600) false false (QRect.mk 0 0 0 0))
    as (Hr & Hinv & _); [lia | cbn; lia | cbn; lia |].
  assert (Hall : Forall (pointerOverWidget editor2)
                   [ MousePress (leftPress 100 100); MouseMove (leftDrag 399 299);
                     MouseRelease (leftRelease 399 299) ]).
  { repeat (apply Forall_cons; [vm_compute; repeat split; discriminate |]). apply Forall_nil. }
  destruct (run_any_inv 2 inkPainter _ editor2 Hr Hinv Hall) as [[Hrect _] _].
  fold selected2 in Hrect.
  assert (Hr2 : integralRatio 2 (devicePixelRatioF selected2) (dprI selected2)).
  { split; [lia |]. split; vm_compute; reflexivity. }
  assert (Hroom : roomFor Key_Up 15 selected2).
  { exists 200%Z. split; [vm_compute; reflexivity | lia]. }
  assert (Hd : mDisableArrowKeys selected2 = false) by (vm_compute; reflexivity).
  destruct (arrow_keys_step_in_device_pixels inkPainter 2 (arrowKey Key_Up false false)
              selected2 eq_refl Hr2 Hrect) as (_ & _ & _ & H & Hflag).
  destruct (H Hd) as (_ & _ & Hstep).
  split; [reflexivity |]. split; [exact Hr2 |]. split; [exact Hrect |]. split; [exact Hd |].
  split; [exact Hroom |]. split; [exact (Hstep Hroom) |].
  rewrite Hflag. vm_compute. reflexivity.
Defined.

(** ** Inputs between an undo and the re-arming of the tool *)

Lemma keyPressEvent_tool_timers event s :
  mEditToolState (keyPressEvent event s) = mEditToolState s /\
  timers (keyPressEvent event s) = timers s.
Proof.
  unfold keyPressEvent. cbv zeta.
  rewrite boundsUp_nomouse, boundsDown_nomouse, boundsLeft_nomouse, boundsRight_nomouse.
  unfold acceptSelection, emit.
  destruct (key event), (shiftModifier event); cbn;
    try (destruct (mDisableArrowKeys s); destruct (altModifier event); split; reflexivity);
    try (destruct (negb (QRectF.isEmpty (mSelection s))); split; reflexivity);
    split; reflexivity.
Qed.

(** An input other than a timer expiry and a tool button leaves a
    disarmed tool disarmed and cancels no timer: the queue can only grow
    at its end. *)
Lemma handle_keeps_disarmed drawElements ev s :
  keepsDisarmed ev ->
  mEditToolState s = NoEdit ->
  mEditToolState (handle drawElements ev s) = NoEdit /\
  exists later, timers (handle drawElements ev s) = timers s ++ later.
Proof.
  intros Hev Ht.
  destruct ev as [e | e | e | e | e | e | st | | | |]; cbn [keepsDisarmed] in Hev;
    try contradiction; cbn [handle].
  - destruct (keyPressEvent_tool_timers e s) as [E1 E2]. rewrite E1, E2.
    split; [exact Ht | exists []; symmetry; apply app_nil_r].
  - unfold keyReleaseEvent.
    destruct (mToggleMagnifier s && negb (shiftModifier e)); cbn;
      (split; [exact Ht | exists []; symmetry; apply app_nil_r]).
  - rewrite mousePressEvent_tool.
    destruct (mousePressEvent_outputs e s) as (_ & _ & _ & _ & E). rewrite E.
    split; [exact Ht | exists []; symmetry; apply app_nil_r].
  - rewrite mouseMoveEvent_tool.
    destruct (mouseMoveEvent_outputs e s) as (_ & _ & _ & _ & E). rewrite E.
    split; [exact Ht | exists []; symmetry; apply app_nil_r].
  - unfold mouseReleaseEvent.
    change (mEditToolState (set_mMouseDragState MS_None ?x)) with (mEditToolState x).
    change (timers (set_mMouseDragState MS_None ?x)) with (timers x).
    rewrite Ht. cbn.
    destruct (button e); cbn; rewrite ?Ht;
      try (split; [reflexivity | exists []; symmetry; apply app_nil_r]).
    destruct (mMouseDragState s); cbn; rewrite ?Ht;
      try (split; [reflexivity | exists []; symmetry; apply app_nil_r]).
    destruct (mReleaseToCapture s); cbn; rewrite ?Ht;
      try (split; [reflexivity | exists []; symmetry; apply app_nil_r]).
    unfold acceptSelection, emit. cbn.
    destruct (negb (QRectF.isEmpty (mSelection s))); cbn; rewrite ?Ht;
      (split; [reflexivity | exists []; symmetry; apply app_nil_r]).
  - unfold mouseDoubleClickEvent. destruct (button e);
      try (split; [exact Ht | exists []; symmetry; apply app_nil_r]).
    destruct (QRectF.contains (mSelection s) (QPointF.of_point (pos e)));
      [| split; [exact Ht | exists []; symmetry; apply app_nil_r]].
    unfold acceptSelection, emit.
    destruct (negb (QRectF.isEmpty (mSelection s))); cbn;
      (split; [exact Ht | exists []; symmetry; apply app_nil_r]).
  - destruct (undo_disarms s) as [E1 E2]. rewrite E1, E2.
    split; [reflexivity | eexists; reflexivity].
  - split; [exact Ht | exists []; symmetry; apply app_nil_r].
  - unfold acceptSelection, emit.
    destruct (negb (QRectF.isEmpty (mSelection s))); cbn;
      (split; [exact Ht | exists []; symmetry; apply app_nil_r]).
Qed.

Lemma run_keeps_disarmed drawElements evs :
  forall s,
    Forall keepsDisarmed evs ->
    mEditToolState s = NoEdit ->
    mEditToolState (run drawElements evs s) = NoEdit /\
    exists later, timers (run drawElements evs s) = timers s ++ later.
Proof.
  induction evs as [| ev evs IH]; intros s Hall Ht.
  - split; [exact Ht | exists []; symmetry; apply app_nil_r].
  - inversion Hall as [| ? ? Hev Hrest]; subst.
    change (run drawElements (ev :: evs) s)
      with (run drawElements evs (handle drawElements ev s)).
    destruct (handle_keeps_disarmed drawElements ev s Hev Ht) as [Ht1 [l1 E1]].
    destruct (IH (handle drawElements ev s) Hrest Ht1) as [Ht2 [l2 E2]].
    split; [exact Ht2 |]. exists (l1 ++ l2). rewrite E2, E1, app_assoc. reflexivity.
Qed.

(** Expiring the timers up to a given one: the closures run oldest first
    and the given one decides the tool, whatever is queued behind it. *)
Lemma timers_run_to (pending : list (Z * EditToolState)) :
  forall (s : QuickEditor) (d : Z) (state : EditToolState) (later : list (Z * EditToolState)),
    timers s = pending ++ (d, state) :: later ->
    mEditToolState (Nat.iter (S (List.length pending)) timerExpired s) = state /\
    timers (Nat.iter (S (List.length pending)) timerExpired s) = later.
Proof.
  induction pending as [| [d0 st0] rest IH]; intros s d state later Ht.
  - cbn. unfold timerExpired. rewrite Ht. cbn. split; reflexivity.
  - assert (Hstep : timers (timerExpired s) = rest ++ (d, state) :: later).
    { unfold timerExpired. rewrite Ht. reflexivity. }
    specialize (IH (timerExpired s) d state later Hstep).
    change (List.length ((d0, st0) :: rest)) with (S (List.length rest)).
    rewrite <- Nat.iter_succ_r in IH. exact IH.
Qed.

(** C8 (amended). An undo disarms the annotation tool at once and queues
    a single-shot timer of 200 ms whose expiry re-arms the tool the undo
    found; nothing cancels that timer.  As long as no re-arming timer has
    fired and no tool button has been clicked since the undo, whatever
    other inputs have been handled in between (further undos included), a
    pointer press is not a drawing press: it starts no pending shape,
    commits nothing, leaves the tool disarmed and leaves the timers
    pending.  When the timers queued before this undo and its own timer
    have fired, the tool the undo found is armed again, gesture in
    progress or not. *)
Theorem undo_rearms_after_delay
    (drawElements : bool -> EditToolState -> QLineF.t -> QRectF.t -> Z -> QColor ->
                    string -> QPixmap -> QPixmap)
    (between : list Event) (event : QMouseEvent) (s : QuickEditor) :
  Forall keepsDisarmed between ->
  let undone := undo s in
  let before := run drawElements between undone in
  let pressed := mousePressEvent event before in
  undoRearmDelay = 200%Z /\
  mEditToolState undone = NoEdit /\
  timers undone = timers s ++ [(undoRearmDelay, mEditToolState s)] /\
  mEditToolState before = NoEdit /\
  mEditToolState pressed = NoEdit /\
  mLine pressed = mLine before /\ mRect pressed = mRect before /\
  history pressed = history before /\ mPixmap pressed = mPixmap before /\
  emitted pressed = emitted before /\
  timers pressed = timers before /\
  (exists later, timers pressed = timers s ++ (undoRearmDelay, mEditToolState s) :: later) /\
  mEditToolState (Nat.iter (S (List.length (timers s))) timerExpired pressed)
    = mEditToolState s.
Proof.
  intros Hall. cbv zeta.
  destruct (undo_disarms s) as [Hd Ht].
  destruct (run_keeps_disarmed drawElements between (undo s) Hall Hd) as [Hb [later Hq]].
  destruct (press_while_disarmed event (run drawElements between (undo s)) Hb)
    as (Hl & Hr & Hp & Ho).
  destruct Ho as (Hem & _ & Hh & Hpix & Htm).
  assert (Htp : timers (mousePressEvent event (run drawElements between (undo s)))
                = timers s ++ (undoRearmDelay, mEditToolState s) :: later).
  { rewrite Htm, Hq, Ht, <- app_assoc. reflexivity. }
  destruct (timers_run_to (timers s) _ _ _ _ Htp) as [Hre _].
  split; [reflexivity |]. split; [exact Hd |]. split; [exact Ht |]. split; [exact Hb |].
  split; [exact Hp |]. split; [exact Hl |]. split; [exact Hr |]. split; [exact Hh |].
  split; [exact Hpix |]. split; [exact Hem |]. split; [exact Htm |].
  split; [exists later; exact Htp | exact Hre].
Qed.

(** Witness for the amended C8: after the undo of the second line, pointer
    moves, a key, a second undo and a release go by; the press at
    (150,150) still draws nothing, and the first timer to fire arms the
    line tool again. *)
Lemma undo_rearms_after_delay_witness :
  let between := [ MouseMove (leftDrag 140 140); KeyPress (arrowKey Key_Left false false);
                   UndoClicked; MouseRelease (leftRelease 140 140) ] in
  let pressed := mousePressEvent (leftPress 150 150)
                   (run inkPainter between (undo twoCommits)) in
  Forall keepsDisarmed between /\
  mEditToolState twoCommits = DrawLine /\
  mEditToolState pressed = NoEdit /\
  timers pressed = [(200%Z, DrawLine); (200%Z, NoEdit)] /\
  mEditToolState (Nat.iter (S (List.length (timers twoCommits))) timerExpired pressed)
    = mEditToolState twoCommits.
Proof.
  cbv zeta.
  assert (Hall : Forall keepsDisarmed
                   [ MouseMove (leftDrag 140 140); KeyPress (arrowKey Key_Left false false);
                     UndoClicked; MouseRelease (leftRelease 140 140) ]).
  { repeat (apply Forall_cons; [exact I |]). apply Forall_nil. }
  destruct (undo_rearms_after_delay inkPainter _ (leftPress 150 150) twoCommits Hall)
    as (_ & _ & _ & _ & Hp & _ & _ & _ & _ & _ & _ & _ & Hre).
  split; [exact Hall |]. split; [vm_compute; reflexivity |]. split; [exact Hp |].
  split; [vm_compute; reflexivity | exact Hre].
Defined.
